(** * A shallow embedding of [faceit_verification.py]

    The bot has three handlers that share nothing but module-level
    dictionaries: the periodic tournament synchronisation
    ([check_championships]), the [/stats] slash command and the OAuth
    redirect target ([oauth_callback]).  Each is embedded below as a
    function over the dictionaries it reads and writes; calls that
    leave the process (the FACEIT HTTP API, the chat platform, the
    pickle file) are answered by an explicit environment and recorded
    in a trace, so that statements such as "performs no outbound call"
    or "edits, never re-sends" can be read off the result. *)

From Stdlib Require Import ZArith List String Ascii Bool Lia DecimalString SpecFloat.
From stdpp Require Import base option list gmap strings.

Set Warnings "-register-all".
Local Open Scope string_scope.
Local Open Scope list_scope.
Local Open Scope Z_scope.

(** ** Python values, exceptions and results *)

Module Py.

(** Decoded JSON, as [response.json()] hands it to the program; [JNull]
    is Python's [None].  An object is kept as the list of its items in
    insertion order, its keys distinct as a dict's are (a lookup takes
    the first binding of a key).  Numbers
    are the integers (the payloads this program inspects carry
    identifiers and counters); a string is a sequence of characters,
    one [ascii] each. *)
Inductive json : Type :=
  | JNull
  | JBool (b : bool)
  | JNum (n : Z)
  | JStr (s : string)
  | JArr (items : list json)
  | JObj (fields : list (string * json)).

(** The exception classes the program's handlers tell apart, and the
    built-in ones raised by the expressions it evaluates.  All of them
    are subclasses of [Exception]. *)
Inductive exn : Type :=
  | NotFound            (* discord.NotFound *)
  | Forbidden           (* discord.Forbidden *)
  | ClientError         (* aiohttp.ClientError and subclasses *)
  | JSONDecodeError     (* json.JSONDecodeError *)
  | RequestException    (* requests.exceptions.RequestException *)
  | IndexError
  | KeyError
  | AttributeError
  | TypeError
  | ValueError
  | ZeroDivisionError
  | OverflowError
  | OSError
  | OtherException.

#[global] Instance exn_eq_dec : EqDecision exn.
Proof. solve_decision. Defined.

(** The outcome of evaluating a Python expression or statement. *)
Inductive res (A : Type) : Type :=
  | Ok (a : A)
  | Raise (e : exn).
Arguments Ok {A} a.
Arguments Raise {A} e.

Definition bind {A B} (r : res A) (k : A -> res B) : res B :=
  match r with
  | Ok a => k a
  | Raise e => Raise e
  end.

(** [d.get(k, default)] on a dict. *)
Fixpoint assoc (k : string) (fields : list (string * json)) : option json :=
  match fields with
  | [] => None
  | (k', v) :: rest => if String.eqb k k' then Some v else assoc k rest
  end.

(** [x.get(k, dflt)]: only dicts have the method. *)
Definition get (x : json) (k : string) (dflt : json) : res json :=
  match x with
  | JObj fields => Ok (default dflt (assoc k fields))
  | _ => Raise AttributeError
  end.

(** [x[0]]. *)
Definition item0 (x : json) : res json :=
  match x with
  | JArr [] => Raise IndexError
  | JArr (v :: _) => Ok v
  | JStr EmptyString => Raise IndexError
  | JStr (String c _) => Ok (JStr (String c EmptyString))
  | JObj _ => Raise KeyError
  | JNull | JBool _ | JNum _ => Raise TypeError
  end.

(** Truth value of [x] in a condition. *)
Definition truthy (x : json) : bool :=
  match x with
  | JNull => false
  | JBool b => b
  | JNum n => negb (Z.eqb n 0)
  | JStr s => negb (String.eqb s "")
  | JArr items => match items with [] => false | _ => true end
  | JObj fields => match fields with [] => false | _ => true end
  end.

(** Numeric reading of booleans and numbers, which [==] compares by
    value ([True == 1]). *)
Definition as_number (x : json) : option Z :=
  match x with
  | JBool b => Some (if b then 1 else 0)
  | JNum n => Some n
  | _ => None
  end.

(** [x == y].  Dicts compare as mappings (order of items is irrelevant),
    lists position by position. *)
Fixpoint eq (x y : json) {struct x} : bool :=
  match x, y with
  | JNull, JNull => true
  | JStr s, JStr t => String.eqb s t
  | JArr xs, JArr ys =>
      (fix eq_items (xs ys : list json) {struct xs} : bool :=
         match xs, ys with
         | [], [] => true
         | a :: xs', b :: ys' => eq a b && eq_items xs' ys'
         | _, _ => false
         end) xs ys
  | JObj fx, JObj fy =>
      (fix sub (rest : list (string * json)) {struct rest} : bool :=
         match rest with
         | [] => true
         | (k, v) :: rest' =>
             match assoc k fy with
             | Some w => eq v w
             | None => false
             end && sub rest'
         end) fx
      && forallb (fun kv => match assoc (fst kv) fx with Some _ => true | None => false end) fy
  | (JBool _ | JNum _), (JBool _ | JNum _) =>
      match as_number x, as_number y with
      | Some a, Some b => Z.eqb a b
      | _, _ => false
      end
  | _, _ => false
  end.

(** Is [p] a substring of [s]? *)
Fixpoint is_infix (p s : string) : bool :=
  String.prefix p s ||
  match s with
  | EmptyString => false
  | String _ rest => is_infix p rest
  end.

(** The keys of a dict, each once, in insertion order. *)
Fixpoint keys (fields : list (string * json)) (seen : list string) : list string :=
  match fields with
  | [] => []
  | (k, _) :: rest =>
      if existsb (String.eqb k) seen then keys rest seen
      else k :: keys rest (k :: seen)
  end.

Fixpoint chars (s : string) : list string :=
  match s with
  | EmptyString => []
  | String c rest => String c EmptyString :: chars rest
  end.

(** [k in x] for a string [k]: key of a dict, element of a list,
    substring of a string. *)
Definition contains (k : string) (x : json) : res bool :=
  match x with
  | JObj fields => Ok (match assoc k fields with Some _ => true | None => false end)
  | JArr items => Ok (existsb (eq (JStr k)) items)
  | JStr s => Ok (is_infix k s)
  | JNull | JBool _ | JNum _ => Raise TypeError
  end.

(** The items [for v in x] runs through. *)
Definition iter (x : json) : res (list json) :=
  match x with
  | JArr items => Ok items
  | JObj fields => Ok (JStr <$> keys fields [])
  | JStr s => Ok (JStr <$> chars s)
  | JNull | JBool _ | JNum _ => Raise TypeError
  end.

(** [x[k]] for a string [k]. *)
Definition item (x : json) (k : string) : res json :=
  match x with
  | JObj fields =>
      match assoc k fields with
      | Some v => Ok v
      | None => Raise KeyError
      end
  | _ => Raise TypeError
  end.

(** Can [x] be a dict key ([d.get(x)])? *)
Definition hashable (x : json) : bool :=
  match x with
  | JArr _ | JObj _ => false
  | _ => true
  end.

(** [s.replace(old, new)] for a non-empty [old]: every occurrence, from
    the left, occurrences not overlapping.  [skip] counts the characters
    of an occurrence still to be passed over. *)
Fixpoint replace_from (old new s : string) (skip : nat) : string :=
  match s with
  | EmptyString => EmptyString
  | String c rest =>
      match skip with
      | S n => replace_from old new rest n
      | O =>
          if String.prefix old s
          then String.append new (replace_from old new rest (String.length old - 1))
          else String c (replace_from old new rest 0)
      end
  end.

Definition replace (old new s : string) : string := replace_from old new s 0.

(** Blank characters stripped by [int(str)]. *)
Definition is_blank (c : ascii) : bool :=
  let n := nat_of_ascii c in
  ((n =? 32) || ((9 <=? n) && (n <=? 13)))%nat.

Fixpoint lstrip (s : string) : string :=
  match s with
  | String c rest => if is_blank c then lstrip rest else s
  | EmptyString => s
  end.

Fixpoint rev_string (s acc : string) : string :=
  match s with
  | EmptyString => acc
  | String c rest => rev_string rest (String c acc)
  end.

Definition strip (s : string) : string :=
  rev_string (lstrip (rev_string (lstrip s) "")) "".

Definition is_digit (c : ascii) : bool :=
  let n := nat_of_ascii c in ((48 <=? n) && (n <=? 57))%nat.

(** Base-ten digits with single underscores between them, as the
    integer literal grammar of [int(str)] allows.  [prev] tells whether
    the previous character was a digit. *)
Fixpoint digits (s : string) (prev : bool) (acc : Z) : option Z :=
  match s with
  | EmptyString => if prev then Some acc else None
  | String c rest =>
      if is_digit c then digits rest true (10 * acc + Z.of_nat (nat_of_ascii c) - 48)
      else if (nat_of_ascii c =? 95)%nat && prev then
        match rest with
        | String c' _ => if is_digit c' then digits rest false acc else None
        | EmptyString => None
        end
      else None
  end.

(** The digits of the literal, underscores apart. *)
Fixpoint count_digits (s : string) : Z :=
  match s with
  | EmptyString => 0
  | String c rest => (if is_digit c then 1 else 0) + count_digits rest
  end.

(** [sys.get_int_max_str_digits()]: the interpreter refuses to convert
    a longer literal. *)
Definition int_max_str_digits : Z := 4300.

Definition int_of_str (s : string) : res Z :=
  let body := strip s in
  let parsed :=
    match body with
    | String "-" rest => Z.opp <$> digits rest false 0
    | String "+" rest => digits rest false 0
    | _ => digits body false 0
    end in
  match parsed with
  | Some n => if int_max_str_digits <? count_digits body then Raise ValueError else Ok n
  | None => Raise ValueError
  end.

(** [int(x)]. *)
Definition int (x : json) : res Z :=
  match x with
  | JNum n => Ok n
  | JBool b => Ok (if b then 1 else 0)
  | JStr s => int_of_str s
  | JNull | JArr _ | JObj _ => Raise TypeError
  end.

(** Decimal rendering of an integer, [str(n)]. *)
Definition str_of_Z (n : Z) : string := NilZero.string_of_int (Z.to_int n).

End Py.

#[global] Instance res_ret : MRet Py.res := @Py.Ok.
#[global] Instance res_bind : MBind Py.res := fun A B k r => Py.bind r k.

Definition catch {A} (r : Py.res A) (handler : Py.exn -> Py.res A) : Py.res A :=
  match r with
  | Py.Ok a => Py.Ok a
  | Py.Raise e => handler e
  end.

(** ** Binary floating point

    Python's [float] is IEEE 754 binary64.  The arithmetic is that of
    the Standard Library's [SpecFloat] at precision 53; the conversions
    to and from decimal text that the program relies on ([int / int],
    [round(x, 1)], [str(x)], the format [:.1f]) are written over it. *)

Module Float.
Import Py.

Definition prec : Z := 53.
Definition emax : Z := 1024.

Abbreviation float := spec_float.

(** Nearest integer to the non-negative rational [num / den]
    ([0 < den]), ties to the even neighbour. *)
Definition round_half_even (num den : Z) : Z :=
  let q := num / den in
  let r := num mod den in
  if 2 * r <? den then q
  else if den <? 2 * r then q + 1
  else if Z.even q then q else q + 1.

(** An integer as an operand of a correctly rounded division. *)
Definition exact (n : Z) : float :=
  match n with
  | Z0 => S754_zero false
  | Zpos p => S754_finite false p 0
  | Zneg p => S754_finite true p 0
  end.

(** The double nearest to [a / b] for integers [a] and [b <> 0], ties
    to even; an infinity when the quotient is beyond the doubles. *)
Definition nearest (a b : Z) : float := SFdiv prec emax (exact a) (exact b).

(** [float(n)] for a small integer such as the literal [100]. *)
Definition of_int (n : Z) : float := binary_normalize prec emax n 0 false.

(** [a / b] on integers: the quotient correctly rounded. *)
Definition truediv (a b : Z) : res float :=
  if b =? 0 then Raise ZeroDivisionError
  else
    match nearest a b with
    | S754_infinity _ => Raise OverflowError
    | q => Ok q
    end.

(** [x * y] on floats; an overflow gives an infinity, not an error. *)
Definition mul (x y : float) : float := SFmul prec emax x y.

(** The magnitude [m * 2 ^ e] in tenths, rounded to the nearest whole
    number of tenths, ties to even: the decimal rounding is made on the
    exact value of the double. *)
Definition tenths (m : positive) (e : Z) : Z :=
  match e with
  | Zneg p => round_half_even (10 * Zpos m) (2 ^ Zpos p)
  | _ => 10 * Zpos m * 2 ^ e
  end.

(** [round(x, 1)]: the double nearest to the rounded decimal; zeros,
    infinities and NaN round to themselves, and the sign is kept. *)
Definition round_1 (x : float) : float :=
  match x with
  | S754_finite s m e =>
      let t := tenths m e in
      if t =? 0 then S754_zero s
      else nearest (if s then - t else t) 10
  | _ => x
  end.

Definition same (x y : float) : bool :=
  match x, y with
  | S754_zero s, S754_zero s' => Bool.eqb s s'
  | S754_infinity s, S754_infinity s' => Bool.eqb s s'
  | S754_nan, S754_nan => true
  | S754_finite s m e, S754_finite s' m' e' => Bool.eqb s s' && Pos.eqb m m' && Z.eqb e e'
  | _, _ => false
  end.

(** Number of decimal digits of a positive integer. *)
Definition ndigits (n : Z) : Z := Z.of_nat (String.length (str_of_Z n)).

Definition pow10 (k : Z) : Z := if k <? 0 then 1 else 10 ^ k.

(** The [d] with [10 ^ (d - 1) <= p / q < 10 ^ d], for positive [p], [q]. *)
Definition decimal_exponent (p q : Z) : Z :=
  let d := ndigits p - ndigits q in
  if q * pow10 d <=? p * pow10 (- d) then d + 1 else d.

(** The decimals with [n] significant digits next to [p / q], the
    value of the positive double [x], as integers to be scaled by
    [10 ^ (d - n)]; of those that read back as [x], the nearer one, the
    even one when they are equally near. *)
Definition candidate (x : float) (p q d n : Z) : option Z :=
  let num := p * pow10 (n - d) in
  let den := q * pow10 (d - n) in
  let lo := num / den in
  let r := num mod den in
  let reads_back c := same (nearest (c * pow10 (d - n)) (pow10 (n - d))) x in
  if r =? 0 then Some lo
  else
    match reads_back lo, reads_back (lo + 1) with
    | true, true =>
        if 2 * r <? den then Some lo
        else if den <? 2 * r then Some (lo + 1)
        else if Z.even lo then Some lo else Some (lo + 1)
    | true, false => Some lo
    | false, true => Some (lo + 1)
    | false, false => None
    end.

(** The shortest decimal that reads back as [x]: its digits and the
    power of ten that scales them.  Seventeen digits always do. *)
Fixpoint shortest (x : float) (p q d : Z) (n : Z) (fuel : nat) : Z * Z :=
  match fuel with
  | O => (round_half_even (p * pow10 (n - d)) (q * pow10 (d - n)), d - n)
  | S fuel' =>
      match candidate x p q d n with
      | Some c => (c, d - n)
      | None => shortest x p q d (n + 1) fuel'
      end
  end.

(** Drops the trailing zeros of the digits. *)
Fixpoint strip_zeros (c k : Z) (fuel : nat) : Z * Z :=
  match fuel with
  | O => (c, k)
  | S fuel' => if (c mod 10 =? 0) && negb (c =? 0) then strip_zeros (c / 10) (k + 1) fuel' else (c, k)
  end.

Fixpoint zeros (n : nat) : string :=
  match n with
  | O => ""
  | S n' => String "0" (zeros n')
  end.

(** The text of the digits [ds] with the decimal point after the first
    [decpt] of them, as [repr] lays it out: exponent notation below
    [1e-4] and from [1e16] on, and [.0] after a whole number. *)
Definition layout (ds : string) (decpt : Z) : string :=
  let len := Z.of_nat (String.length ds) in
  if (decpt <=? -4) || (16 <? decpt) then
    let e := decpt - 1 in
    let mantissa :=
      match ds with
      | String c EmptyString => ds
      | String c rest => String c (String "." rest)
      | EmptyString => ds
      end in
    let sign := if e <? 0 then "-" else "+" in
    let pad := if Z.abs e <? 10 then "0" else "" in
    (mantissa ++ "e" ++ sign ++ pad ++ str_of_Z (Z.abs e))%string
  else if decpt <=? 0 then
    ("0." ++ zeros (Z.to_nat (- decpt)) ++ ds)%string
  else if len <=? decpt then
    (ds ++ zeros (Z.to_nat (decpt - len)) ++ ".0")%string
  else
    (String.substring 0 (Z.to_nat decpt) ds ++ "." ++
     String.substring (Z.to_nat decpt) (Z.to_nat (len - decpt)) ds)%string.

(** [str(x)], which is [repr(x)]. *)
Definition str (x : float) : string :=
  match x with
  | S754_nan => "nan"
  | S754_infinity s => if s then "-inf" else "inf"
  | S754_zero s => if s then "-0.0" else "0.0"
  | S754_finite s m e =>
      let p := match e with Zneg _ => Zpos m | _ => Zpos m * 2 ^ e end in
      let q := match e with Zneg k => 2 ^ Zpos k | _ => 1 end in
      let d := decimal_exponent p q in
      let '(c, k) := shortest (S754_finite false m e) p q d 1 16 in
      let '(c', k') := strip_zeros c k 400 in
      let ds := str_of_Z c' in
      ((if s then "-" else "") ++ layout ds (Z.of_nat (String.length ds) + k'))%string
  end.

(** [f"{x:.1f}"] *)
Definition format_1f (x : float) : string :=
  match x with
  | S754_nan => "nan"
  | S754_infinity s => if s then "-inf" else "inf"
  | S754_zero s => if s then "-0.0" else "0.0"
  | S754_finite s m e =>
      let t := tenths m e in
      ((if s then "-" else "") ++ str_of_Z (t / 10) ++ "." ++ str_of_Z (t mod 10))%string
  end.

End Float.

(** ** Pure helpers *)

Module Helpers.
Import Py.

Definition calculate_win_rate (wins total_matches : json) : res string :=
  if negb (truthy total_matches) || negb (truthy wins) then Ok "0"
  else
    m ← int total_matches;
    if m =? 0 then Ok "0"
    else
      w ← int wins;
      m' ← int total_matches;
      q ← Float.truediv w m';
      Ok (Float.str (Float.round_1 (Float.mul q (Float.of_int 100)))).

End Helpers.

(** ** The announcement store and its file *)

Module Store.
Import Py.

(** Keys are championship identifiers as [championship.get('championship_id')]
    returns them ([None] when the item has none); values are message
    identifiers, [None] for entries upgraded from the legacy set. *)
Abbreviation key := (option string).
Abbreviation msgid := (option Z).
Abbreviation store := (gmap key msgid).

(** What [pickle.load] can hand back. *)
Inductive pickled : Type :=
  | PDict (d : store)            (* a dict: the current format *)
  | PKeys (ks : list key)        (* a set (or other iterable) of identifiers *)
  | POther.                      (* anything else: iterating it raises TypeError *)

(** The file [announced_tournaments.pkl] as the loader meets it. *)
Inductive file : Type :=
  | Inaccessible                 (* Path(...).exists() raises: the stat fails, and not
                                    because the file or a directory is not there *)
  | Missing                      (* Path(...).exists() is False *)
  | Unreadable (e : exn)         (* open(...) raises *)
  | Undecodable (e : exn)        (* pickle.load raises *)
  | Holds (data : pickled).

(** [pathlib.Path(...).exists()]: an [OSError] of the stat other than
    "not found" is raised again. *)
Definition exists_ (f : file) : res bool :=
  match f with
  | Inaccessible => Raise OSError
  | Missing => Ok false
  | Unreadable _ | Undecodable _ | Holds _ => Ok true
  end.

(** [open] followed by [pickle.load]. *)
Definition open_and_load (f : file) : res pickled :=
  match f with
  | Inaccessible | Missing => Raise OSError
  | Unreadable e => Raise e
  | Undecodable e => Raise e
  | Holds data => Ok data
  end.

(** [data if isinstance(data, dict) else {k: None for k in data}] *)
Definition as_store (data : pickled) : res store :=
  match data with
  | PDict d => Ok d
  | PKeys ks => Ok (list_to_map ((fun k => (k, None)) <$> ks))
  | POther => Raise TypeError
  end.

(** The existence test stands before the [try]. *)
Definition load_announced_tournaments (f : file) : res store :=
  present ← exists_ f;
  if (present : bool) then
    catch (data ← open_and_load f; as_store data)
          (fun _ => Ok ∅)
  else Ok ∅.

(** How [open(..., 'wb')] followed by [pickle.dump] ends. *)
Inductive write_outcome : Type :=
  | Written                      (* the file now holds the dictionary *)
  | OpenRaises                   (* open raises: the file is as it was *)
  | DumpRaises (e : exn).        (* open has emptied the file and the dump is cut
                                    short: what is left makes pickle.load raise e *)

(** [save_announced_tournaments()]: the result of the call and the file
    it leaves. *)
Definition save_announced_tournaments (outcome : write_outcome)
    (announced_tournaments : store) (f : file) : res unit * file :=
  match outcome with
  | Written => (Ok tt, Holds (PDict announced_tournaments))
  | OpenRaises => (Raise OSError, f)
  | DumpRaises e => (Raise OSError, Undecodable e)
  end.


End Store.

(** Wall-clock and loop-clock readings, counted in microseconds (the
    resolution of [datetime.now()]); the program holds them as floats of
    seconds. *)
Abbreviation time := Z.

(** ** The FACEIT API client *)

Module Api.
Import Py.

Inductive session : Type := NoSession | ClosedSession | OpenSession.

Record client : Type := {
  client_session : session;
  last_api_call : time;
}.

(** [self.rate_limit_delay = 1.5] seconds. *)
Definition rate_limit_delay : time := 1500000.

(** A response entered by [async with self.session.request(...)]:
    its status and what [await response.json()] gives. *)
Record response : Type := {
  status : Z;
  json_body : res json;
}.

Inductive log : Type :=
  | LogSessionCreated      (* "aiohttp session is closed or missing. ..." *)
  | LogRateLimit           (* "FACEIT API Rate Limit exceeded! ..." *)
  | LogNetworkError        (* "Network error during API call: ..." *)
  | LogJSONDecodeError     (* "JSON decode error: ..." *)
  | LogUnexpected.         (* "An unexpected error occurred during API call: ..." *)

(** The lines that report a failed call. *)
Definition reports_failure (l : log) : Prop :=
  match l with
  | LogSessionCreated => False
  | _ => True
  end.

Section Client.

(** The arguments [method, url, params, data] of one call. *)
Variable request : Type.

Inductive event : Type :=
  | Print (l : log)
  | Sleep (d : time)
  | Http (r : request).

(** The surroundings of one call: the loop clock before the optional
    sleep and after it, and the provider's answer. *)
Record env : Type := {
  time_before : time;
  time_after : time;
  http : request -> res response;
}.

(** [response.raise_for_status()] *)
Definition raise_for_status (r : response) : res unit :=
  if 400 <=? status r then Raise ClientError else Ok tt.

(** The body of the [try]. *)
Definition attempt (E : env) (req : request) : res json * list event :=
  match http E req with
  | Raise e => (Raise e, [])
  | Ok r =>
      if status r =? 429 then (Ok JNull, [Print LogRateLimit])
      else (_ ← raise_for_status r; json_body r, [])
  end.

(** The three [except] clauses: the value returned and the line
    printed. *)
Definition recover (r : res json) : res json * list event :=
  match r with
  | Ok v => (Ok v, [])
  | Raise ClientError => (Ok JNull, [Print LogNetworkError])
  | Raise JSONDecodeError => (Ok JNull, [Print LogJSONDecodeError])
  | Raise _ => (Ok JNull, [Print LogUnexpected])
  end.

(** The [try] statement as a whole. *)
Definition guarded (E : env) (req : request) : res json * list event :=
  let '(r, ev) := attempt E req in
  let '(r', ev') := recover r in
  (r', ev ++ ev').

(** [None] is [JNull]: a caller cannot tell a missing answer from a JSON
    [null] body. *)
Definition _rate_limited_request (E : env) (c : client) (req : request)
  : res json * client * list event :=
  let '(sess, ev1) :=
    match client_session c with
    | NoSession | ClosedSession => (OpenSession, [Print LogSessionCreated])
    | OpenSession => (OpenSession, [])
    end in
  let time_since_last_call := time_before E - last_api_call c in
  let ev2 :=
    if time_since_last_call <? rate_limit_delay
    then [Sleep (rate_limit_delay - time_since_last_call)] else [] in
  let c' := {| client_session := sess; last_api_call := time_after E |} in
  let '(r, ev3) := guarded E req in
  (r, c', ev1 ++ ev2 ++ Http req :: ev3).

(** The provider throttled the call, the transport failed (the request
    raised, or the status is an HTTP error), or the payload could not be
    decoded. *)
Inductive failure (E : env) (req : request) : Prop :=
  | Throttled r : http E req = Ok r -> status r = 429 -> failure E req
  | RequestRaised e : http E req = Raise e -> failure E req
  | HttpError r : http E req = Ok r -> 400 <= status r -> failure E req
  | BodyRaised r e : http E req = Ok r -> json_body r = Raise e -> failure E req.

End Client.

Arguments Print {request} l.
Arguments Sleep {request} d.
Arguments Http {request} r.
Arguments time_before {request} e.
Arguments time_after {request} e.
Arguments http {request} e r.
Arguments attempt {request} E req.
Arguments recover {request} r.
Arguments guarded {request} E req.
Arguments _rate_limited_request {request} E c req.
Arguments failure {request} E req.

End Api.

(** ** Statements with effects

    A handler threads the dictionaries it owns (and the trace of what it
    did to the outside) through its statements; a statement either
    completes or raises, and what it changed before raising stays
    changed. *)

Module Eff.
Import Py.

Definition M (S A : Type) : Type := S -> res A * S.

#[global] Instance M_ret {S} : MRet (M S) := fun A a s => (Ok a, s).

#[global] Instance M_bind {S} : MBind (M S) := fun A B k m s =>
  match m s with
  | (Ok a, s') => k a s'
  | (Raise e, s') => (Raise e, s')
  end.

Definition raise {S A} (e : exn) : M S A := fun s => (Raise e, s).

Definition lift {S A} (r : res A) : M S A := fun s => (r, s).

Definition modify {S} (f : S -> S) : M S unit := fun s => (Ok tt, f s).

Definition gets {S A} (f : S -> A) : M S A := fun s => (Ok (f s), s).

(** [try: body  except ... :] with the handler chosen by the exception. *)
Definition try_except {S A} (body : M S A) (handler : exn -> M S A) : M S A :=
  fun s =>
    match body s with
    | (Ok a, s') => (Ok a, s')
    | (Raise e, s') => handler e s'
    end.

(** [for x in xs: body(x)] *)
Fixpoint for_each {S A} (body : A -> M S unit) (xs : list A) : M S unit :=
  match xs with
  | [] => mret tt
  | x :: rest => _ ← body x; for_each body rest
  end.

Definition skip {S} : M S unit := mret tt.

End Eff.

(** ** The tournament synchronisation loop *)

Module Sync.
Import Py Store Eff.

(** One item of the organizer's listing: the two fields the loop reads
    ([championship_id], [status]), and the other fields of the item, as
    decoded, which the two renderers read. *)
Record championship : Type := {
  championship_id : key;
  status_field : option string;
  details : list (string * json);
}.

(** [championship.get('status', 'not_started')] *)
Definition status (c : championship) : string :=
  default "not_started" (status_field c).

(** [championship.get(k, dflt)] for one of the other fields. *)
Definition field (c : championship) (k : string) (dflt : json) : json :=
  default dflt (assoc k (details c)).

(** The answer of [get_championships]: [None] when the request primitive
    gave up; otherwise an object that may or may not have ['items']. *)
Record championships_data : Type := {
  items : option (list championship);
}.

(** Embeds, kept symbolic: which renderer built them, for which item,
    and the rows of the leaderboard (name and points of each team, in
    order).  Their texts are not computed; what the renderers below keep
    of the source is every expression that can raise, in the order of
    evaluation. *)
Inductive final_standings : Type :=
  | Leaderboard (rows : list (json * json))   (* the field "Final Standings" *)
  | NoStandingsField                          (* [leaderboard_text] is empty *)
  | NoStandingsAvailable.                     (* "No standings available." *)

Inductive embed : Type :=
  | Announcement (c : championship)
  | FinalResults (c : championship) (s : final_standings).

Inductive log : Type :=
  | LogFetchFailed                     (* "Failed to fetch championships data." *)
  | LogFinished (k : key)              (* "Updated championship ... to a finished state." *)
  | LogMessageNotFound (k : key)       (* "Message for championship ... not found. ..." *)
  | LogEditForbidden                   (* "Missing permissions to edit messages ..." *)
  | LogUpdateError                     (* "An unexpected error occurred while updating message" *)
  | LogAnnounced (c : championship)    (* "Announced new championship: ..." *)
  | LogSendForbidden                   (* "Missing permissions to send messages ..." *)
  | LogAnnounceError                   (* "An unexpected error occurred while announcing" *)
  | LogCycleError.                     (* "An error occurred in check_championships" *)

(** What a cycle does to the outside, in order.  Calls made while
    handling a listing item carry that item. *)
Inductive event : Type :=
  | GetChampionships
  | FetchMessage (c : championship) (m : msgid)
  | GetStandings (c : championship)
  | EditMessage (c : championship) (m : msgid) (e : embed)
  | SendMessage (c : championship) (e : embed)
  | Save (s : store)
  | Print (l : log).

(** The collaborators during one cycle. *)
Record env : Type := {
  get_championships : option championships_data;
  get_channel : bool;                     (* bot.get_channel(...) is not None *)
  fetch_message : msgid -> res unit;
  get_championship_standings : key -> json;   (* what the request gave; [JNull] for [None] *)
  edit : msgid -> embed -> res unit;
  send : embed -> res Z;                  (* the new message's id *)
  fromtimestamp : Float.float -> res unit;    (* datetime.fromtimestamp(t, UTC), which
                                                 raises out of the range of dates *)
  write : store -> write_outcome;         (* how writing this dictionary ends *)
}.

(** [x.replace(...)], [x.upper()]: methods of a text only. *)
Definition as_text (x : json) : res string :=
  match x with
  | JStr s => Ok s
  | _ => Raise AttributeError
  end.

(** [timestamp / 1000] *)
Definition seconds (timestamp : json) : res Float.float :=
  match timestamp with
  | JNum n => Float.truediv n 1000
  | JBool b => Float.truediv (if b then 1 else 0) 1000
  | JNull | JStr _ | JArr _ | JObj _ => Raise TypeError
  end.

Section Renderers.

Variable E : env.

(** [convert_timestamp_to_datetime(timestamp)]: whether there is a date. *)
Definition convert_timestamp_to_datetime (timestamp : json) : res bool :=
  if negb (truthy timestamp) || eq timestamp (JNum 0) then Ok false
  else
    t ← seconds timestamp;
    _ ← fromtimestamp E t;
    Ok true.

Definition create_championship_embed (c : championship) : res embed :=
  (* url=format_championship_url(..., championship.get('name', 'N/A')) *)
  _ ← as_text (field c "name" (JStr "N/A"));
  prize_pool ← get (field c "prize_pool" (JObj [])) "prize" (JStr "N/A");
  prizepool_currency ← get (field c "prize_pool" (JObj [])) "currency" (JStr "");
  start_time_utc ← convert_timestamp_to_datetime (field c "starts_at" (JNum 0));
  end_time_utc ← convert_timestamp_to_datetime (field c "ends_at" (JNum 0));
  organizer_name ← get (field c "organizer" (JObj [])) "name" (JStr "N/A");
  (* championship.get('region', 'N/A').upper() *)
  region ← as_text (field c "region" (JStr "N/A"));
  Ok (Announcement c).

End Renderers.

(** One turn of [for i, team in enumerate(standings, 1)]. *)
Definition leaderboard_row (team : json) : res (json * json) :=
  team_name ← get team "leaderboard_name" (JStr "N/A");
  points ← get team "points" (JStr "N/A");
  Ok (team_name, points).

Fixpoint leaderboard_rows (teams : list json) : res (list (json * json)) :=
  match teams with
  | [] => Ok []
  | team :: rest =>
      r ← leaderboard_row team;
      rs ← leaderboard_rows rest;
      Ok (r :: rs)
  end.

Definition create_finished_embed (c : championship) (standings : json) : res embed :=
  (* url=format_championship_url(..., championship.get('name', 'N/A')) *)
  _ ← as_text (field c "name" (JStr "N/A"));
  organizer_name ← get (field c "organizer" (JObj [])) "name" (JStr "N/A");
  if truthy standings then
    teams ← iter standings;
    rows ← leaderboard_rows teams;
    Ok (FinalResults c (match rows with [] => NoStandingsField | _ => Leaderboard rows end))
  else Ok (FinalResults c NoStandingsAvailable).

Record state : Type := {
  announced_tournaments : store;
  disk : file;
  trace : list event;
}.

Definition emit (ev : event) : M state unit :=
  modify (fun s => {| announced_tournaments := announced_tournaments s;
                      disk := disk s;
                      trace := trace s ++ [ev] |}).

Definition print (l : log) : M state unit := emit (Print l).

(** [announced_tournaments.pop(k)] *)
Definition pop (k : key) : M state unit :=
  fun s =>
    match announced_tournaments s !! k with
    | Some _ =>
        (Ok tt, {| announced_tournaments := delete k (announced_tournaments s);
                   disk := disk s; trace := trace s |})
    | None => (Raise KeyError, s)
    end.

(** [announced_tournaments[k] = m] *)
Definition set_item (k : key) (m : msgid) : M state unit :=
  modify (fun s => {| announced_tournaments := <[k := m]> (announced_tournaments s);
                      disk := disk s; trace := trace s |}).

Definition is_final (status : string) : bool :=
  String.eqb status "finished" || String.eqb status "cancelled".

Definition is_live (status : string) : bool :=
  String.eqb status "upcoming" || String.eqb status "in_progress".

Section Cycle.

Variable E : env.

(** [save_announced_tournaments()] on the dictionary in memory. *)
Definition save : M state unit :=
  fun s =>
    let '(r, f) := save_announced_tournaments (write E (announced_tournaments s))
                     (announced_tournaments s) (disk s) in
    (r, {| announced_tournaments := announced_tournaments s;
           disk := f;
           trace := trace s ++ [Save (announced_tournaments s)] |}).

(** The body of the [for] loop. *)
Definition process (c : championship) : M state unit :=
  let championship_id := championship_id c in
  let status := status c in
  known ← gets (fun s => announced_tournaments s !! championship_id);
  match known with
  | Some message_id =>
      if get_channel E then
        try_except
          (_ ← emit (FetchMessage c message_id);
           _ ← lift (fetch_message E message_id);
           if is_final status then
             _ ← emit (GetStandings c);
             let standings := get_championship_standings E championship_id in
             final_embed ← lift (create_finished_embed c standings);
             _ ← emit (EditMessage c message_id final_embed);
             _ ← lift (edit E message_id final_embed);
             _ ← print (LogFinished championship_id);
             _ ← pop championship_id;
             save
           else skip)
          (fun e =>
             match e with
             | NotFound =>
                 _ ← print (LogMessageNotFound championship_id);
                 _ ← pop championship_id;
                 save
             | Forbidden => print LogEditForbidden
             | _ => print LogUpdateError
             end)
      else skip
  | None =>
      if is_live status then
        if get_channel E then
          embed ← lift (create_championship_embed E c);
          try_except
            (_ ← emit (SendMessage c embed);
             message_id ← lift (send E embed);
             _ ← set_item championship_id (Some message_id);
             _ ← save;
             print (LogAnnounced c))
            (fun e =>
               match e with
               | Forbidden => print LogSendForbidden
               | _ => print LogAnnounceError
               end)
        else skip
      else skip
  end.

Definition check_championships : M state unit :=
  try_except
    (_ ← emit GetChampionships;
     match get_championships E with
     | None => print LogFetchFailed
     | Some data =>
         match items data with
         | None => print LogFetchFailed
         | Some listing => for_each process listing
         end
     end)
    (fun _ => print LogCycleError).

End Cycle.

(** The loop over the items of a listing; it ends at the first item
    whose handling raises. *)
Definition loop (E : env) (listing : list championship) : M state unit :=
  for_each (process E) listing.

(** The state a cycle ends in, given how the loop ended: an exception
    that left the loop is met by the outermost handler, which prints its
    line. *)
Definition closing (r : res unit * state) : state :=
  match r.1 with
  | Ok _ => r.2
  | Raise _ => (print LogCycleError r.2).2
  end.

(** The file holds the dictionary in memory. *)
Definition persisted (s : state) : Prop :=
  disk s = Holds (PDict (announced_tournaments s)).

(** The call was made while handling the tournament with key [k]. *)
Definition concerns (k : key) (ev : event) : Prop :=
  match ev with
  | FetchMessage c _ | GetStandings c
  | EditMessage c _ _ | SendMessage c _ => championship_id c = k
  | _ => False
  end.

(** The state in which the loop starts: the listing has been asked for. *)
Definition started (announced : store) (f : file) : state :=
  {| announced_tournaments := announced; disk := f; trace := [GetChampionships] |}.

(** One cycle from a store in memory and its file; the trace starts
    empty. *)
Definition run_cycle (E : env) (announced : store) (f : file) : state :=
  snd (check_championships E {| announced_tournaments := announced; disk := f; trace := [] |}).

(** The cycle went through the listing: the line of the outermost
    handler was not printed. *)
Definition ran_through (s : state) : Prop := Print LogCycleError ∉ trace s.

(** Every write of the store file succeeds. *)
Definition writes_succeed (E : env) : Prop := forall s, write E s = Written.

End Sync.

(** ** The [/stats] command *)

Module Stats.
Import Py Eff.

(** [RATE_LIMIT_COOLDOWN = 5] seconds. *)
Definition RATE_LIMIT_COOLDOWN : time := 5000000.

(** Calls to the FACEIT client; each goes through
    [Api._rate_limited_request] and so returns a value ([JNull] for
    [None]) without raising. *)
Inductive request : Type :=
  | PlayerByNickname (username : string)   (* GET /players?nickname= *)
  | PlayerById (player_id : json)          (* GET /players/{id} *)
  | PlayerStats (player_id : json)         (* GET /players/{id}/stats/cs2 *)
  | MatchHistory (player_id : json) (limit : Z).

Inductive icon : Type :=
  | Green      (* the win glyph *)
  | Red.       (* the loss glyph *)

Inductive recent_matches : Type :=
  | Icons (icons : list icon)       (* " ".join(recent_result_icons) *)
  | NoRecentMatches.                (* "No recent matches found." *)

(** The embed of a successful answer, holding the values its text is
    formatted from. *)
Record stats_embed : Type := {
  embed_username : string;
  embed_url : string;               (* faceit_url with {lang} replaced *)
  embed_level : json;
  embed_level_image : option Z;     (* which entry of FACEIT_LEVELS, if any *)
  embed_wins : json;
  embed_matches : json;
  embed_win_rate : string;
  embed_kd_ratio : json;
  embed_headshots : json;
  embed_recent : recent_matches;
}.

Inductive message : Type :=
  | CooldownNotice (remaining : time)     (* "Cooldown: Please wait N.Ns." *)
  | PlayerNotFound                        (* "Player not found. ..." *)
  | NoCs2Stats (username : string)        (* "... does not have any CS2 stats ..." *)
  | StatsEmbed (e : stats_embed).

Inductive event : Type :=
  | ApiCall (r : request)
  | Respond (m : message) (ephemeral : bool)
  | Defer
  | FollowupSend (m : message) (ephemeral : bool).

Record env : Type := {
  now : time;                             (* datetime.now().timestamp() *)
  api : request -> json;
  respond : message -> res unit;          (* ctx.respond *)
  defer : res unit;                       (* ctx.defer *)
  followup_send : message -> res unit;    (* ctx.followup.send *)
}.

Record state : Type := {
  user_cooldowns : gmap positive time;    (* defaultdict(float), by user id *)
  trace : list event;
}.

(** The value [user_cooldowns[uid]] reads. *)
Definition cooldown_of (cooldowns : gmap positive time) (uid : positive) : time :=
  default 0 (cooldowns !! uid).

Definition emit (ev : event) : M state unit :=
  modify (fun s => {| user_cooldowns := user_cooldowns s; trace := trace s ++ [ev] |}).

(** [user_cooldowns[uid]]: a missing key is inserted with [float()]. *)
Definition read_cooldown (uid : positive) : M state time :=
  fun s =>
    match user_cooldowns s !! uid with
    | Some t => (Ok t, s)
    | None => (Ok 0, {| user_cooldowns := <[uid := 0]> (user_cooldowns s); trace := trace s |})
    end.

(** The figure the notice shows, [f"{remaining:.1f}"]: the program
    holds the remaining time as a double of seconds, here the double
    nearest to the count of microseconds. *)
Definition shown (remaining : time) : string :=
  Float.format_1f (Float.nearest remaining 1000000).

(** [user_cooldowns[uid] = t] *)
Definition write_cooldown (uid : positive) (t : time) : M state unit :=
  modify (fun s => {| user_cooldowns := <[uid := t]> (user_cooldowns s); trace := trace s |}).

(** [FACEIT_LEVELS.get(level)]: the table has the keys 1 to 10. *)
Definition level_image (level : json) : res (option Z) :=
  if hashable level then
    Ok (match as_number level with
        | Some n => if (1 <=? n) && (n <=? 10) then Some n else None
        | None => None
        end)
  else Raise TypeError.

(** [x.replace('{lang}', 'en')], a method of strings only. *)
Definition replace_lang (x : json) : res string :=
  match x with
  | JStr u => Ok (replace "{lang}" "en" u)
  | _ => Raise AttributeError
  end.

(** [player_stats is None or 'lifetime' not in player_stats] *)
Definition lacks_lifetime (player_stats : json) : res bool :=
  match player_stats with
  | JNull => Ok true
  | _ => present ← contains "lifetime" player_stats; Ok (negb present)
  end.

(** The body of [for match in recent_results]: the glyph the match
    contributes, if any. *)
Definition match_icon (match_ : json) : res (option icon) :=
  teams ← get match_ "teams" (JObj []);
  faction1 ← get teams "faction1" (JObj []);
  players ← get faction1 "players" (JArr []);
  first ← item0 players;
  player_team_id ← get first "player_id" JNull;
  results ← get match_ "results" (JObj []);
  winning_team_id ← get results "winner_id" JNull;
  if truthy winning_team_id && truthy player_team_id then
    teams' ← get match_ "teams" (JObj []);
    faction1' ← get teams' "faction1" (JObj []);
    faction_id ← get faction1' "faction_id" JNull;
    Ok (Some (if eq winning_team_id faction_id then Green else Red))
  else Ok None.

(** The loop, appending to [recent_result_icons]. *)
Fixpoint recent_result_icons (recent_results : list json) (acc : list icon) : res (list icon) :=
  match recent_results with
  | [] => Ok acc
  | match_ :: rest =>
      glyph ← match_icon match_;
      recent_result_icons rest (acc ++ option_list glyph)
  end.

Section Command.

Variable E : env.

Definition call (r : request) : M state json :=
  _ ← emit (ApiCall r); mret (api E r).

(** [faceit_api.get_player_data(username=username)] *)
Definition get_player_data (username : string) : M state json :=
  if truthy (JStr username) then call (PlayerByNickname username) else mret JNull.

Definition get_player_stats (player_id : json) : M state json :=
  call (PlayerStats player_id).

Definition get_match_history (player_id : json) : M state json :=
  call (MatchHistory player_id 5).

Definition ctx_respond (m : message) (ephemeral : bool) : M state unit :=
  _ ← emit (Respond m ephemeral); lift (respond E m).

Definition ctx_defer : M state unit :=
  _ ← emit Defer; lift (defer E).

Definition ctx_followup_send (m : message) (ephemeral : bool) : M state unit :=
  _ ← emit (FollowupSend m ephemeral); lift (followup_send E m).

Definition stats (author : positive) (username : string) : M state unit :=
  let current_time := now E in
  last ← read_cooldown author;
  if current_time - last <? RATE_LIMIT_COOLDOWN then
    last' ← read_cooldown author;
    ctx_respond (CooldownNotice (RATE_LIMIT_COOLDOWN - (current_time - last'))) true
  else
    _ ← ctx_defer;
    player_data ← get_player_data username;
    if negb (truthy player_data) then
      ctx_followup_send PlayerNotFound true
    else
      player_id ← lift (get player_data "player_id" JNull);
      player_stats ← get_player_stats player_id;
      player_history ← get_match_history player_id;
      no_lifetime ← lift (lacks_lifetime player_stats);
      if (no_lifetime : bool) then
        ctx_followup_send (NoCs2Stats username) true
      else
        lifetime_stats ← lift (get player_stats "lifetime" (JObj []));
        wins ← lift (get lifetime_stats "Wins" (JStr "0"));
        matches ← lift (get lifetime_stats "Matches" (JStr "0"));
        kd_ratio ← lift (get lifetime_stats "Average K/D Ratio" (JStr "0.0"));
        headshot_percentage ← lift (get lifetime_stats "Average Headshots %" (JStr "0%"));
        win_rate ← lift (Helpers.calculate_win_rate wins matches);
        recent_results ← lift (history_items ← get player_history "items" (JArr []);
                               iter history_items);
        icons ← lift (recent_result_icons recent_results []);
        url ← lift (faceit_url ← get player_data "faceit_url" JNull;
                    replace_lang faceit_url);
        level ← lift (games ← get player_data "games" (JObj []);
                      cs2 ← get games "cs2" (JObj []);
                      get cs2 "skill_level" (JNum 0));
        image ← lift (level_image level);
        let embed := {|
          embed_username := username;
          embed_url := url;
          embed_level := level;
          embed_level_image := image;
          embed_wins := wins;
          embed_matches := matches;
          embed_win_rate := win_rate;
          embed_kd_ratio := kd_ratio;
          embed_headshots := headshot_percentage;
          embed_recent := match icons with [] => NoRecentMatches | _ => Icons icons end;
        |} in
        _ ← ctx_followup_send (StatsEmbed embed) false;
        write_cooldown author current_time.

End Command.

(** One invocation of the command; the trace starts empty. *)
Definition run (E : env) (cooldowns : gmap positive time) (author : positive) (username : string)
  : res unit * state :=
  stats E author username {| user_cooldowns := cooldowns; trace := [] |}.

End Stats.

(** ** The glyph rule as the specification words it

    "Recent-match win/loss glyphs are derived by comparing the winning
    faction identifier against the requesting player's own faction
    identifier for each historical match."  This is the rule of the
    specification, written down independently of [Stats.match_icon], to
    compare the two. *)

Module StatsSpec.
Import Py.

(** A field of an object, if there. *)
Definition field (x : json) (k : string) : option json :=
  match x with
  | JObj fields => assoc k fields
  | _ => None
  end.

(** Is the player listed among the players of this faction? *)
Definition lists_player (faction player_id : json) : bool :=
  match field faction "players" with
  | Some (JArr players) =>
      existsb (fun p => match field p "player_id" with
                        | Some id => eq id player_id
                        | None => false
                        end) players
  | _ => false
  end.

(** The identifier of the faction the player was in. *)
Definition own_faction_id (player_id match_ : json) : option json :=
  teams ← field match_ "teams";
  match field teams "faction1", field teams "faction2" with
  | Some f1, Some f2 =>
      if lists_player f1 player_id then field f1 "faction_id"
      else if lists_player f2 player_id then field f2 "faction_id"
      else None
  | Some f1, None => if lists_player f1 player_id then field f1 "faction_id" else None
  | None, Some f2 => if lists_player f2 player_id then field f2 "faction_id" else None
  | None, None => None
  end.

Definition winner_id (match_ : json) : option json :=
  results ← field match_ "results"; field results "winner_id".

(** The glyph the specification asks for: a win exactly when the
    winner is the player's own faction; none when either datum is
    missing. *)
Definition expected_icon (player_id match_ : json) : option Stats.icon :=
  winner ← winner_id match_;
  own ← own_faction_id player_id match_;
  Some (if eq winner own then Stats.Green else Stats.Red).

End StatsSpec.

(** ** The OAuth linking flow *)

Module OAuth.
Import Py Eff.

(** A value of [verification_states]: [{"state": ..., "timestamp": ...}]. *)
Record entry : Type := {
  entry_state : string;
  entry_timestamp : time;
}.

(** [verification_states], a dict keyed by Discord user id (a
    snowflake, hence positive), as the list of its items in insertion
    order (the order [.items()] runs through). *)
Abbreviation states := (list (positive * entry)).

Definition keys (d : states) : list positive := fst <$> d.

Fixpoint lookup_state (uid : positive) (d : states) : option entry :=
  match d with
  | [] => None
  | (k, v) :: rest => if Pos.eqb k uid then Some v else lookup_state uid rest
  end.

(** [d[uid] = v]: an existing key keeps its place. *)
Fixpoint set_state (uid : positive) (v : entry) (d : states) : states :=
  match d with
  | [] => [(uid, v)]
  | (k, w) :: rest =>
      if Pos.eqb k uid then (k, v) :: rest else (k, w) :: set_state uid v rest
  end.

(** [d.pop(uid, None)] *)
Definition pop_state (uid : positive) (d : states) : states :=
  filter (fun kv => fst kv ≠ uid) d.

(** The [for key, value in verification_states.items()] search: the
    first key whose token equals the presented one. *)
Fixpoint find_state (d : states) (state : option string) : option positive :=
  match d with
  | [] => None
  | (key, value) :: rest =>
      if decide (Some (entry_state value) = state) then Some key
      else find_state rest state
  end.

(** [GET /oauth-callback?code=...&state=...]; a missing argument is
    [None]. *)
Record request : Type := {
  code : option string;
  state : option string;
}.

Inductive body : Type :=
  | VerificationFailed            (* "Verification failed. Please try again." *)
  | VerificationSuccessful (nickname : json)
  | VerificationError             (* "An error occurred during verification. ..." *)
  | UnexpectedError.              (* "An unexpected error occurred. ..." *)

(** A Flask return value: the text, and the status (200 when the
    handler returns the text alone). *)
Record response : Type := {
  response_body : body;
  response_status : Z;
}.

Inductive log : Type :=
  | LogExchangeError       (* "Error during OAuth token exchange or profile fetch" *)
  | LogUnexpected.         (* "An unexpected error occurred during verification" *)

Inductive event : Type :=
  | PostToken (code : string)
  | GetProfile (access_token : json)
  | UpdateDiscordUser (discord_id : positive) (faceit_nickname skill_level : json)
  | Print (l : log).

(** The provider during one callback: [requests.post] to the token
    endpoint and [requests.get] of the profile, each followed by
    [raise_for_status()] and [.json()]. *)
Record env : Type := {
  post_token : string -> res json;
  get_profile : json -> res json;
}.

Record world : Type := {
  verification_states : states;
  trace : list event;
}.

Definition emit (ev : event) : M world unit :=
  modify (fun w => {| verification_states := verification_states w;
                      trace := trace w ++ [ev] |}).

Definition pop (uid : positive) : M world unit :=
  modify (fun w => {| verification_states := pop_state uid (verification_states w);
                      trace := trace w |}).

(** [not x] for the optional values of the handler. *)
Definition not_id (discord_id : option positive) : bool :=
  match discord_id with
  | None => true
  | Some _ => false
  end.

Definition not_code (code : option string) : bool :=
  match code with
  | None => true
  | Some c => String.eqb c ""
  end.

Section Callback.

Variable E : env.

Definition oauth_callback (req : request) : M world response :=
  let code := code req in
  let state := state req in
  discord_id ← gets (fun w => find_state (verification_states w) state);
  if not_id discord_id || not_code code then
    mret {| response_body := VerificationFailed; response_status := 400 |}
  else
    match discord_id, code with
    | Some discord_id', Some code' =>
        _ ← pop discord_id';
        try_except
          (_ ← emit (PostToken code');
           tokens ← lift (post_token E code');
           access_token ← lift (item tokens "access_token");
           _ ← emit (GetProfile access_token);
           player_data ← lift (get_profile E access_token);
           faceit_nickname ← lift (get player_data "nickname" JNull);
           skill_level ← lift (games ← get player_data "games" (JObj []);
                               cs2 ← get games "cs2" (JObj []);
                               get cs2 "skill_level" (JNum 0));
           _ ← emit (UpdateDiscordUser discord_id' faceit_nickname skill_level);
           mret {| response_body := VerificationSuccessful faceit_nickname;
                   response_status := 200 |})
          (fun e =>
             match e with
             | RequestException =>
                 _ ← emit (Print LogExchangeError);
                 mret {| response_body := VerificationError; response_status := 500 |}
             | _ =>
                 _ ← emit (Print LogUnexpected);
                 mret {| response_body := UnexpectedError; response_status := 500 |}
             end)
    | _, _ =>
        (* not reached: past the guard both values are set *)
        mret {| response_body := VerificationFailed; response_status := 400 |}
    end.

End Callback.

(** [/login]: store a fresh token for the user. *)
Definition login (uid : positive) (token : string) (issued : time) (d : states) : states :=
  set_state uid {| entry_state := token; entry_timestamp := issued |} d.

(** One callback; the trace starts empty. *)
Definition run (E : env) (d : states) (req : request) : res response * world :=
  oauth_callback E req {| verification_states := d; trace := [] |}.

End OAuth.

(** ** Links to a championship page *)

Module Urls.

(** [s.replace(' ', '%20')] *)
Fixpoint replace_spaces (s : string) : string :=
  match s with
  | EmptyString => EmptyString
  | String c rest =>
      if Ascii.eqb c " " then String "%" (String "2" (String "0" (replace_spaces rest)))
      else String c (replace_spaces rest)
  end.

(** Both arguments are text: the identifier and the name of the item. *)
Definition format_championship_url (championship_id championship_name : string) : string :=
  let clean_name := replace_spaces championship_name in
  ("https://www.faceit.com/en/championship/" ++ championship_id ++ "/" ++ clean_name)%string.

(** Does the text contain the character? *)
Fixpoint has_char (c : ascii) (s : string) : bool :=
  match s with
  | EmptyString => false
  | String c' rest => Ascii.eqb c c' || has_char c rest
  end.

(** [s.count(' ')] *)
Fixpoint count_spaces (s : string) : nat :=
  match s with
  | EmptyString => 0%nat
  | String c rest => ((if Ascii.eqb c " " then 1 else 0) + count_spaces rest)%nat
  end.

End Urls.

(** ** Updating the linked Discord user *)

Module Linking.
Import Py Eff.

(** A guild of [bot.guilds] as the handler meets it: whether the user
    is a member of it ([guild.get_member(user.id)]) and, if so, what
    [member.edit(nick=...)] answers. *)
Record guild : Type := {
  guild_id : positive;
  get_member : option (res unit);
}.

Inductive log : Type :=
  | LogUpdated (g : guild)         (* "Updated ...'s nickname to ..." *)
  | LogCannotUpdate (g : guild)    (* "Cannot update nickname for .... Check bot permissions." *)
  | LogError.                      (* "Error updating Discord user ..." *)

Inductive event : Type :=
  | FetchUser (discord_id : positive)
  | EditNick (g : guild) (nick : json)
  | SendDM (nick : json)
  | Print (l : log).

Record env : Type := {
  fetch_user : positive -> res unit;     (* bot.fetch_user; the user object is truthy *)
  guilds : list guild;                   (* bot.guilds *)
  user_send : res unit;                  (* user.send(...) *)
}.

Definition emit (ev : event) : M (list event) unit :=
  modify (fun trace => trace ++ [ev]).

(** The [for guild in bot.guilds] loop: it ends at the first guild that
    has the member, after the attempt to rename them. *)
Fixpoint rename_in_guilds (faceit_nickname : json) (gs : list guild) : M (list event) unit :=
  match gs with
  | [] => skip
  | g :: rest =>
      match get_member g with
      | Some edited =>
          try_except
            (_ ← emit (EditNick g faceit_nickname);
             _ ← lift edited;
             emit (Print (LogUpdated g)))
            (fun e =>
               match e with
               | Forbidden => emit (Print (LogCannotUpdate g))
               | _ => raise e
               end)
          (* break *)
      | None => rename_in_guilds faceit_nickname rest
      end
  end.

Definition update_discord_user (E : env) (discord_id : positive)
    (faceit_nickname skill_level : json) : M (list event) unit :=
  try_except
    (_ ← emit (FetchUser discord_id);
     _ ← lift (fetch_user E discord_id);
     _ ← rename_in_guilds faceit_nickname (guilds E);
     _ ← emit (SendDM faceit_nickname);
     lift (user_send E))
    (fun _ => emit (Print LogError)).

(** One run; the trace starts empty. *)
Definition run (E : env) (discord_id : positive) (faceit_nickname skill_level : json)
  : res unit * list event :=
  update_discord_user E discord_id faceit_nickname skill_level [].

(** The renames attempted, in order. *)
Definition renames (trace : list event) : list guild :=
  omap (fun ev => match ev with EditNick g _ => Some g | _ => None end) trace.

(** The first guild that has the member. *)
Fixpoint first_membership (gs : list guild) : option guild :=
  match gs with
  | [] => None
  | g :: rest => match get_member g with Some _ => Some g | None => first_membership rest end
  end.

End Linking.

(** ** Concrete inputs

    Small environments and payloads on which the statements below are
    exercised. *)

Module Examples.
Import Py.

(** The provider answers every call with 429. *)
Definition throttling_env : Api.env unit :=
  {| Api.time_before := 2000000; Api.time_after := 2000000;
     Api.http := fun _ => Ok {| Api.status := 429; Api.json_body := Ok JNull |} |}.

(** One user (id 42) has started linking and holds the token "tok". *)
Definition one_pending : OAuth.states :=
  [(42%positive, {| OAuth.entry_state := "tok"; OAuth.entry_timestamp := 0 |})].

Definition good_callback : OAuth.request :=
  {| OAuth.code := Some "c0de"; OAuth.state := Some "tok" |}.

Definition callback_without_code : OAuth.request :=
  {| OAuth.code := None; OAuth.state := Some "tok" |}.

Definition unknown_state : OAuth.request :=
  {| OAuth.code := Some "c0de"; OAuth.state := Some "other" |}.

(** Two users hold the same token. *)
Definition shared_token : OAuth.states :=
  [(42%positive, {| OAuth.entry_state := "tok"; OAuth.entry_timestamp := 0 |});
   (43%positive, {| OAuth.entry_state := "tok"; OAuth.entry_timestamp := 1 |})].

(** The token endpoint is unreachable. *)
Definition provider_down : OAuth.env :=
  {| OAuth.post_token := fun _ => Raise RequestException;
     OAuth.get_profile := fun _ => Raise RequestException |}.

(** A tournament of the listing. *)
Definition tournament (id status : string) : Sync.championship :=
  {| Sync.championship_id := Some id;
     Sync.status_field := Some status;
     Sync.details := [("name", JStr "Weekly Cup")] |}.

(** Message 100 announces tournament "t1". *)
Definition one_announced : Store.store := {[ Some "t1" := Some 100 ]}.

(** The collaborators of a cycle that receives [listing]: what fetching
    and editing any message and sending any embed answer. *)
Definition sync_env (listing : list Sync.championship)
    (fetched edited : res unit) (sent : res Z) : Sync.env :=
  {| Sync.get_championships := Some {| Sync.items := Some listing |};
     Sync.get_channel := true;
     Sync.fetch_message := fun _ => fetched;
     Sync.get_championship_standings := fun _ => JNull;
     Sync.edit := fun _ _ => edited;
     Sync.send := fun _ => sent;
     Sync.fromtimestamp := fun _ => Ok tt;
     Sync.write := fun _ => Store.Written |}.

(** A tournament of the listing whose name is [null]. *)
Definition nameless (id status : string) : Sync.championship :=
  {| Sync.championship_id := Some id;
     Sync.status_field := Some status;
     Sync.details := [("name", JNull)] |}.

(** The same collaborators, with a store file that cannot be opened for
    writing. *)
Definition unwritable (E : Sync.env) : Sync.env :=
  {| Sync.get_championships := Sync.get_championships E;
     Sync.get_channel := Sync.get_channel E;
     Sync.fetch_message := Sync.fetch_message E;
     Sync.get_championship_standings := Sync.get_championship_standings E;
     Sync.edit := Sync.edit E;
     Sync.send := Sync.send E;
     Sync.fromtimestamp := Sync.fromtimestamp E;
     Sync.write := fun _ => Store.OpenRaises |}.

(** The same collaborators, with the standings request answered by
    [standings]. *)
Definition with_standings (standings : json) (E : Sync.env) : Sync.env :=
  {| Sync.get_championships := Sync.get_championships E;
     Sync.get_channel := Sync.get_channel E;
     Sync.fetch_message := Sync.fetch_message E;
     Sync.get_championship_standings := fun _ => standings;
     Sync.edit := Sync.edit E;
     Sync.send := Sync.send E;
     Sync.fromtimestamp := Sync.fromtimestamp E;
     Sync.write := Sync.write E |}.

(** The listing request fails. *)
Definition api_down : Sync.env :=
  {| Sync.get_championships := None;
     Sync.get_channel := true;
     Sync.fetch_message := fun _ => Ok tt;
     Sync.get_championship_standings := fun _ => JNull;
     Sync.edit := fun _ _ => Ok tt;
     Sync.send := fun _ => Ok 200;
     Sync.fromtimestamp := fun _ => Ok tt;
     Sync.write := fun _ => Store.Written |}.

(** The listing arrives but the channel is not in the cache. *)
Definition no_channel (listing : list Sync.championship) : Sync.env :=
  {| Sync.get_championships := Some {| Sync.items := Some listing |};
     Sync.get_channel := false;
     Sync.fetch_message := fun _ => Ok tt;
     Sync.get_championship_standings := fun _ => JNull;
     Sync.edit := fun _ _ => Ok tt;
     Sync.send := fun _ => Ok 200;
     Sync.fromtimestamp := fun _ => Ok tt;
     Sync.write := fun _ => Store.Written |}.

(** A player profile, lifetime statistics and the surroundings of a
    [/stats] call that returns a history made of the given matches. *)
Definition profile : json :=
  JObj [("player_id", JStr "me");
        ("faceit_url", JStr "https://www.faceit.com/{lang}/players/me");
        ("games", JObj [("cs2", JObj [("skill_level", JNum 5)])])].

Definition lifetime : json :=
  JObj [("lifetime", JObj [("Wins", JStr "5"); ("Matches", JStr "20")])].

Definition stats_env (clock : time) (history : list json) : Stats.env :=
  {| Stats.now := clock;
     Stats.api := fun r =>
       match r with
       | Stats.PlayerByNickname _ | Stats.PlayerById _ => profile
       | Stats.PlayerStats _ => lifetime
       | Stats.MatchHistory _ _ => JObj [("items", JArr history)]
       end;
     Stats.respond := fun _ => Ok tt;
     Stats.defer := Ok tt;
     Stats.followup_send := fun _ => Ok tt |}.

Definition faction (id player : string) : json :=
  JObj [("faction_id", JStr id); ("players", JArr [JObj [("player_id", JStr player)]])].

(** The player "me" played in faction 2 ("team-b"), which won. *)
Definition won_as_faction2 : json :=
  JObj [("teams", JObj [("faction1", faction "team-a" "rival");
                        ("faction2", faction "team-b" "me")]);
        ("results", JObj [("winner_id", JStr "team-b")])].

(** The player "me" played in faction 1 ("team-a"), which won. *)
Definition won_as_faction1 : json :=
  JObj [("teams", JObj [("faction1", faction "team-a" "me");
                        ("faction2", faction "team-b" "rival")]);
        ("results", JObj [("winner_id", JStr "team-a")])].

(** A history item with a winner but no faction data. *)
Definition no_faction_data : json :=
  JObj [("match_id", JStr "1-abc"); ("results", JObj [("winner_id", JStr "team-a")])].

(** A history item with factions but no winner. *)
Definition no_winner_data : json :=
  JObj [("teams", JObj [("faction1", faction "team-a" "me");
                        ("faction2", faction "team-b" "rival")])].

(** The provider answers 200 with an empty object; the clock read one
    second after the previous call, and again after the sleep. *)
Definition answering_env : Api.env unit :=
  {| Api.time_before := 2000000; Api.time_after := 2500000;
     Api.http := fun _ => Ok {| Api.status := 200; Api.json_body := Ok (JObj []) |} |}.

Definition recent_client : Api.client :=
  {| Api.client_session := Api.OpenSession; Api.last_api_call := 1000000 |}.

(** The provider hands out a token and the profile of "ace". *)
Definition provider_up : OAuth.env :=
  {| OAuth.post_token := fun _ => Ok (JObj [("access_token", JStr "at-1")]);
     OAuth.get_profile := fun _ =>
       Ok (JObj [("nickname", JStr "ace");
                 ("games", JObj [("cs2", JObj [("skill_level", JNum 7)])])]) |}.

(** The player lookup finds nobody. *)
Definition nobody_env (clock : time) : Stats.env :=
  {| Stats.now := clock;
     Stats.api := fun _ => JNull;
     Stats.respond := fun _ => Ok tt;
     Stats.defer := Ok tt;
     Stats.followup_send := fun _ => Ok tt |}.

(** Profile and statistics are found; the history request fails. *)
Definition no_history_env (clock : time) : Stats.env :=
  {| Stats.now := clock;
     Stats.api := fun r =>
       match r with
       | Stats.PlayerByNickname _ | Stats.PlayerById _ => profile
       | Stats.PlayerStats _ => lifetime
       | Stats.MatchHistory _ _ => JNull
       end;
     Stats.respond := fun _ => Ok tt;
     Stats.defer := Ok tt;
     Stats.followup_send := fun _ => Ok tt |}.

(** The user is a member of the second and third guild; the second
    refuses the rename. *)
Definition strict_guild : Linking.guild :=
  {| Linking.guild_id := 2; Linking.get_member := Some (Raise Forbidden) |}.

Definition three_guilds : Linking.env :=
  {| Linking.fetch_user := fun _ => Ok tt;
     Linking.guilds :=
       [{| Linking.guild_id := 1; Linking.get_member := None |};
        strict_guild;
        {| Linking.guild_id := 3; Linking.get_member := Some (Ok tt) |}];
     Linking.user_send := Ok tt |}.

End Examples.

(** The answer of the guard of [oauth_callback]. *)
Definition rejected : OAuth.response :=
  {| OAuth.response_body := OAuth.VerificationFailed; OAuth.response_status := 400 |}.

(** * Properties *)

Import Py.

Set Warnings "-clear-no-such-hyp".

(** Unfolds the plumbing of effectful statements, leaving the state
    transformer they denote. *)
Ltac eff_unfold :=
  unfold mbind, mret, Eff.M_bind, Eff.M_ret, res_bind, res_ret,
    Eff.gets, Eff.modify, Eff.lift, Eff.raise, Eff.try_except, Eff.skip in *.

(** ** Pure helpers *)

(** Rounding to the nearest integer picks a nearest one. *)
Lemma round_half_even_nearest (num den : Z) :
  0 < den ->
  Z.abs (2 * (Float.round_half_even num den * den - num)) <= den.
Proof.
  intros Hden. unfold Float.round_half_even.
  pose proof (Z.div_mod num den ltac:(lia)) as Hdm.
  pose proof (Z.mod_pos_bound num den Hden) as Hb.
  set (q := num / den) in *. set (r := num mod den) in *.
  destruct (2 * r <? den) eqn:H1; [apply Z.ltb_lt in H1; lia|].
  apply Z.ltb_ge in H1.
  destruct (den <? 2 * r) eqn:H2; [apply Z.ltb_lt in H2; lia|].
  apply Z.ltb_ge in H2.
  destruct (Z.even q); lia.
Qed.

(** C9: [calculate_win_rate(0, 0)] is the string "0", and
    [calculate_win_rate(5, 20)] is the string "25.0", the percentage
    rounded to one decimal place. *)
Theorem calculate_win_rate_examples :
  Helpers.calculate_win_rate (JNum 0) (JNum 0) = Ok "0" /\
  Helpers.calculate_win_rate (JNum 5) (JNum 20) = Ok "25.0".
Proof. split; vm_compute; reflexivity. Qed.

(** The quotient is a binary float, rounded as such: 23 wins in 80
    matches are 28.75 percent, held as a double just below it. *)
Lemma win_rate_rounds_the_double :
  Helpers.calculate_win_rate (JNum 23) (JNum 80) = Ok "28.7" /\
  Helpers.calculate_win_rate (JNum 1) (JNum 2000) = Ok "0.1".
Proof. split; vm_compute; reflexivity. Qed.

(** ** Loading the announcement store *)




(** A legacy set of identifiers is upgraded, not dropped. *)
Lemma load_legacy_set (ks : list Store.key) (k : Store.key) :
  k ∈ ks ->
  exists m, Store.load_announced_tournaments (Store.Holds (Store.PKeys ks)) = Ok m /\
            m !! k = Some None.
Proof.
  intros Hk. eexists; split; [reflexivity|].
  apply elem_of_list_to_map_1'.
  - intros y Hy. apply list_elem_of_fmap in Hy as (k' & Heq & _). congruence.
  - apply list_elem_of_fmap. by exists k.
Qed.

(** What was written is what the next start loads. *)
Lemma load_after_save (announced : Store.store) (f : Store.file) :
  Store.load_announced_tournaments
    (Store.save_announced_tournaments Store.Written announced f).2 = Ok announced.
Proof. reflexivity. Qed.

(** A write that fails leaves a file that loads as what it held before,
    or as the empty mapping: never as the dictionary in memory, unless
    that was there already. *)
Lemma load_after_failed_save (outcome : Store.write_outcome) (announced : Store.store)
    (f : Store.file) :
  outcome <> Store.Written ->
  (Store.save_announced_tournaments outcome announced f).1 = Raise OSError /\
  ((Store.save_announced_tournaments outcome announced f).2 = f \/
   Store.load_announced_tournaments (Store.save_announced_tournaments outcome announced f).2 =
     Ok ∅).
Proof.
  intros Hne. destruct outcome as [| | e]; [done | by split; [|left] | by split; [|right]].
Qed.

(** ** The request primitive *)

Lemma recover_returns {request : Type} (r : res json) :
  exists v, (@Api.recover request r).1 = Ok v.
Proof. destruct r as [v | []]; by eexists. Qed.

Lemma recover_raise {request : Type} (e : exn) :
  (@Api.recover request (Raise e)).1 = Ok JNull /\
  exists l, (@Api.recover request (Raise e)).2 = [Api.Print l] /\ Api.reports_failure l.
Proof. destruct e; (split; [reflexivity|]); by eexists. Qed.

Lemma guarded_returns {request : Type} (E : Api.env request) (req : request) :
  exists v, (Api.guarded E req).1 = Ok v.
Proof.
  unfold Api.guarded. destruct (Api.attempt E req) as [r ev].
  destruct (recover_returns (request := request) r) as [v Hv].
  destruct (Api.recover r) as [r' ev']. by exists v.
Qed.

Lemma guarded_failure {request : Type} (E : Api.env request) (req : request) :
  Api.failure E req ->
  (Api.guarded E req).1 = Ok JNull /\
  exists l, last (Api.guarded E req).2 = Some (Api.Print l) /\ Api.reports_failure l.
Proof.
  assert (Hexn : forall (e : exn) (ev : list (Api.event request)),
    (let '(r', ev') := Api.recover (Raise e) in (r', ev ++ ev')).1 = Ok JNull /\
    exists l, last (let '(r', ev') := Api.recover (Raise e) in (r', ev ++ ev')).2 =
                Some (Api.Print l) /\ Api.reports_failure l).
  { intros e ev. destruct (recover_raise (request := request) e) as [H1 (l & H2 & H3)].
    destruct (Api.recover (Raise e)) as [r' ev']. cbn in *. subst.
    split; [reflexivity|]. exists l. split; [apply last_snoc | exact H3]. }
  assert (H429 : (@Ok json JNull, [@Api.Print request Api.LogRateLimit] ++ []).1 = Ok JNull /\
    exists l, last (@Ok json JNull, [@Api.Print request Api.LogRateLimit] ++ []).2 =
                Some (Api.Print l) /\ Api.reports_failure l).
  { split; [reflexivity|]. by exists Api.LogRateLimit. }
  intros Hfail. unfold Api.guarded, Api.attempt, Api.raise_for_status.
  destruct Hfail as [r Hr Hs | e Hr | r Hr Hs | r e Hr Hb]; rewrite Hr.
  - rewrite Hs. apply H429.
  - apply Hexn.
  - destruct (Api.status r =? 429); [apply H429|].
    apply Z.leb_le in Hs. rewrite Hs. apply (Hexn ClientError).
  - destruct (Api.status r =? 429); [apply H429|].
    destruct (400 <=? Api.status r); [apply (Hexn ClientError)|].
    cbn. rewrite Hb. exact (Hexn e []).
Qed.

Lemma rate_limited_request_guarded {request : Type}
    (E : Api.env request) (c : Api.client) (req : request) :
  (Api._rate_limited_request E c req).1.1 = (Api.guarded E req).1 /\
  forall ev, last (Api.guarded E req).2 = Some ev ->
             last (Api._rate_limited_request E c req).2 = Some ev.
Proof.
  unfold Api._rate_limited_request.
  destruct (Api.guarded E req) as [r ev3]. cbn.
  split; [by destruct (Api.client_session c)|].
  intros ev Hev. destruct ev3 as [| e3 ev3] using rev_ind; [discriminate|].
  rewrite last_snoc in Hev. injection Hev as ->.
  destruct (Api.client_session c); cbn;
    rewrite ?app_comm_cons, ?app_assoc; apply last_snoc.
Qed.

(** C7: the request primitive always returns; on a throttling response,
    a transport failure, an undecodable body or any other exception it
    returns [None], and the last thing it does is to print the line
    that reports the failure. *)
Theorem rate_limited_request_never_raises {request : Type}
    (E : Api.env request) (c : Api.client) (req : request) :
  (exists v, (Api._rate_limited_request E c req).1.1 = Ok v) /\
  (Api.failure E req ->
   (Api._rate_limited_request E c req).1.1 = Ok JNull /\
   exists l, last (Api._rate_limited_request E c req).2 = Some (Api.Print l) /\
             Api.reports_failure l).
Proof.
  destruct (rate_limited_request_guarded E c req) as [Hres Hev].
  rewrite Hres. split; [apply guarded_returns|].
  intros Hfail. destruct (guarded_failure E req Hfail) as [Hnull (l & Hl & Hrep)].
  split; [exact Hnull|]. exists l. split; [by apply Hev | exact Hrep].
Qed.

Lemma rate_limited_request_never_raises_witness :
  Api.failure Examples.throttling_env tt /\
  (Api._rate_limited_request Examples.throttling_env
     {| Api.client_session := Api.NoSession; Api.last_api_call := 0 |} tt).1.1 = Ok JNull.
Proof.
  assert (H : Api.failure Examples.throttling_env tt).
  { eapply Api.Throttled; reflexivity. }
  split; [exact H|].
  exact (proj1 (proj2 (rate_limited_request_never_raises Examples.throttling_env _ tt) H)).
Defined.

(** ** The OAuth callback *)

(** The guard of the handler: nothing has been touched when it answers 400. *)
Lemma oauth_callback_guard (E : OAuth.env) (d : OAuth.states) (req : OAuth.request) :
  (OAuth.not_id (OAuth.find_state d (OAuth.state req))
   || OAuth.not_code (OAuth.code req)) = true ->
  OAuth.run E d req =
    (Ok rejected, {| OAuth.verification_states := d; OAuth.trace := [] |}).
Proof.
  intros H. unfold OAuth.run, OAuth.oauth_callback. eff_unfold. cbn.
  by rewrite H.
Qed.

(** C5: a callback whose state matches no stored entry, or which
    carries no authorization code, is answered 400; the
    verification-state map is left as it was and nothing is sent out. *)
Theorem oauth_callback_rejects (E : OAuth.env) (d : OAuth.states) (req : OAuth.request) :
  OAuth.find_state d (OAuth.state req) = None \/ OAuth.code req = None ->
  OAuth.run E d req =
    (Ok rejected, {| OAuth.verification_states := d; OAuth.trace := [] |}).
Proof.
  intros H. apply oauth_callback_guard.
  destruct H as [-> | ->]; [reflexivity | apply orb_true_r].
Qed.

Lemma oauth_callback_rejects_witness :
  OAuth.run Examples.provider_down Examples.one_pending Examples.unknown_state =
    (Ok rejected, {| OAuth.verification_states := Examples.one_pending; OAuth.trace := [] |}).
Proof.
  apply (oauth_callback_rejects Examples.provider_down Examples.one_pending
           Examples.unknown_state).
  left. reflexivity.
Defined.

Lemma find_state_Some (d : OAuth.states) (st : option string) (uid : positive) :
  OAuth.find_state d st = Some uid ->
  exists v, (uid, v) ∈ d /\ Some (OAuth.entry_state v) = st.
Proof.
  induction d as [| [k v] d IH]; cbn; [discriminate|].
  destruct (decide (Some (OAuth.entry_state v) = st)) as [Heq | Hne].
  - intros [= ->]. exists v. split; [by left | done].
  - intros H. destruct (IH H) as (w & Hin & Hw). exists w. split; [by right | done].
Qed.

Lemma find_state_None (d : OAuth.states) (st : option string) :
  (forall k v, (k, v) ∈ d -> Some (OAuth.entry_state v) ≠ st) ->
  OAuth.find_state d st = None.
Proof.
  induction d as [| [k v] d IH]; cbn; [done|]. intros H.
  destruct (decide (Some (OAuth.entry_state v) = st)) as [Heq | Hne].
  - exfalso. eapply H; [by left | done].
  - apply IH. intros k' v' Hin. apply (H k' v'). by right.
Qed.

Lemma lookup_pop_state (uid : positive) (d : OAuth.states) :
  OAuth.lookup_state uid (OAuth.pop_state uid d) = None.
Proof.
  unfold OAuth.pop_state. induction d as [| [k v] d IH]; [done|].
  rewrite filter_cons. cbn. destruct (decide (k ≠ uid)) as [Hne | Heq]; [|done].
  cbn. apply Pos.eqb_neq in Hne. by rewrite Hne.
Qed.

Lemma lookup_pop_state_ne (uid k : positive) (d : OAuth.states) :
  k ≠ uid ->
  OAuth.lookup_state k (OAuth.pop_state uid d) = OAuth.lookup_state k d.
Proof.
  intros Hk. unfold OAuth.pop_state. induction d as [| [k' v] d IH]; [done|].
  rewrite filter_cons. cbn. destruct (decide (k' ≠ uid)) as [Hne | Heq].
  - cbn. by rewrite IH.
  - apply dec_stable in Heq. subst k'.
    assert (Pos.eqb uid k = false) as -> by (apply Pos.eqb_neq; congruence). done.
Qed.

Lemma find_pop_state (uid : positive) (d : OAuth.states) (st : option string) :
  (forall k v, (k, v) ∈ d -> Some (OAuth.entry_state v) = st -> k = uid) ->
  OAuth.find_state (OAuth.pop_state uid d) st = None.
Proof.
  intros Huniq. apply find_state_None. intros k v Hin Heq.
  apply list_elem_of_filter in Hin as [Hne Hin]. cbn in Hne.
  apply Hne. by eapply Huniq.
Qed.

Lemma pop_state_absent (uid : positive) (d : OAuth.states) :
  uid ∉ OAuth.keys d -> OAuth.pop_state uid d = d.
Proof.
  unfold OAuth.pop_state, OAuth.keys. induction d as [| [k v] d IH]; [done|].
  rewrite fmap_cons, not_elem_of_cons. intros [Hne Hd].
  rewrite filter_cons. cbn [fst] in *.
  destruct (decide (k ≠ uid)) as [_ | Heq]; [|destruct Heq; congruence].
  by rewrite IH.
Qed.

(** In a dict, where keys are distinct, the pop takes out one item. *)
Lemma pop_state_length (uid : positive) (d : OAuth.states) :
  NoDup (OAuth.keys d) -> uid ∈ OAuth.keys d ->
  S (length (OAuth.pop_state uid d)) = length d.
Proof.
  unfold OAuth.keys. induction d as [| [k v] d IH]; [by intros _ ?%elem_of_nil|].
  rewrite fmap_cons. cbn [fst]. intros [Hk Hnd]%NoDup_cons Hin.
  unfold OAuth.pop_state. rewrite filter_cons. cbn [fst].
  destruct (decide (k ≠ uid)) as [Hne | Heq].
  - cbn [length]. f_equal. apply IH; [done|].
    apply elem_of_cons in Hin as [-> | Hin]; done.
  - apply dec_stable in Heq. subst k.
    fold (OAuth.pop_state uid d). by rewrite pop_state_absent.
Qed.

(** Past the guard the entry is popped before anything is sent out, so
    the map that remains does not depend on the provider. *)
Lemma oauth_callback_pops (E : OAuth.env) (d : OAuth.states) (req : OAuth.request)
    (uid : positive) :
  OAuth.find_state d (OAuth.state req) = Some uid ->
  OAuth.not_code (OAuth.code req) = false ->
  OAuth.verification_states (OAuth.run E d req).2 = OAuth.pop_state uid d.
Proof.
  intros Hfind Hcode. unfold OAuth.run, OAuth.oauth_callback, OAuth.pop, OAuth.emit.
  eff_unfold. cbn. rewrite Hfind, Hcode. cbn.
  destruct (OAuth.code req) as [c |]; [|discriminate]. cbn.
  destruct (OAuth.post_token E c) as [tokens | e]; cbn; [|by destruct e].
  destruct (item tokens "access_token") as [tok | e]; cbn; [|by destruct e].
  destruct (OAuth.get_profile E tok) as [pd | e]; cbn; [|by destruct e].
  destruct (get pd "nickname" JNull) as [nick | e]; cbn; [|by destruct e].
  destruct (get pd "games" (JObj [])) as [games | e]; cbn; [|by destruct e].
  destruct (get games "cs2" (JObj [])) as [cs2 | e]; cbn; [|by destruct e].
  destruct (get cs2 "skill_level" (JNum 0)) as [lvl | e]; cbn; [done | by destruct e].
Qed.

(** C4, as the code has it: a callback that presents a stored token
    together with an authorization code removes that entry (one item of
    the dict), whatever the token exchange and the profile fetch do
    afterwards; the other entries stay; and, no other entry carrying
    the same token, a second callback with that token is answered 400
    and changes nothing. *)
Theorem oauth_callback_consumes_once (E : OAuth.env) (d : OAuth.states)
    (req : OAuth.request) (uid : positive) :
  OAuth.find_state d (OAuth.state req) = Some uid ->
  OAuth.not_code (OAuth.code req) = false ->
  OAuth.verification_states (OAuth.run E d req).2 = OAuth.pop_state uid d /\
  OAuth.lookup_state uid (OAuth.pop_state uid d) = None /\
  (forall k, k ≠ uid ->
     OAuth.lookup_state k (OAuth.pop_state uid d) = OAuth.lookup_state k d) /\
  (NoDup (OAuth.keys d) -> S (length (OAuth.pop_state uid d)) = length d) /\
  ((forall k v, (k, v) ∈ d -> Some (OAuth.entry_state v) = OAuth.state req -> k = uid) ->
   forall E',
     OAuth.run E' (OAuth.pop_state uid d) req =
       (Ok rejected, {| OAuth.verification_states := OAuth.pop_state uid d;
                        OAuth.trace := [] |})).
Proof.
  intros Hfind Hcode. repeat split.
  - by apply oauth_callback_pops.
  - apply lookup_pop_state.
  - intros k Hk. by apply lookup_pop_state_ne.
  - intros Hnd. apply pop_state_length; [done|].
    destruct (find_state_Some d _ uid Hfind) as (v & Hin & _).
    apply list_elem_of_fmap. by exists (uid, v).
  - intros Huniq E'. apply oauth_callback_guard.
    by rewrite find_pop_state.
Qed.

Lemma oauth_callback_consumes_once_witness :
  OAuth.verification_states
    (OAuth.run Examples.provider_down Examples.one_pending Examples.good_callback).2 = [].
Proof.
  apply (oauth_callback_consumes_once Examples.provider_down Examples.one_pending
           Examples.good_callback 42); reflexivity.
Defined.

(** A stored token alone does not consume the entry: presented without
    an authorization code it is answered 400 and the entry stays. *)
Lemma oauth_callback_without_code_keeps_entry :
  OAuth.find_state Examples.one_pending (OAuth.state Examples.callback_without_code) = Some 42%positive /\
  OAuth.run Examples.provider_down Examples.one_pending Examples.callback_without_code =
    (Ok rejected, {| OAuth.verification_states := Examples.one_pending; OAuth.trace := [] |}) /\
  OAuth.lookup_state 42 Examples.one_pending <> None.
Proof. repeat split. discriminate. Qed.

(** Were two entries to carry the same token, the second callback would
    consume the other one instead of being turned away. *)
Lemma shared_token_is_consumed_twice :
  let w1 := (OAuth.run Examples.provider_down Examples.shared_token Examples.good_callback).2 in
  let r2 := OAuth.run Examples.provider_down (OAuth.verification_states w1)
              Examples.good_callback in
  OAuth.keys (OAuth.verification_states w1) = [43%positive] /\
  r2.1 = Ok {| OAuth.response_body := OAuth.VerificationError;
               OAuth.response_status := 500 |} /\
  OAuth.verification_states r2.2 = [].
Proof. vm_compute. repeat split. Qed.

(** ** The [/stats] command *)

#[local] Arguments get : simpl never.
#[local] Arguments item0 : simpl never.
#[local] Arguments contains : simpl never.
#[local] Arguments iter : simpl never.
#[local] Arguments truthy : simpl never.
#[local] Arguments Helpers.calculate_win_rate : simpl never.
#[local] Arguments Stats.recent_result_icons : simpl never.
#[local] Arguments Stats.level_image : simpl never.
#[local] Arguments Stats.lacks_lifetime : simpl never.
#[local] Arguments Stats.replace_lang : simpl never.

Ltac stats_unfold :=
  unfold Stats.run, Stats.stats, Stats.ctx_respond, Stats.ctx_defer,
    Stats.ctx_followup_send, Stats.get_player_data, Stats.get_player_stats,
    Stats.get_match_history, Stats.call, Stats.emit, Stats.read_cooldown,
    Stats.write_cooldown in *;
  eff_unfold.

(** Reading a cooldown may create the entry, with the value a missing
    entry already stands for. *)
Lemma read_cooldown_spec (uid : positive) (s : Stats.state) :
  exists s',
    Stats.read_cooldown uid s = (Ok (Stats.cooldown_of (Stats.user_cooldowns s) uid), s') /\
    Stats.trace s' = Stats.trace s /\
    (forall u, Stats.cooldown_of (Stats.user_cooldowns s') u =
               Stats.cooldown_of (Stats.user_cooldowns s) u).
Proof.
  unfold Stats.read_cooldown, Stats.cooldown_of.
  destruct (Stats.user_cooldowns s !! uid) as [t |] eqn:Hl.
  - by exists s.
  - eexists. split; [done|]. cbn. split; [done|].
    intros u. destruct (decide (uid = u)) as [<- | Hne].
    + by rewrite lookup_insert_eq, Hl.
    + by rewrite lookup_insert_ne.
Qed.

(** Destructs the innermost scrutinee of the goal. *)
Ltac step :=
  match goal with
  | |- context [match ?x with _ => _ end] =>
      lazymatch x with
      | context [match _ with _ => _ end] => fail
      | _ => destruct x eqn:?
      end
  end.

(** A run either leaves every user's cooldown as it was, or it went
    through to the end: the embed was sent, the send returned, and the
    author's timestamp is now the time of the call. *)
Lemma stats_cooldowns_change (E : Stats.env) (cooldowns : gmap positive time)
    (author : positive) (username : string) :
  (forall u, Stats.cooldown_of (Stats.user_cooldowns (Stats.run E cooldowns author username).2) u =
             Stats.cooldown_of cooldowns u) \/
  ((Stats.run E cooldowns author username).1 = Ok tt /\
   exists e, Stats.followup_send E (Stats.StatsEmbed e) = Ok tt /\
             last (Stats.trace (Stats.run E cooldowns author username).2) =
               Some (Stats.FollowupSend (Stats.StatsEmbed e) false) /\
             Stats.user_cooldowns (Stats.run E cooldowns author username).2 !! author =
               Some (Stats.now E)).
Proof.
  assert (Hdef : forall u, cooldowns !! author = None ->
            Stats.cooldown_of (<[author := 0]> cooldowns) u = Stats.cooldown_of cooldowns u).
  { intros u Hl. unfold Stats.cooldown_of. destruct (decide (author = u)) as [<- | Hne].
    - by rewrite lookup_insert_eq, Hl.
    - by rewrite lookup_insert_ne. }
  stats_unfold. cbn.
  repeat (step; cbn);
    try match goal with
        | H : <[_ := _]> _ !! _ = None |- _ => by rewrite lookup_insert_eq in H
        end;
    try (left; intros u; first [reflexivity | by apply Hdef]).
  all: right; (split; [reflexivity|]);
    repeat match goal with a : unit |- _ => destruct a end;
    eexists; (split; [eassumption|]);
    (split; [first [reflexivity | apply last_snoc] | apply lookup_insert_eq]).
Qed.

(** Within the cooldown the command answers at once. *)
Lemma stats_within_cooldown (E : Stats.env) (cooldowns : gmap positive time)
    (author : positive) (username : string) :
  Stats.now E - Stats.cooldown_of cooldowns author < Stats.RATE_LIMIT_COOLDOWN ->
  Stats.trace (Stats.run E cooldowns author username).2 =
    [Stats.Respond
       (Stats.CooldownNotice
          (Stats.RATE_LIMIT_COOLDOWN - (Stats.now E - Stats.cooldown_of cooldowns author)))
       true] /\
  (Stats.run E cooldowns author username).1 =
    Stats.respond E
      (Stats.CooldownNotice
         (Stats.RATE_LIMIT_COOLDOWN - (Stats.now E - Stats.cooldown_of cooldowns author))).
Proof.
  intros Hcool. apply Z.ltb_lt in Hcool. revert Hcool.
  unfold Stats.cooldown_of. stats_unfold. cbn.
  destruct (cooldowns !! author) as [t |] eqn:Hl; cbn; intros ->; cbn.
  - by rewrite Hl.
  - by rewrite lookup_insert_eq.
Qed.

(** C8, as the code has it: the cooldown is counted from the stamp
    stored for the user, which is the clock reading taken when their
    last successful query began.  A [/stats] call made less than five
    seconds after that stamp answers with the ephemeral cooldown
    notice, built from a remaining time that is positive, and calls the
    API not at all; and a user's stamp only moves when the command has
    run to the end, to the reading taken when that command began. *)
Theorem stats_cooldown (E : Stats.env) (cooldowns : gmap positive time)
    (author : positive) (username : string) :
  (Stats.now E - Stats.cooldown_of cooldowns author < Stats.RATE_LIMIT_COOLDOWN ->
   exists remaining,
     0 < remaining /\
     Stats.trace (Stats.run E cooldowns author username).2 =
       [Stats.Respond (Stats.CooldownNotice remaining) true] /\
     (forall r, Stats.ApiCall r ∉ Stats.trace (Stats.run E cooldowns author username).2) /\
     (forall u, Stats.cooldown_of
                  (Stats.user_cooldowns (Stats.run E cooldowns author username).2) u =
                Stats.cooldown_of cooldowns u)) /\
  (Stats.cooldown_of (Stats.user_cooldowns (Stats.run E cooldowns author username).2) author
     ≠ Stats.cooldown_of cooldowns author ->
   (Stats.run E cooldowns author username).1 = Ok tt /\
   exists e, Stats.followup_send E (Stats.StatsEmbed e) = Ok tt /\
             last (Stats.trace (Stats.run E cooldowns author username).2) =
               Some (Stats.FollowupSend (Stats.StatsEmbed e) false) /\
             Stats.cooldown_of
               (Stats.user_cooldowns (Stats.run E cooldowns author username).2) author =
             Stats.now E).
Proof.
  split.
  - intros Hcool.
    destruct (stats_within_cooldown E cooldowns author username Hcool) as [Htrace _].
    eexists. split; [|split; [exact Htrace|split]].
    + lia.
    + intros r. rewrite Htrace. intros Hin.
      apply list_elem_of_singleton in Hin. discriminate.
    + destruct (stats_cooldowns_change E cooldowns author username)
        as [Hsame | (_ & e & _ & Hlast & _)]; [exact Hsame|].
      rewrite Htrace in Hlast. discriminate.
  - intros Hchanged.
    destruct (stats_cooldowns_change E cooldowns author username)
      as [Hsame | (Hok & e & Hsend & Hlast & Hnow)]; [by rewrite Hsame in Hchanged|].
    split; [exact Hok|]. exists e. repeat split; try done.
    unfold Stats.cooldown_of. by rewrite Hnow.
Qed.

(** The notice prints the remaining time to one decimal, so that a
    remaining time under a twentieth of a second reads 0.0, and 0.35 s,
    held as a double just below it, reads 0.3. *)
Lemma cooldown_notice_shows_zero :
  Stats.shown 30000 = "0.0" /\ Stats.shown 350000 = "0.3".
Proof. split; vm_compute; reflexivity. Qed.

Lemma stats_cooldown_witness :
  exists remaining,
    0 < remaining /\
    Stats.trace (Stats.run (Examples.stats_env 103000000 []) {[ 7%positive := 100000000 ]}
                   7 "me").2 =
      [Stats.Respond (Stats.CooldownNotice remaining) true].
Proof.
  destruct (proj1 (stats_cooldown (Examples.stats_env 103000000 [])
                     {[ 7%positive := 100000000 ]} 7 "me"))
    as (remaining & Hpos & Htrace & _).
  - vm_compute. reflexivity.
  - exists remaining. split; assumption.
Defined.

(** C8, where the claim fails: the cooldown does not run from the
    completion of the last successful query.  A query that began at
    100.0 s is answered no sooner than 103.0 s, its three requests
    being made a rate-limit delay apart, and it leaves the stamp
    100.0 s.  A query of the same user at 105.2 s, which is 2.2 s after
    that answer, is not met with the notice: it calls the API and is
    answered. *)
Theorem query_soon_after_the_answer_is_served :
  let began := 100000000 in
  let answered := 103000000 in
  let again := 105200000 in
  let first := Stats.run (Examples.stats_env began []) ∅ 7 "me" in
  let second := Stats.run (Examples.stats_env again []) (Stats.user_cooldowns first.2) 7 "me" in
  (began + 2 * Api.rate_limit_delay <= answered) /\
  (first.1 = Ok tt) /\
  (exists e, last (Stats.trace first.2) =
               Some (Stats.FollowupSend (Stats.StatsEmbed e) false)) /\
  (Stats.user_cooldowns first.2 !! 7%positive = Some began) /\
  (0 <= again - answered < Stats.RATE_LIMIT_COOLDOWN) /\
  (Stats.ApiCall (Stats.PlayerByNickname "me") ∈ Stats.trace second.2) /\
  (exists e, last (Stats.trace second.2) =
               Some (Stats.FollowupSend (Stats.StatsEmbed e) false)) /\
  (forall remaining ephemeral,
     Stats.Respond (Stats.CooldownNotice remaining) ephemeral ∉ Stats.trace second.2).
Proof.
  intros began answered again first second.
  split; [vm_compute; discriminate|].
  split; [reflexivity|].
  split; [eexists; vm_compute; reflexivity|].
  split; [reflexivity|].
  split; [split; vm_compute; [discriminate | reflexivity]|].
  split; [vm_compute; right; left|].
  split; [eexists; vm_compute; reflexivity|].
  intros remaining ephemeral H. vm_compute in H.
  repeat (apply elem_of_cons in H as [H | H]; [discriminate H|]).
  by apply elem_of_nil in H.
Qed.

(** C3: the glyph is decided by comparing the winner with faction 1,
    whichever faction the player was in.  For a player who won as a
    member of faction 2 the command shows the loss glyph, where the rule
    of the specification asks for the win glyph. *)
Theorem stats_icon_compares_with_faction1 :
  StatsSpec.own_faction_id (JStr "me") Examples.won_as_faction2 = Some (JStr "team-b") /\
  StatsSpec.winner_id Examples.won_as_faction2 = Some (JStr "team-b") /\
  StatsSpec.expected_icon (JStr "me") Examples.won_as_faction2 = Some Stats.Green /\
  Stats.match_icon Examples.won_as_faction2 = Ok (Some Stats.Red) /\
  exists e,
    last (Stats.trace (Stats.run (Examples.stats_env 100000000 [Examples.won_as_faction2])
                         ∅ 7 "me").2) =
      Some (Stats.FollowupSend (Stats.StatsEmbed e) false) /\
    Stats.embed_recent e = Stats.Icons [Stats.Red].
Proof.
  repeat split. eexists. split; vm_compute; reflexivity.
Qed.

(** When the player is in faction 1 the two rules agree. *)
Lemma stats_icon_faction1_agrees :
  Stats.match_icon Examples.won_as_faction1 = Ok (Some Stats.Green) /\
  StatsSpec.expected_icon (JStr "me") Examples.won_as_faction1 = Some Stats.Green.
Proof. split; reflexivity. Qed.

(** Whatever the match, a glyph that is shown is the win glyph exactly
    when the winner equals the identifier of faction 1. *)
Lemma match_icon_faction1 (match_ : json) (glyph : Stats.icon) :
  Stats.match_icon match_ = Ok (Some glyph) ->
  exists teams faction1 faction_id results winning_team_id,
    get match_ "teams" (JObj []) = Ok teams /\
    get teams "faction1" (JObj []) = Ok faction1 /\
    get faction1 "faction_id" JNull = Ok faction_id /\
    get match_ "results" (JObj []) = Ok results /\
    get results "winner_id" JNull = Ok winning_team_id /\
    glyph = if eq winning_team_id faction_id then Stats.Green else Stats.Red.
Proof.
  unfold Stats.match_icon. eff_unfold. unfold bind.
  destruct (get match_ "teams" (JObj [])) as [teams |] eqn:H1; [|discriminate].
  destruct (get teams "faction1" (JObj [])) as [faction1 |] eqn:H2; [|discriminate].
  destruct (get faction1 "players" (JArr [])) as [players |]; [|discriminate].
  destruct (item0 players) as [first |]; [|discriminate].
  destruct (get first "player_id" JNull) as [pid |]; [|discriminate].
  destruct (get match_ "results" (JObj [])) as [results |] eqn:H3; [|discriminate].
  destruct (get results "winner_id" JNull) as [winner |] eqn:H4; [|discriminate].
  destruct (truthy winner && truthy pid); [|discriminate].
  destruct (get faction1 "faction_id" JNull) as [fid |] eqn:H5; [|discriminate].
  intros [= <-]. exists teams, faction1, fid, results, winner.
  repeat split; assumption.
Qed.

(** C6: a history item without faction data is not skipped: taking the
    first player of the empty default list raises [IndexError], the
    command ends there, and neither the matches after it nor the answer
    are produced. *)
Theorem stats_match_without_factions_raises :
  Stats.match_icon Examples.no_faction_data = Raise IndexError /\
  Stats.recent_result_icons [Examples.no_faction_data; Examples.won_as_faction1] [] =
    Raise IndexError /\
  Stats.run (Examples.stats_env 100000000 [Examples.no_faction_data; Examples.won_as_faction1])
            ∅ 7 "me" =
    (Raise IndexError,
     {| Stats.user_cooldowns := {[ 7%positive := 0 ]};
        Stats.trace := [Stats.Defer;
                        Stats.ApiCall (Stats.PlayerByNickname "me");
                        Stats.ApiCall (Stats.PlayerStats (JStr "me"));
                        Stats.ApiCall (Stats.MatchHistory (JStr "me") 5)] |}).
Proof. repeat split. Qed.

(** A match with factions but no winner is skipped, as is one whose
    winner is there but whose first faction-1 player has no identifier. *)
Lemma match_icon_without_winner (match_ teams faction1 players first pid results : json) :
  get match_ "teams" (JObj []) = Ok teams ->
  get teams "faction1" (JObj []) = Ok faction1 ->
  get faction1 "players" (JArr []) = Ok players ->
  item0 players = Ok first ->
  get first "player_id" JNull = Ok pid ->
  get match_ "results" (JObj []) = Ok results ->
  get results "winner_id" JNull = Ok JNull ->
  Stats.match_icon match_ = Ok None.
Proof.
  intros H1 H2 H3 H4 H5 H6 H7. unfold Stats.match_icon. eff_unfold. unfold bind.
  by rewrite H1, H2, H3, H4, H5, H6, H7.
Qed.

Lemma stats_match_without_winner_skipped :
  Stats.recent_result_icons [Examples.no_winner_data; Examples.won_as_faction1] [] =
    Ok [Stats.Green].
Proof. reflexivity. Qed.

(** ** The synchronisation loop *)

#[local] Arguments Sync.create_championship_embed : simpl never.
#[local] Arguments Sync.create_finished_embed : simpl never.

Ltac sync_unfold :=
  unfold Sync.process, Sync.print, Sync.emit, Sync.pop, Sync.set_item, Sync.save,
    Store.save_announced_tournaments in *;
  eff_unfold.

(** Handling an item touches no entry but the item's own. *)
Lemma process_frame (E : Sync.env) (c : Sync.championship) (s : Sync.state) (k : Store.key) :
  k ≠ Sync.championship_id c ->
  Sync.announced_tournaments (Sync.process E c s).2 !! k = Sync.announced_tournaments s !! k.
Proof.
  intros Hk. sync_unfold. cbn.
  repeat (step; cbn); try reflexivity;
    first [by rewrite lookup_delete_ne | by rewrite lookup_insert_ne].
Qed.

(** Once every write succeeds, a file in step with the dictionary stays
    in step. *)
Lemma process_persisted (E : Sync.env) (c : Sync.championship) (s : Sync.state) :
  Sync.writes_succeed E -> Sync.persisted s -> Sync.persisted (Sync.process E c s).2.
Proof.
  unfold Sync.persisted, Sync.writes_succeed. intros Hw Hp. sync_unfold. cbn.
  repeat (step; cbn); try reflexivity; try assumption;
    match goal with
    | H : Sync.write E ?x = _ |- _ => rewrite (Hw x) in H; discriminate
    end.
Qed.

(** The calls made while handling an item are calls for that item, and
    the line of the outermost handler is not among what is printed. *)
Lemma process_trace (E : Sync.env) (c : Sync.championship) (s : Sync.state) :
  exists evs,
    Sync.trace (Sync.process E c s).2 = Sync.trace s ++ evs /\
    Forall (fun ev => (forall k, Sync.concerns k ev -> k = Sync.championship_id c) /\
                      ev <> Sync.Print Sync.LogCycleError) evs.
Proof.
  sync_unfold. cbn.
  repeat (step; cbn); rewrite <- ?app_assoc;
    try (exists []; split; [by rewrite app_nil_r | constructor]);
    (eexists; split; [reflexivity|]);
    repeat constructor; cbn; intros; by try congruence.
Qed.

(** *** One listing item *)

(** The stored message is gone: the entry is dropped and the store
    written. *)
Lemma process_not_found (E : Sync.env) (c : Sync.championship) (s : Sync.state)
    (m : Store.msgid) :
  let k := Sync.championship_id c in
  let store' := delete k (Sync.announced_tournaments s) in
  Sync.announced_tournaments s !! k = Some m ->
  Sync.get_channel E = true ->
  Sync.fetch_message E m = Raise NotFound ->
  Sync.process E c s =
    ((Store.save_announced_tournaments (Sync.write E store') store' (Sync.disk s)).1,
     {| Sync.announced_tournaments := store';
        Sync.disk := (Store.save_announced_tournaments (Sync.write E store') store'
                        (Sync.disk s)).2;
        Sync.trace := Sync.trace s ++
          [Sync.FetchMessage c m; Sync.Print (Sync.LogMessageNotFound k);
           Sync.Save store'] |}).
Proof.
  intros k store' Hk Hch Hf. subst k store'. sync_unfold. cbn. rewrite Hk, Hch. cbn.
  rewrite Hf. cbn. rewrite Hk. cbn. rewrite <- !app_assoc.
  by destruct (Sync.write E _).
Qed.

(** An unknown live tournament is announced and recorded; the entry is
    in memory whether or not the write that follows succeeds. *)
Lemma process_announce (E : Sync.env) (c : Sync.championship) (s : Sync.state)
    (embed : Sync.embed) (m' : Z) :
  let k := Sync.championship_id c in
  let store' := <[k := Some m']> (Sync.announced_tournaments s) in
  Sync.announced_tournaments s !! k = None ->
  Sync.is_live (Sync.status c) = true ->
  Sync.get_channel E = true ->
  Sync.create_championship_embed E c = Ok embed ->
  Sync.send E embed = Ok m' ->
  (Sync.process E c s).1 = Ok tt /\
  Sync.announced_tournaments (Sync.process E c s).2 = store' /\
  Sync.disk (Sync.process E c s).2 =
    (Store.save_announced_tournaments (Sync.write E store') store' (Sync.disk s)).2 /\
  exists line,
    Sync.trace (Sync.process E c s).2 =
      Sync.trace s ++ [Sync.SendMessage c embed; Sync.Save store'; Sync.Print line].
Proof.
  intros k store' Hk Hlive Hch Hr Hsend. subst k store'. sync_unfold. cbn.
  rewrite Hk, Hlive, Hch. cbn. rewrite Hr. cbn. rewrite Hsend. cbn.
  rewrite <- !app_assoc. destruct (Sync.write E _); cbn; rewrite <- ?app_assoc;
    repeat split; by eexists.
Qed.

(** A known tournament that ended has its message edited, and the entry
    goes once the edit has been accepted. *)
Lemma process_finalize (E : Sync.env) (c : Sync.championship) (s : Sync.state)
    (m : Store.msgid) (final_embed : Sync.embed) :
  let k := Sync.championship_id c in
  let store' := delete k (Sync.announced_tournaments s) in
  Sync.announced_tournaments s !! k = Some m ->
  Sync.is_final (Sync.status c) = true ->
  Sync.get_channel E = true ->
  Sync.fetch_message E m = Ok tt ->
  Sync.create_finished_embed c (Sync.get_championship_standings E k) = Ok final_embed ->
  Sync.edit E m final_embed = Ok tt ->
  (Sync.process E c s).1 = Ok tt /\
  Sync.announced_tournaments (Sync.process E c s).2 = store' /\
  Sync.disk (Sync.process E c s).2 =
    (Store.save_announced_tournaments (Sync.write E store') store' (Sync.disk s)).2 /\
  exists lines,
    Sync.trace (Sync.process E c s).2 =
      Sync.trace s ++
        [Sync.FetchMessage c m; Sync.GetStandings c; Sync.EditMessage c m final_embed;
         Sync.Print (Sync.LogFinished k); Sync.Save store'] ++ (Sync.Print <$> lines).
Proof.
  intros k store' Hk Hfin Hch Hf Hr He. subst k store'. sync_unfold. cbn.
  rewrite Hk, Hch. cbn. rewrite Hf. cbn. rewrite Hfin. cbn. rewrite Hr. cbn.
  rewrite He. cbn. rewrite Hk. cbn. rewrite <- !app_assoc.
  destruct (Sync.write E _); cbn; rewrite <- ?app_assoc; repeat split.
  - by exists [].
  - by exists [Sync.LogUpdateError].
  - by exists [Sync.LogUpdateError].
Qed.

(** An unknown tournament that is not live is passed over. *)
Lemma process_idle (E : Sync.env) (c : Sync.championship) (s : Sync.state) :
  Sync.announced_tournaments s !! Sync.championship_id c = None ->
  Sync.is_live (Sync.status c) = false ->
  Sync.process E c s = (Ok tt, s).
Proof.
  intros Hk Hlive. sync_unfold. cbn. by rewrite Hk, Hlive.
Qed.

(** *** A whole listing *)

Lemma loop_cons (E : Sync.env) (c : Sync.championship) (rest : list Sync.championship)
    (s : Sync.state) :
  Sync.loop E (c :: rest) s =
    match (Sync.process E c s).1 with
    | Ok _ => Sync.loop E rest (Sync.process E c s).2
    | Raise e => (Raise e, (Sync.process E c s).2)
    end.
Proof.
  unfold Sync.loop. cbn. unfold mbind, Eff.M_bind.
  by destruct (Sync.process E c s) as [[[] | e] s'].
Qed.

Lemma loop_app (E : Sync.env) (l1 l2 : list Sync.championship) (s : Sync.state) :
  Sync.loop E (l1 ++ l2) s =
    match (Sync.loop E l1 s).1 with
    | Ok _ => Sync.loop E l2 (Sync.loop E l1 s).2
    | Raise e => (Raise e, (Sync.loop E l1 s).2)
    end.
Proof.
  revert s. induction l1 as [| c rest IH]; intros s; [reflexivity|].
  rewrite <- app_comm_cons, !loop_cons.
  destruct (Sync.process E c s).1; [apply IH | reflexivity].
Qed.

Lemma loop_frame (E : Sync.env) (listing : list Sync.championship) (s : Sync.state)
    (k : Store.key) :
  k ∉ (Sync.championship_id <$> listing) ->
  Sync.announced_tournaments (Sync.loop E listing s).2 !! k =
    Sync.announced_tournaments s !! k.
Proof.
  revert s. induction listing as [| c rest IH]; intros s Hk; [reflexivity|].
  rewrite fmap_cons, not_elem_of_cons in Hk. destruct Hk as [Hc Hrest].
  rewrite loop_cons. pose proof (process_frame E c s k Hc) as Hf.
  destruct (Sync.process E c s).1; cbn; [by rewrite IH | done].
Qed.

Lemma loop_persisted (E : Sync.env) (listing : list Sync.championship) (s : Sync.state) :
  Sync.writes_succeed E -> Sync.persisted s -> Sync.persisted (Sync.loop E listing s).2.
Proof.
  intros Hw. revert s. induction listing as [| c rest IH]; intros s Hp; [done|].
  rewrite loop_cons. pose proof (process_persisted E c s Hw Hp) as Hp'.
  destruct (Sync.process E c s).1; cbn; [by apply IH | done].
Qed.

Lemma loop_trace (E : Sync.env) (listing : list Sync.championship) (s : Sync.state) :
  exists evs,
    Sync.trace (Sync.loop E listing s).2 = Sync.trace s ++ evs /\
    Forall (fun ev => (forall k, Sync.concerns k ev -> k ∈ (Sync.championship_id <$> listing)) /\
                      ev <> Sync.Print Sync.LogCycleError) evs.
Proof.
  revert s. induction listing as [| c rest IH]; intros s.
  - exists []. split; [by rewrite app_nil_r | constructor].
  - rewrite loop_cons. destruct (process_trace E c s) as (evs1 & Ht1 & Hc1).
    assert (Hc1' : Forall (fun ev =>
              (forall k, Sync.concerns k ev -> k ∈ (Sync.championship_id <$> c :: rest)) /\
              ev <> Sync.Print Sync.LogCycleError) evs1).
    { eapply Forall_impl; [exact Hc1|]. cbn. intros ev [H Hne]. split; [|done].
      intros k Hk. rewrite (H k Hk). by left. }
    destruct (Sync.process E c s).1; cbn.
    + destruct (IH (Sync.process E c s).2) as (evs2 & Ht2 & Hc2).
      exists (evs1 ++ evs2). split; [by rewrite Ht2, Ht1, app_assoc|].
      apply Forall_app. split; [done|].
      eapply Forall_impl; [exact Hc2|]. cbn. intros ev [H Hne]. split; [|done].
      intros k Hk. right. by apply H.
    + by exists evs1.
Qed.

Lemma loop_trace_others (E : Sync.env) (listing : list Sync.championship) (s : Sync.state)
    (k : Store.key) :
  k ∉ (Sync.championship_id <$> listing) ->
  exists evs,
    Sync.trace (Sync.loop E listing s).2 = Sync.trace s ++ evs /\
    Forall (fun ev => ~ Sync.concerns k ev /\ ev <> Sync.Print Sync.LogCycleError) evs.
Proof.
  intros Hk. destruct (loop_trace E listing s) as (evs & Ht & Hc).
  exists evs. split; [done|]. eapply Forall_impl; [exact Hc|].
  cbn. intros ev [H Hne]. split; [|done]. intros Hev. apply Hk. by apply H.
Qed.

(** A cycle whose listing arrives is the loop over that listing, closed
    by the outermost handler. *)
Lemma run_cycle_listing (E : Sync.env) (announced : Store.store) (f : Store.file)
    (listing : list Sync.championship) :
  Sync.get_championships E = Some {| Sync.items := Some listing |} ->
  Sync.run_cycle E announced f =
    Sync.closing (Sync.loop E listing (Sync.started announced f)).
Proof.
  intros Hl. unfold Sync.run_cycle, Sync.check_championships, Sync.emit, Sync.closing.
  eff_unfold. cbn. rewrite Hl. cbn. fold (Sync.loop E listing).
  by destruct (Sync.loop E listing _) as [[[] | e] s'].
Qed.

(** Closing a cycle changes neither the dictionary nor the file, and
    adds at most the line of the outermost handler. *)
Lemma closing_spec (r : res unit * Sync.state) :
  Sync.announced_tournaments (Sync.closing r) = Sync.announced_tournaments r.2 /\
  Sync.disk (Sync.closing r) = Sync.disk r.2 /\
  ((exists u, r.1 = Ok u) /\ Sync.trace (Sync.closing r) = Sync.trace r.2 \/
   (exists e, r.1 = Raise e) /\
   Sync.trace (Sync.closing r) = Sync.trace r.2 ++ [Sync.Print Sync.LogCycleError]).
Proof.
  unfold Sync.closing. destruct r as [[u | e] s]; cbn; repeat split; eauto.
Qed.

(** Splits a membership in a trace into the places it can be at. *)
Ltac trace_places Hev :=
  repeat first [ rewrite elem_of_app in Hev
               | rewrite elem_of_cons in Hev
               | rewrite elem_of_nil in Hev
               | rewrite list_elem_of_fmap in Hev ].

(** A listing that names a tournament once splits around it. *)
Lemma listing_split (listing : list Sync.championship) (c : Sync.championship) :
  c ∈ listing ->
  NoDup (Sync.championship_id <$> listing) ->
  exists before after,
    listing = before ++ c :: after /\
    (Sync.championship_id c ∉ Sync.championship_id <$> before) /\
    (Sync.championship_id c ∉ Sync.championship_id <$> after).
Proof.
  intros Hin Hnd. apply list_elem_of_split in Hin as (before & after & ->).
  exists before, after. split; [done|].
  rewrite fmap_app, fmap_cons in Hnd.
  apply NoDup_app in Hnd as (_ & Hdisj & Hnd).
  apply NoDup_cons in Hnd as [Hafter _]. split; [|done].
  intros Hb. apply (Hdisj _ Hb). by left.
Qed.

Lemma not_concerned_elem (k : Store.key) (evs : list Sync.event) (ev : Sync.event) :
  Forall (fun ev => ~ Sync.concerns k ev /\ ev <> Sync.Print Sync.LogCycleError) evs ->
  ev ∈ evs -> Sync.concerns k ev -> False.
Proof.
  intros Hall Hin Hc. rewrite Forall_forall in Hall.
  destruct (Hall ev Hin) as [Hn _]. by apply Hn.
Qed.

Lemma not_cycle_error_elem (k : Store.key) (evs : list Sync.event) :
  Forall (fun ev => ~ Sync.concerns k ev /\ ev <> Sync.Print Sync.LogCycleError) evs ->
  Sync.Print Sync.LogCycleError ∈ evs -> False.
Proof.
  intros Hall Hin. rewrite Forall_forall in Hall.
  destruct (Hall _ Hin) as [_ Hn]. by apply Hn.
Qed.

(** A cycle seen from one tournament that the listing names once.  The
    items before it neither touch its entry nor make a call for it.
    Then either one of them raised, the cycle was cut short and the
    tournament was not handled at all; or the tournament was handled,
    from a state [sA] in which its entry is as the cycle found it, and
    what came after made no call for it and left its entry alone. *)
Lemma cycle_focus (E : Sync.env) (announced : Store.store) (f : Store.file)
    (listing : list Sync.championship) (c : Sync.championship) :
  let k := Sync.championship_id c in
  let s1 := Sync.run_cycle E announced f in
  Sync.get_championships E = Some {| Sync.items := Some listing |} ->
  c ∈ listing ->
  NoDup (Sync.championship_id <$> listing) ->
  exists sA evs1,
    Sync.announced_tournaments sA !! k = announced !! k /\
    Sync.trace sA = Sync.GetChampionships :: evs1 /\
    Forall (fun ev => ~ Sync.concerns k ev /\ ev <> Sync.Print Sync.LogCycleError) evs1 /\
    ((Sync.announced_tournaments s1 !! k = announced !! k /\
      (forall ev, ev ∈ Sync.trace s1 -> ~ Sync.concerns k ev) /\
      ~ Sync.ran_through s1) \/
     (exists evs2,
        Sync.announced_tournaments s1 !! k =
          Sync.announced_tournaments (Sync.process E c sA).2 !! k /\
        Sync.trace s1 = Sync.trace (Sync.process E c sA).2 ++ evs2 /\
        Forall (fun ev => ~ Sync.concerns k ev) evs2 /\
        (Sync.ran_through s1 -> (Sync.process E c sA).1 = Ok tt) /\
        (Sync.writes_succeed E -> Sync.persisted (Sync.process E c sA).2 ->
         Sync.persisted s1))).
Proof.
  intros k s1 Hl Hin Hnd. subst k s1.
  destruct (listing_split listing c Hin Hnd) as (before & after & -> & Hb & Ha).
  rewrite (run_cycle_listing E announced f _ Hl).
  set (s0 := Sync.started announced f).
  destruct (loop_trace_others E before s0 _ Hb) as (evs1 & Ht1 & Hc1).
  pose proof (loop_frame E before s0 _ Hb) as Hk1.
  exists (Sync.loop E before s0).2, evs1.
  split; [exact Hk1|]. split; [exact Ht1|]. split; [exact Hc1|].
  rewrite loop_app.
  destruct (Sync.loop E before s0) as [[[] | e] sA] eqn:HsA; cbn [fst snd] in *.
  - right. rewrite loop_cons.
    destruct (Sync.process E c sA) as [[[] | e] sB] eqn:HsB; cbn [fst snd].
    + destruct (loop_trace_others E after sB _ Ha) as (evs2 & Ht2 & Hc2).
      pose proof (loop_frame E after sB _ Ha) as Hk2.
      destruct (closing_spec (Sync.loop E after sB)) as (Hst & Hd & Htr).
      destruct Htr as [[_ Htr] | [_ Htr]].
      * exists evs2. rewrite Hst, Htr, Ht2, Hk2. repeat split; try done.
        -- eapply Forall_impl; [exact Hc2|]. by intros ev [? _].
        -- intros Hw Hp. unfold Sync.persisted. rewrite Hst, Hd.
           by apply loop_persisted.
      * exists (evs2 ++ [Sync.Print Sync.LogCycleError]).
        rewrite Hst, Htr, Ht2, Hk2, app_assoc. repeat split; try done.
        -- apply Forall_app. split.
           ++ eapply Forall_impl; [exact Hc2|]. by intros ev [? _].
           ++ repeat constructor. by intros [].
        -- intros Hw Hp. unfold Sync.persisted. rewrite Hst, Hd.
           by apply loop_persisted.
    + exists [Sync.Print Sync.LogCycleError]. unfold Sync.closing. cbn.
      repeat split; try done.
      * repeat constructor. by intros [].
      * intros Hrun. exfalso. apply Hrun. cbn.
        rewrite elem_of_app, list_elem_of_singleton. by right.
  - left. unfold Sync.closing, Sync.ran_through. cbn. split; [exact Hk1|]. split.
    + intros ev Hev Hcon. rewrite Ht1 in Hev. subst s0. cbn in Hev.
      trace_places Hev.
      decompose [or] Hev; clear Hev; subst; cbn in Hcon; try done.
      eauto using not_concerned_elem.
    + intros Hrun. apply Hrun. rewrite elem_of_app, list_elem_of_singleton. by right.
Qed.

(** Goes through the places of a trace an event can be at, given that
    it concerns the tournament in focus. *)
Ltac trace_cases Hev Hcon :=
  trace_places Hev;
  decompose [or] Hev; clear Hev; subst; cbn in Hcon;
  try done; exfalso;
  first [ by eauto using not_concerned_elem
        | match goal with
          | H : Forall (fun ev => ~ Sync.concerns _ ev) ?evs, H' : _ ∈ ?evs |- _ =>
              rewrite Forall_forall in H; by apply (H _ H')
          | H : exists _, _ = _ /\ _ |- _ =>
              let l := fresh in let Heq := fresh in destruct H as (l & Heq & _);
              subst; by cbn in Hcon
          end ].

(** Shows that an event is not in the trace of a concrete run. *)
Ltac not_in_trace :=
  let H := fresh in
  intros H; vm_compute in H;
  repeat (apply elem_of_cons in H as [H | H]; [discriminate H|]);
  by apply elem_of_nil in H.

(** C1, as the code has it.  In a cycle that goes through its listing
    and can write the store file: when the listing names a stored
    tournament once and fetching its stored message fails because the
    message is gone, the cycle drops the entry, saves the store, and
    makes no other call for the tournament (no replacement is sent).
    When the next cycle too goes through its listing and can write the
    file, its listing names the tournament once with a live status, the
    channel is there, the announcement is rendered and the publish goes
    through, that cycle sends a new announcement (the only call it makes
    for the tournament) and records the new message in the store, which
    it saves. *)
Theorem deleted_announcement_is_dropped_then_sent_anew
    (E1 E2 : Sync.env) (announced : Store.store) (f : Store.file)
    (listing1 listing2 : list Sync.championship) (c c2 : Sync.championship)
    (m : Store.msgid) (embed : Sync.embed) (m' : Z) :
  let k := Sync.championship_id c in
  let s1 := Sync.run_cycle E1 announced f in
  let s2 := Sync.run_cycle E2 (Sync.announced_tournaments s1) (Sync.disk s1) in
  Sync.get_championships E1 = Some {| Sync.items := Some listing1 |} ->
  c ∈ listing1 ->
  NoDup (Sync.championship_id <$> listing1) ->
  announced !! k = Some m ->
  Sync.get_channel E1 = true ->
  Sync.fetch_message E1 m = Raise NotFound ->
  Sync.ran_through s1 ->
  Sync.writes_succeed E1 ->
  (Sync.announced_tournaments s1 !! k = None /\
   Sync.persisted s1 /\
   (forall ev, ev ∈ Sync.trace s1 -> Sync.concerns k ev -> ev = Sync.FetchMessage c m)) /\
  (Sync.get_championships E2 = Some {| Sync.items := Some listing2 |} ->
   c2 ∈ listing2 ->
   NoDup (Sync.championship_id <$> listing2) ->
   Sync.championship_id c2 = k ->
   Sync.is_live (Sync.status c2) = true ->
   Sync.get_channel E2 = true ->
   Sync.create_championship_embed E2 c2 = Ok embed ->
   Sync.send E2 embed = Ok m' ->
   Sync.ran_through s2 ->
   Sync.writes_succeed E2 ->
   Sync.SendMessage c2 embed ∈ Sync.trace s2 /\
   (forall ev, ev ∈ Sync.trace s2 -> Sync.concerns k ev -> ev = Sync.SendMessage c2 embed) /\
   Sync.announced_tournaments s2 !! k = Some (Some m') /\
   Sync.persisted s2).
Proof.
  intros k s1 s2 Hl1 Hin1 Hnd1 Hk Hch1 Hf Hrun1 Hw1. subst k.
  assert (H1 : Sync.announced_tournaments s1 !! Sync.championship_id c = None /\
               Sync.persisted s1 /\
               (forall ev, ev ∈ Sync.trace s1 ->
                           Sync.concerns (Sync.championship_id c) ev ->
                           ev = Sync.FetchMessage c m)).
  { destruct (cycle_focus E1 announced f listing1 c Hl1 Hin1 Hnd1)
      as (sA & evs1 & HkA & HtA & Hc1 & [(_ & _ & Hcut) | (evs2 & Hk' & Ht' & Hc2 & _ & Hp)]);
      [done|].
    fold s1 in Hk', Ht', Hp. rewrite Hk in HkA.
    rewrite (process_not_found E1 c sA m HkA Hch1 Hf) in Hk', Ht', Hp.
    rewrite (Hw1 _) in Hk', Ht', Hp. cbn in Hk', Ht', Hp. repeat split.
    - rewrite Hk'. apply lookup_delete_eq.
    - by apply Hp.
    - intros ev Hev Hcon. rewrite Ht', HtA in Hev.
      trace_cases Hev Hcon. }
  split; [exact H1|].
  destruct H1 as (Hgone & _ & _).
  intros Hl2 Hin2 Hnd2 Hk2 Hlive Hch2 Hr Hsend Hrun2 Hw2.
  destruct (cycle_focus E2 (Sync.announced_tournaments s1) (Sync.disk s1) listing2 c2
              Hl2 Hin2 Hnd2)
    as (sA & evs1 & HkA & HtA & Hc1 & [(_ & _ & Hcut) | (evs2 & Hk' & Ht' & Hc2 & _ & Hp)]);
    [done|].
  fold s2 in Hk', Ht', Hp. rewrite Hk2 in HkA, Hk', Hc1, Hc2. rewrite Hgone in HkA.
  assert (HkA' : Sync.announced_tournaments sA !! Sync.championship_id c2 = None)
    by (by rewrite Hk2).
  destruct (process_announce E2 c2 sA embed m' HkA' Hlive Hch2 Hr Hsend)
    as (_ & Hst & Hd & line & Htr).
  rewrite Hst in Hk'. rewrite Htr in Ht'. repeat split.
  - rewrite Ht'. rewrite !elem_of_app, !elem_of_cons. left. right. by left.
  - intros ev Hev Hcon. rewrite Ht', HtA in Hev.
    trace_cases Hev Hcon.
  - rewrite Hk', Hk2. apply lookup_insert_eq.
  - apply Hp; [done|]. unfold Sync.persisted. rewrite Hd, Hst.
    by rewrite (Hw2 _).
Qed.

Lemma deleted_announcement_is_dropped_then_sent_anew_witness :
  let live := [Examples.tournament "t1" "upcoming"] in
  let s1 := Sync.run_cycle (Examples.sync_env live (Raise NotFound) (Ok tt) (Ok 200))
              Examples.one_announced Store.Missing in
  let s2 := Sync.run_cycle (Examples.sync_env live (Ok tt) (Ok tt) (Ok 200))
              (Sync.announced_tournaments s1) (Sync.disk s1) in
  Sync.announced_tournaments s1 !! Some "t1" = None /\
  Sync.announced_tournaments s2 !! Some "t1" = Some (Some 200).
Proof.
  intros live s1 s2.
  assert (Hin : Examples.tournament "t1" "upcoming" ∈ live)
    by (by apply list_elem_of_singleton).
  assert (Hnd : NoDup (Sync.championship_id <$> live)) by apply NoDup_singleton.
  assert (Hrun1 : Sync.ran_through s1) by not_in_trace.
  assert (Hrun2 : Sync.ran_through s2) by not_in_trace.
  destruct (deleted_announcement_is_dropped_then_sent_anew
              (Examples.sync_env live (Raise NotFound) (Ok tt) (Ok 200))
              (Examples.sync_env live (Ok tt) (Ok tt) (Ok 200))
              Examples.one_announced Store.Missing live live
              (Examples.tournament "t1" "upcoming") (Examples.tournament "t1" "upcoming")
              (Some 100) (Sync.Announcement (Examples.tournament "t1" "upcoming")) 200
              eq_refl Hin Hnd eq_refl eq_refl eq_refl Hrun1 (fun _ => eq_refl))
    as [(Hgone & _) Hnext].
  split; [exact Hgone|].
  exact (proj1 (proj2 (proj2 (Hnext eq_refl Hin Hnd eq_refl eq_refl eq_refl eq_refl eq_refl
                                Hrun2 (fun _ => eq_refl))))).
Defined.

(** The next cycle does not always bring the entry back: when the
    publish is refused the announcement is attempted, the refusal is
    logged, and the store stays without the entry. *)
Lemma refused_publish_is_not_recorded :
  let live := [Examples.tournament "t1" "upcoming"] in
  let s1 := Sync.run_cycle (Examples.sync_env live (Raise NotFound) (Ok tt) (Ok 200))
              Examples.one_announced Store.Missing in
  let s2 := Sync.run_cycle (Examples.sync_env live (Ok tt) (Ok tt) (Raise Forbidden))
              (Sync.announced_tournaments s1) (Sync.disk s1) in
  Sync.announced_tournaments s1 !! Some "t1" = None /\
  Sync.is_live (Sync.status (Examples.tournament "t1" "upcoming")) = true /\
  Sync.trace s2 =
    [Sync.GetChampionships;
     Sync.SendMessage (Examples.tournament "t1" "upcoming")
       (Sync.Announcement (Examples.tournament "t1" "upcoming"));
     Sync.Print Sync.LogSendForbidden] /\
  Sync.announced_tournaments s2 !! Some "t1" = None.
Proof. vm_compute. repeat split. Qed.

(** A listing that names the tournament twice has the second item
    announced in the very cycle that dropped the entry at the first. *)
Lemma listed_twice_is_replaced_at_once :
  let live := Examples.tournament "t1" "upcoming" in
  let s1 := Sync.run_cycle (Examples.sync_env [live; live] (Raise NotFound) (Ok tt) (Ok 200))
              Examples.one_announced Store.Missing in
  Sync.SendMessage live (Sync.Announcement live) ∈ Sync.trace s1 /\
  Sync.announced_tournaments s1 !! Some "t1" = Some (Some 200).
Proof. vm_compute. split; [|reflexivity]. set_solver. Qed.

(** The write in the handler of the missing message is not guarded: when
    it fails, the entry is gone from memory but not from the file, and
    the exception ends the cycle, so that the items after this one are
    not handled. *)
Lemma failed_write_after_missing_message_ends_cycle :
  let gone := Examples.tournament "t1" "upcoming" in
  let fresh := Examples.tournament "t2" "upcoming" in
  let E := Examples.unwritable (Examples.sync_env [gone; fresh] (Raise NotFound) (Ok tt)
                                  (Ok 200)) in
  let s1 := Sync.run_cycle E Examples.one_announced
              (Store.Holds (Store.PDict Examples.one_announced)) in
  Sync.announced_tournaments s1 !! Some "t1" = None /\
  Store.load_announced_tournaments (Sync.disk s1) = Ok Examples.one_announced /\
  Sync.trace s1 =
    [Sync.GetChampionships;
     Sync.FetchMessage gone (Some 100);
     Sync.Print (Sync.LogMessageNotFound (Some "t1"));
     Sync.Save ∅;
     Sync.Print Sync.LogCycleError].
Proof. vm_compute. repeat split. Qed.

(** The announcement is rendered before the [try] of the send: an item
    the renderer cannot take (here its name is [null]) ends the cycle,
    and the live tournament listed after it is not announced. *)
Lemma unrenderable_item_ends_cycle :
  let fresh := Examples.tournament "t2" "upcoming" in
  let E := Examples.sync_env [Examples.nameless "t1" "upcoming"; fresh] (Ok tt) (Ok tt)
             (Ok 200) in
  Sync.create_championship_embed E (Examples.nameless "t1" "upcoming") =
    Raise AttributeError /\
  Sync.run_cycle E ∅ Store.Missing =
    {| Sync.announced_tournaments := ∅; Sync.disk := Store.Missing;
       Sync.trace := [Sync.GetChampionships; Sync.Print Sync.LogCycleError] |}.
Proof. vm_compute. repeat split. Qed.

Lemma is_final_not_live (status : string) :
  Sync.is_final status = true -> Sync.is_live status = false.
Proof.
  unfold Sync.is_final, Sync.is_live. intros H.
  apply orb_true_iff in H as [H | H]; apply String.eqb_eq in H; by subst.
Qed.

(** C2, as the code has it.  In a cycle that goes through its listing:
    when the stored message of an ended tournament is fetched, the final
    embed is rendered and the edit goes through, the cycle edits that
    message, sends nothing for the tournament and drops the entry; the
    file is in step if the store file can be written; and a second cycle
    over the same listing then makes no call for the tournament at
    all. *)
Theorem finished_tournament_is_finalised_once
    (E1 E2 : Sync.env) (announced : Store.store) (f : Store.file)
    (listing : list Sync.championship) (c : Sync.championship) (m : Store.msgid)
    (final_embed : Sync.embed) :
  let k := Sync.championship_id c in
  let s1 := Sync.run_cycle E1 announced f in
  let s2 := Sync.run_cycle E2 (Sync.announced_tournaments s1) (Sync.disk s1) in
  Sync.get_championships E1 = Some {| Sync.items := Some listing |} ->
  c ∈ listing ->
  NoDup (Sync.championship_id <$> listing) ->
  announced !! k = Some m ->
  Sync.is_final (Sync.status c) = true ->
  Sync.get_channel E1 = true ->
  Sync.fetch_message E1 m = Ok tt ->
  Sync.create_finished_embed c (Sync.get_championship_standings E1 k) = Ok final_embed ->
  Sync.edit E1 m final_embed = Ok tt ->
  Sync.ran_through s1 ->
  Sync.writes_succeed E1 ->
  (Sync.EditMessage c m final_embed ∈ Sync.trace s1 /\
   (forall ev, ev ∈ Sync.trace s1 -> Sync.concerns k ev ->
      ev ∈ [Sync.FetchMessage c m; Sync.GetStandings c; Sync.EditMessage c m final_embed]) /\
   Sync.announced_tournaments s1 !! k = None /\
   Sync.persisted s1) /\
  (Sync.get_championships E2 = Sync.get_championships E1 ->
   (forall ev, ev ∈ Sync.trace s2 -> ~ Sync.concerns k ev) /\
   Sync.announced_tournaments s2 !! k = None).
Proof.
  intros k s1 s2 Hl Hin Hnd Hk Hfin Hch Hf Hr He Hrun Hw. subst k.
  assert (H1 : Sync.EditMessage c m final_embed ∈ Sync.trace s1 /\
    (forall ev, ev ∈ Sync.trace s1 -> Sync.concerns (Sync.championship_id c) ev ->
       ev ∈ [Sync.FetchMessage c m; Sync.GetStandings c; Sync.EditMessage c m final_embed]) /\
    Sync.announced_tournaments s1 !! Sync.championship_id c = None /\
    Sync.persisted s1).
  { destruct (cycle_focus E1 announced f listing c Hl Hin Hnd)
      as (sA & evs1 & HkA & HtA & Hc1 & [(_ & _ & Hcut) | (evs2 & Hk' & Ht' & Hc2 & _ & Hp)]);
      [done|].
    fold s1 in Hk', Ht', Hp. rewrite Hk in HkA.
    destruct (process_finalize E1 c sA m final_embed HkA Hfin Hch Hf Hr He)
      as (_ & Hst & Hd & lines & Htr).
    rewrite Hst in Hk'. rewrite Htr in Ht'. repeat split.
    - rewrite Ht'. rewrite !elem_of_app, !elem_of_cons. left. right. left.
      right. right. by left.
    - intros ev Hev Hcon. rewrite Ht', HtA in Hev.
      trace_places Hev.
      decompose [or] Hev; clear Hev; subst; cbn in Hcon; try done;
        first [ set_solver
              | by exfalso; eauto using not_concerned_elem
              | exfalso;
                match goal with
                | H : Forall (fun ev => ~ Sync.concerns _ ev) ?evs, H' : _ ∈ ?evs |- _ =>
                    rewrite Forall_forall in H; by apply (H _ H')
                | H : exists _, _ = _ /\ _ |- _ =>
                    let l := fresh in let Heq := fresh in
                    destruct H as (l & Heq & _); subst; by cbn in Hcon
                end ].
    - rewrite Hk'. apply lookup_delete_eq.
    - apply Hp; [done|]. unfold Sync.persisted. rewrite Hd, Hst. by rewrite (Hw _). }
  split; [exact H1|].
  destruct H1 as (_ & _ & Hgone & _).
  intros Hsame. rewrite Hl in Hsame.
  destruct (cycle_focus E2 (Sync.announced_tournaments s1) (Sync.disk s1) listing c
              Hsame Hin Hnd)
    as (sA & evs1 & HkA & HtA & Hc1 &
        [(Hk' & Hnone & _) | (evs2 & Hk' & Ht' & Hc2 & _ & _)]);
    fold s2 in Hk'.
  - split; [exact Hnone | by rewrite Hk'].
  - fold s2 in Ht'. rewrite Hgone in HkA.
    rewrite (process_idle E2 c sA HkA (is_final_not_live _ Hfin)) in Hk', Ht'.
    cbn in Hk', Ht'. split.
    + intros ev Hev Hcon. rewrite Ht', HtA in Hev.
      trace_cases Hev Hcon.
    + by rewrite Hk', HkA.
Qed.

Lemma finished_tournament_is_finalised_once_witness :
  let ended := [Examples.tournament "t1" "finished"] in
  let E := Examples.sync_env ended (Ok tt) (Ok tt) (Ok 200) in
  let s1 := Sync.run_cycle E Examples.one_announced Store.Missing in
  Sync.announced_tournaments s1 !! Some "t1" = None /\
  Sync.announced_tournaments
    (Sync.run_cycle E (Sync.announced_tournaments s1) (Sync.disk s1)) !! Some "t1" = None.
Proof.
  intros ended E s1.
  assert (Hin : Examples.tournament "t1" "finished" ∈ ended)
    by (by apply list_elem_of_singleton).
  assert (Hnd : NoDup (Sync.championship_id <$> ended)) by apply NoDup_singleton.
  assert (Hrun : Sync.ran_through s1) by not_in_trace.
  destruct (finished_tournament_is_finalised_once E E Examples.one_announced Store.Missing
              ended (Examples.tournament "t1" "finished") (Some 100)
              (Sync.FinalResults (Examples.tournament "t1" "finished")
                 Sync.NoStandingsAvailable)
              eq_refl Hin Hnd eq_refl eq_refl eq_refl eq_refl eq_refl eq_refl Hrun
              (fun _ => eq_refl))
    as [(_ & _ & Hgone & _) Hnext].
  split; [exact Hgone|].
  exact (proj2 (Hnext eq_refl)).
Defined.

(** Fetching the message is not enough for the entry to go: when the
    edit is refused the entry stays, and a second cycle over the same
    listing edits again. *)
Lemma refused_edit_keeps_entry :
  let ended := Examples.tournament "t1" "finished" in
  let E := Examples.sync_env [ended] (Ok tt) (Raise Forbidden) (Ok 200) in
  let s1 := Sync.run_cycle E Examples.one_announced Store.Missing in
  let s2 := Sync.run_cycle E (Sync.announced_tournaments s1) (Sync.disk s1) in
  Sync.is_final (Sync.status ended) = true /\
  Sync.fetch_message E (Some 100) = Ok tt /\
  Sync.announced_tournaments s1 !! Some "t1" = Some (Some 100) /\
  Sync.trace s2 =
    [Sync.GetChampionships;
     Sync.FetchMessage ended (Some 100);
     Sync.GetStandings ended;
     Sync.EditMessage ended (Some 100) (Sync.FinalResults ended Sync.NoStandingsAvailable);
     Sync.Print Sync.LogEditForbidden].
Proof. vm_compute. repeat split. Qed.

(** The renderer of the final embed runs through [standings] itself:
    it takes a list of teams, while an answer that is an object (an
    envelope around the teams, say) is run through by its keys, which
    are texts and have no [get]. *)
Lemma standings_object_is_not_rendered (c : Sync.championship)
    (fields : list (string * json)) (name : string) (organizer : json) :
  Sync.as_text (Sync.field c "name" (JStr "N/A")) = Ok name ->
  get (Sync.field c "organizer" (JObj [])) "name" (JStr "N/A") = Ok organizer ->
  fields <> [] ->
  Sync.create_finished_embed c (JObj fields) = Raise AttributeError.
Proof.
  intros Hn Ho Hne. unfold Sync.create_finished_embed. rewrite Hn. cbn.
  unfold mbind, res_bind. cbn. rewrite Ho. cbn.
  destruct fields as [| [key v] rest]; [done|]. reflexivity.
Qed.

(** So when the standings request is answered with an object, no edit
    is made and the entry stays, cycle after cycle. *)
Lemma answered_standings_object_keeps_entry :
  let ended := Examples.tournament "t1" "finished" in
  let E := Examples.with_standings
             (JObj [("items", JArr [JObj [("leaderboard_name", JStr "Alpha");
                                          ("points", JNum 3)]])])
             (Examples.sync_env [ended] (Ok tt) (Ok tt) (Ok 200)) in
  let s1 := Sync.run_cycle E Examples.one_announced Store.Missing in
  Sync.announced_tournaments s1 !! Some "t1" = Some (Some 100) /\
  Sync.trace s1 =
    [Sync.GetChampionships;
     Sync.FetchMessage ended (Some 100);
     Sync.GetStandings ended;
     Sync.Print Sync.LogUpdateError].
Proof. vm_compute. repeat split. Qed.

(** A list of teams is rendered row by row, the first row included. *)
Lemma standings_list_is_rendered :
  let ended := Examples.tournament "t1" "finished" in
  Sync.create_finished_embed ended
    (JArr [JObj [("leaderboard_name", JStr "Alpha"); ("points", JNum 3)];
           JObj [("leaderboard_name", JStr "Beta")]]) =
  Ok (Sync.FinalResults ended
        (Sync.Leaderboard [(JStr "Alpha", JNum 3); (JStr "Beta", JStr "N/A")])).
Proof. reflexivity. Qed.
(** * Further properties of the code *)

(** ** The synchronisation loop: what a cycle leaves alone *)

(** A cycle either got no listing, and then only says so, or it is the
    loop over the listing it got. *)
Lemma run_cycle_cases (E : Sync.env) (announced : Store.store) (f : Store.file) :
  (Sync.run_cycle E announced f =
     {| Sync.announced_tournaments := announced; Sync.disk := f;
        Sync.trace := [Sync.GetChampionships; Sync.Print Sync.LogFetchFailed] |} /\
   forall listing, Sync.get_championships E <> Some {| Sync.items := Some listing |}) \/
  (exists listing,
     Sync.get_championships E = Some {| Sync.items := Some listing |} /\
     Sync.run_cycle E announced f =
       Sync.closing (Sync.loop E listing (Sync.started announced f))).
Proof.
  destruct (Sync.get_championships E) as [[[listing |]] |] eqn:Hl.
  - right. exists listing. split; [done|]. by apply run_cycle_listing.
  - left. split; [|done].
    unfold Sync.run_cycle, Sync.check_championships, Sync.print, Sync.emit. eff_unfold.
    cbn. by rewrite Hl.
  - left. split; [|done].
    unfold Sync.run_cycle, Sync.check_championships, Sync.print, Sync.emit. eff_unfold.
    cbn. by rewrite Hl.
Qed.

(** X1: when the listing cannot be had (the request gave [None], or the
    answer has no ['items']), the cycle logs the failure and touches
    neither the store, nor the file, nor the channel. *)
Theorem cycle_without_listing (E : Sync.env) (announced : Store.store) (f : Store.file) :
  Sync.get_championships E = None \/
  Sync.get_championships E = Some {| Sync.items := None |} ->
  Sync.run_cycle E announced f =
    {| Sync.announced_tournaments := announced; Sync.disk := f;
       Sync.trace := [Sync.GetChampionships; Sync.Print Sync.LogFetchFailed] |}.
Proof.
  intros H. destruct (run_cycle_cases E announced f) as [[Hrun _] | (listing & Hl & _)];
    [exact Hrun|].
  destruct H as [H | H]; rewrite H in Hl; discriminate.
Qed.

Lemma cycle_without_listing_witness :
  Sync.announced_tournaments
    (Sync.run_cycle Examples.api_down Examples.one_announced Store.Missing) =
  Examples.one_announced.
Proof.
  rewrite (cycle_without_listing Examples.api_down Examples.one_announced Store.Missing).
  - reflexivity.
  - left. reflexivity.
Defined.

(** X2: the loop never prunes: an entry whose tournament the listing
    does not name is the same after the cycle, whatever the
    collaborators answer. *)
Theorem unlisted_entry_is_kept (E : Sync.env) (announced : Store.store) (f : Store.file)
    (k : Store.key) :
  (forall listing, Sync.get_championships E = Some {| Sync.items := Some listing |} ->
                   k ∉ Sync.championship_id <$> listing) ->
  Sync.announced_tournaments (Sync.run_cycle E announced f) !! k = announced !! k.
Proof.
  intros Hk. destruct (run_cycle_cases E announced f) as [[-> _] | (listing & Hl & ->)];
    [done|].
  destruct (closing_spec (Sync.loop E listing (Sync.started announced f))) as (-> & _).
  rewrite loop_frame; [done|]. by apply Hk.
Qed.

Lemma unlisted_entry_is_kept_witness :
  Sync.announced_tournaments
    (Sync.run_cycle (Examples.sync_env [Examples.tournament "t2" "finished"]
                       (Raise NotFound) (Ok tt) (Ok 200))
       Examples.one_announced Store.Missing) !! Some "t1" = Some (Some 100).
Proof.
  rewrite (unlisted_entry_is_kept _ Examples.one_announced Store.Missing (Some "t1")).
  - reflexivity.
  - intros listing [= <-]. cbn. rewrite list_elem_of_singleton. discriminate.
Defined.

Lemma process_without_channel (E : Sync.env) (c : Sync.championship) (s : Sync.state) :
  Sync.get_channel E = false -> Sync.process E c s = (Ok tt, s).
Proof.
  intros Hch. sync_unfold. cbn. rewrite Hch.
  destruct (Sync.announced_tournaments s !! Sync.championship_id c); [done|].
  by destruct (Sync.is_live (Sync.status c)).
Qed.

Lemma loop_without_channel (E : Sync.env) (listing : list Sync.championship)
    (s : Sync.state) :
  Sync.get_channel E = false -> Sync.loop E listing s = (Ok tt, s).
Proof.
  intros Hch. revert s. induction listing as [| c rest IH]; intros s; [done|].
  by rewrite loop_cons, process_without_channel, IH.
Qed.

(** X3: while the announcement channel cannot be resolved, a cycle
    fetches the listing and does nothing else: no message is fetched,
    edited or sent, and store and file stay as they are. *)
Theorem cycle_without_channel (E : Sync.env) (announced : Store.store) (f : Store.file) :
  Sync.get_channel E = false ->
  Sync.announced_tournaments (Sync.run_cycle E announced f) = announced /\
  Sync.disk (Sync.run_cycle E announced f) = f /\
  forall ev k, ev ∈ Sync.trace (Sync.run_cycle E announced f) -> ~ Sync.concerns k ev.
Proof.
  intros Hch. destruct (run_cycle_cases E announced f) as [[-> _] | (listing & Hl & ->)].
  - split; [done|]. split; [done|]. intros ev k Hev Hcon. cbn in Hev.
    rewrite !elem_of_cons, elem_of_nil in Hev.
    destruct Hev as [-> | [-> | []]]; exact Hcon.
  - rewrite loop_without_channel by done. split; [done|]. split; [done|].
    intros ev k Hev Hcon. cbn in Hev. apply list_elem_of_singleton in Hev.
    subst. exact Hcon.
Qed.

Lemma cycle_without_channel_witness :
  Sync.announced_tournaments
    (Sync.run_cycle (Examples.no_channel [Examples.tournament "t1" "finished"])
       Examples.one_announced Store.Missing) = Examples.one_announced.
Proof.
  apply (cycle_without_channel (Examples.no_channel [Examples.tournament "t1" "finished"])
           Examples.one_announced Store.Missing).
  reflexivity.
Defined.

(** ** The synchronisation loop: store and file *)

Lemma process_saved (E : Sync.env) (c : Sync.championship) (s : Sync.state) :
  Sync.writes_succeed E ->
  (Sync.announced_tournaments (Sync.process E c s).2 = Sync.announced_tournaments s /\
   Sync.disk (Sync.process E c s).2 = Sync.disk s) \/
  Sync.persisted (Sync.process E c s).2.
Proof.
  unfold Sync.persisted, Sync.writes_succeed. intros Hw. sync_unfold. cbn.
  repeat (step; cbn);
    try match goal with
        | H : Sync.write E ?x = _ |- _ => rewrite (Hw x) in H; discriminate
        end;
    first [by left | by right].
Qed.

Lemma loop_saved (E : Sync.env) (listing : list Sync.championship) (s : Sync.state) :
  Sync.writes_succeed E ->
  (Sync.announced_tournaments (Sync.loop E listing s).2 = Sync.announced_tournaments s /\
   Sync.disk (Sync.loop E listing s).2 = Sync.disk s) \/
  Sync.persisted (Sync.loop E listing s).2.
Proof.
  intros Hw. revert s. induction listing as [| c rest IH]; intros s; [by left|].
  rewrite loop_cons.
  pose proof (process_saved E c s Hw) as Hc.
  pose proof (loop_persisted E rest (Sync.process E c s).2 Hw) as Hrest.
  specialize (IH (Sync.process E c s).2).
  destruct (Sync.process E c s).1; cbn; [|exact Hc].
  destruct Hc as [[Ha Hd] | Hp]; [|right; by apply Hrest].
  destruct IH as [[Ha' Hd'] | Hp']; [left | by right].
  by rewrite Ha', Hd'.
Qed.

(** X4: as long as the store file can be written, a cycle never leaves
    the file behind the store: either it changed neither, or the file it
    leaves loads back as the very store it leaves in memory, so that a
    restart resumes from it. *)
Theorem cycle_keeps_file_in_step (E : Sync.env) (announced : Store.store) (f : Store.file) :
  Sync.writes_succeed E ->
  (Sync.announced_tournaments (Sync.run_cycle E announced f) = announced /\
   Sync.disk (Sync.run_cycle E announced f) = f) \/
  Store.load_announced_tournaments (Sync.disk (Sync.run_cycle E announced f)) =
    Ok (Sync.announced_tournaments (Sync.run_cycle E announced f)).
Proof.
  intros Hw.
  destruct (run_cycle_cases E announced f) as [[-> _] | (listing & Hl & ->)]; [by left|].
  destruct (closing_spec (Sync.loop E listing (Sync.started announced f)))
    as (-> & -> & _).
  destruct (loop_saved E listing (Sync.started announced f) Hw) as [H | Hp]; [by left|].
  right. unfold Sync.persisted in Hp. by rewrite Hp.
Qed.

Lemma cycle_keeps_file_in_step_witness :
  let E := Examples.sync_env [Examples.tournament "t1" "finished"] (Ok tt) (Ok tt) (Ok 200) in
  Store.load_announced_tournaments
    (Sync.disk (Sync.run_cycle E Examples.one_announced Store.Missing)) =
  Ok (Sync.announced_tournaments (Sync.run_cycle E Examples.one_announced Store.Missing)).
Proof.
  intros E.
  destruct (cycle_keeps_file_in_step E Examples.one_announced Store.Missing
              (fun _ => eq_refl)) as [[_ Hd] | Hload]; [|exact Hload].
  vm_compute in Hd. discriminate Hd.
Defined.

(** When the file cannot be written, the store in memory moves on and
    the file stays behind: a restart would bring back the entry that
    was dropped. *)
Lemma unwritable_file_stays_behind :
  let ended := Examples.tournament "t1" "finished" in
  let E := Examples.unwritable (Examples.sync_env [ended] (Ok tt) (Ok tt) (Ok 200)) in
  let s1 := Sync.run_cycle E Examples.one_announced
              (Store.Holds (Store.PDict Examples.one_announced)) in
  Sync.announced_tournaments s1 !! Some "t1" = None /\
  Store.load_announced_tournaments (Sync.disk s1) = Ok Examples.one_announced /\
  last (Sync.trace s1) = Some (Sync.Print Sync.LogUpdateError).
Proof. vm_compute. repeat split. Qed.

(** *** One listing item, further cases *)

Lemma is_live_not_final (status : string) :
  Sync.is_live status = true -> Sync.is_final status = false.
Proof.
  unfold Sync.is_final, Sync.is_live. intros H.
  apply orb_true_iff in H as [H | H]; apply String.eqb_eq in H; by subst.
Qed.

(** A known tournament that has not ended is looked up and left alone. *)
Lemma process_still_running (E : Sync.env) (c : Sync.championship) (s : Sync.state)
    (m : Store.msgid) :
  Sync.announced_tournaments s !! Sync.championship_id c = Some m ->
  Sync.is_final (Sync.status c) = false ->
  Sync.get_channel E = true ->
  Sync.fetch_message E m = Ok tt ->
  Sync.process E c s =
    (Ok tt,
     {| Sync.announced_tournaments := Sync.announced_tournaments s;
        Sync.disk := Sync.disk s;
        Sync.trace := Sync.trace s ++ [Sync.FetchMessage c m] |}).
Proof.
  intros Hk Hfin Hch Hf. sync_unfold. cbn. rewrite Hk, Hch. cbn. rewrite Hf. cbn.
  by rewrite Hfin.
Qed.

(** The fetch fails for another reason than a missing message: the
    entry stays. *)
Lemma process_fetch_error (E : Sync.env) (c : Sync.championship) (s : Sync.state)
    (m : Store.msgid) (e : exn) :
  Sync.announced_tournaments s !! Sync.championship_id c = Some m ->
  Sync.get_channel E = true ->
  Sync.fetch_message E m = Raise e ->
  e <> NotFound ->
  Sync.process E c s =
    (Ok tt,
     {| Sync.announced_tournaments := Sync.announced_tournaments s;
        Sync.disk := Sync.disk s;
        Sync.trace := Sync.trace s ++
          [Sync.FetchMessage c m;
           Sync.Print (if decide (e = Forbidden) then Sync.LogEditForbidden
                       else Sync.LogUpdateError)] |}).
Proof.
  intros Hk Hch Hf He. sync_unfold. cbn. rewrite Hk, Hch. cbn. rewrite Hf. cbn.
  destruct e; try done; cbn; by rewrite <- app_assoc.
Qed.

(** The message vanishes between the fetch and the edit: the entry is
    dropped all the same. *)
Lemma process_edit_not_found (E : Sync.env) (c : Sync.championship) (s : Sync.state)
    (m : Store.msgid) (final_embed : Sync.embed) :
  let k := Sync.championship_id c in
  let store' := delete k (Sync.announced_tournaments s) in
  Sync.announced_tournaments s !! k = Some m ->
  Sync.is_final (Sync.status c) = true ->
  Sync.get_channel E = true ->
  Sync.fetch_message E m = Ok tt ->
  Sync.create_finished_embed c (Sync.get_championship_standings E k) = Ok final_embed ->
  Sync.edit E m final_embed = Raise NotFound ->
  Sync.process E c s =
    ((Store.save_announced_tournaments (Sync.write E store') store' (Sync.disk s)).1,
     {| Sync.announced_tournaments := store';
        Sync.disk := (Store.save_announced_tournaments (Sync.write E store') store'
                        (Sync.disk s)).2;
        Sync.trace := Sync.trace s ++
          [Sync.FetchMessage c m; Sync.GetStandings c; Sync.EditMessage c m final_embed;
           Sync.Print (Sync.LogMessageNotFound k); Sync.Save store'] |}).
Proof.
  intros k store' Hk Hfin Hch Hf Hr He. subst k store'. sync_unfold. cbn.
  rewrite Hk, Hch. cbn. rewrite Hf. cbn. rewrite Hfin. cbn. rewrite Hr. cbn.
  rewrite He. cbn. rewrite Hk. cbn. rewrite <- !app_assoc.
  by destruct (Sync.write E _).
Qed.

(** X5: a stored tournament that has not ended is only looked up: when
    the listing names it once and its message is there, the cycle makes
    the fetch and no other call for it, and its entry stays. *)
Theorem running_tournament_is_left_alone
    (E : Sync.env) (announced : Store.store) (f : Store.file)
    (listing : list Sync.championship) (c : Sync.championship) (m : Store.msgid) :
  let k := Sync.championship_id c in
  let s1 := Sync.run_cycle E announced f in
  Sync.get_championships E = Some {| Sync.items := Some listing |} ->
  c ∈ listing ->
  NoDup (Sync.championship_id <$> listing) ->
  announced !! k = Some m ->
  Sync.is_final (Sync.status c) = false ->
  Sync.get_channel E = true ->
  Sync.fetch_message E m = Ok tt ->
  Sync.announced_tournaments s1 !! k = Some m /\
  (forall ev, ev ∈ Sync.trace s1 -> Sync.concerns k ev -> ev = Sync.FetchMessage c m).
Proof.
  intros k s1 Hl Hin Hnd Hk Hfin Hch Hf. subst k.
  destruct (cycle_focus E announced f listing c Hl Hin Hnd)
    as (sA & evs1 & HkA & HtA & Hc1 &
        [(Hk' & Hnone & _) | (evs2 & Hk' & Ht' & Hc2 & _ & _)]);
    fold s1 in Hk'.
  - split; [by rewrite Hk' | intros ev Hev Hcon; by destruct (Hnone ev Hev)].
  - fold s1 in Ht'. rewrite Hk in HkA.
    rewrite (process_still_running E c sA m HkA Hfin Hch Hf) in Hk', Ht'.
    cbn in Hk', Ht'. split.
    + by rewrite Hk', HkA.
    + intros ev Hev Hcon. rewrite Ht', HtA in Hev. trace_cases Hev Hcon.
Qed.

Lemma running_tournament_is_left_alone_witness :
  let live := Examples.tournament "t1" "upcoming" in
  Sync.announced_tournaments
    (Sync.run_cycle (Examples.sync_env [live] (Ok tt) (Ok tt) (Ok 200))
       Examples.one_announced Store.Missing) !! Some "t1" = Some (Some 100).
Proof.
  intros live.
  assert (Hin : live ∈ [live]) by (by apply list_elem_of_singleton).
  assert (Hnd : NoDup (Sync.championship_id <$> [live])) by apply NoDup_singleton.
  exact (proj1 (running_tournament_is_left_alone
                  (Examples.sync_env [live] (Ok tt) (Ok tt) (Ok 200))
                  Examples.one_announced Store.Missing [live] live (Some 100)
                  eq_refl Hin Hnd eq_refl eq_refl eq_refl eq_refl)).
Defined.

(** X6: a fetch that fails for any reason other than a missing message
    (no permission, a server error) costs nothing: the entry stays, and
    no edit or send is made for the tournament. *)
Theorem failed_fetch_keeps_entry
    (E : Sync.env) (announced : Store.store) (f : Store.file)
    (listing : list Sync.championship) (c : Sync.championship) (m : Store.msgid)
    (e : exn) :
  let k := Sync.championship_id c in
  let s1 := Sync.run_cycle E announced f in
  Sync.get_championships E = Some {| Sync.items := Some listing |} ->
  c ∈ listing ->
  NoDup (Sync.championship_id <$> listing) ->
  announced !! k = Some m ->
  Sync.get_channel E = true ->
  Sync.fetch_message E m = Raise e ->
  e <> NotFound ->
  Sync.announced_tournaments s1 !! k = Some m /\
  (forall ev, ev ∈ Sync.trace s1 -> Sync.concerns k ev -> ev = Sync.FetchMessage c m).
Proof.
  intros k s1 Hl Hin Hnd Hk Hch Hf He. subst k.
  destruct (cycle_focus E announced f listing c Hl Hin Hnd)
    as (sA & evs1 & HkA & HtA & Hc1 &
        [(Hk' & Hnone & _) | (evs2 & Hk' & Ht' & Hc2 & _ & _)]);
    fold s1 in Hk'.
  - split; [by rewrite Hk' | intros ev Hev Hcon; by destruct (Hnone ev Hev)].
  - fold s1 in Ht'. rewrite Hk in HkA.
    rewrite (process_fetch_error E c sA m e HkA Hch Hf He) in Hk', Ht'.
    cbn in Hk', Ht'. split.
    + by rewrite Hk', HkA.
    + intros ev Hev Hcon. rewrite Ht', HtA in Hev. trace_cases Hev Hcon.
Qed.

Lemma failed_fetch_keeps_entry_witness :
  let live := Examples.tournament "t1" "finished" in
  Sync.announced_tournaments
    (Sync.run_cycle (Examples.sync_env [live] (Raise Forbidden) (Ok tt) (Ok 200))
       Examples.one_announced Store.Missing) !! Some "t1" = Some (Some 100).
Proof.
  intros live.
  assert (Hin : live ∈ [live]) by (by apply list_elem_of_singleton).
  assert (Hnd : NoDup (Sync.championship_id <$> [live])) by apply NoDup_singleton.
  assert (Hne : Forbidden <> NotFound) by discriminate.
  exact (proj1 (failed_fetch_keeps_entry
                  (Examples.sync_env [live] (Raise Forbidden) (Ok tt) (Ok 200))
                  Examples.one_announced Store.Missing [live] live (Some 100) Forbidden
                  eq_refl Hin Hnd eq_refl eq_refl eq_refl Hne)).
Defined.

(** X7: when the message of an ended tournament disappears between the
    fetch and the edit, the edit's [NotFound] is handled like the
    fetch's: in a cycle that goes through its listing and can write the
    store file, once the final embed has been rendered, the entry is
    dropped and the store saved. *)
Theorem message_lost_before_edit_drops_entry
    (E : Sync.env) (announced : Store.store) (f : Store.file)
    (listing : list Sync.championship) (c : Sync.championship) (m : Store.msgid)
    (final_embed : Sync.embed) :
  let k := Sync.championship_id c in
  let s1 := Sync.run_cycle E announced f in
  Sync.get_championships E = Some {| Sync.items := Some listing |} ->
  c ∈ listing ->
  NoDup (Sync.championship_id <$> listing) ->
  announced !! k = Some m ->
  Sync.is_final (Sync.status c) = true ->
  Sync.get_channel E = true ->
  Sync.fetch_message E m = Ok tt ->
  Sync.create_finished_embed c (Sync.get_championship_standings E k) = Ok final_embed ->
  Sync.edit E m final_embed = Raise NotFound ->
  Sync.ran_through s1 ->
  Sync.writes_succeed E ->
  Sync.announced_tournaments s1 !! k = None /\
  Sync.persisted s1 /\
  Sync.Print (Sync.LogMessageNotFound k) ∈ Sync.trace s1.
Proof.
  intros k s1 Hl Hin Hnd Hk Hfin Hch Hf Hr He Hrun Hw. subst k.
  destruct (cycle_focus E announced f listing c Hl Hin Hnd)
    as (sA & evs1 & HkA & HtA & Hc1 & [(_ & _ & Hcut) | (evs2 & Hk' & Ht' & Hc2 & _ & Hp)]);
    [done|].
  fold s1 in Hk', Ht', Hp. rewrite Hk in HkA.
  rewrite (process_edit_not_found E c sA m final_embed HkA Hfin Hch Hf Hr He)
    in Hk', Ht', Hp.
  rewrite (Hw _) in Hk', Ht', Hp. cbn in Hk', Ht', Hp. repeat split.
  - rewrite Hk'. apply lookup_delete_eq.
  - by apply Hp.
  - rewrite Ht'. rewrite !elem_of_app, !elem_of_cons. left. right. do 3 right. by left.
Qed.

Lemma message_lost_before_edit_drops_entry_witness :
  let ended := Examples.tournament "t1" "cancelled" in
  Sync.announced_tournaments
    (Sync.run_cycle (Examples.sync_env [ended] (Ok tt) (Raise NotFound) (Ok 200))
       Examples.one_announced Store.Missing) !! Some "t1" = None.
Proof.
  intros ended.
  assert (Hin : ended ∈ [ended]) by (by apply list_elem_of_singleton).
  assert (Hnd : NoDup (Sync.championship_id <$> [ended])) by apply NoDup_singleton.
  assert (Hrun : Sync.ran_through
                   (Sync.run_cycle (Examples.sync_env [ended] (Ok tt) (Raise NotFound) (Ok 200))
                      Examples.one_announced Store.Missing)) by not_in_trace.
  exact (proj1 (message_lost_before_edit_drops_entry
                  (Examples.sync_env [ended] (Ok tt) (Raise NotFound) (Ok 200))
                  Examples.one_announced Store.Missing [ended] ended (Some 100)
                  (Sync.FinalResults ended Sync.NoStandingsAvailable)
                  eq_refl Hin Hnd eq_refl eq_refl eq_refl eq_refl eq_refl eq_refl Hrun
                  (fun _ => eq_refl))).
Defined.

(** X8: a tournament is announced once: after a cycle that went through
    its listing and published it, a cycle over the same listing finds
    the message, sends nothing more for the tournament, and keeps the
    entry. *)
Theorem announced_tournament_is_not_announced_again
    (E1 E2 : Sync.env) (announced : Store.store) (f : Store.file)
    (listing : list Sync.championship) (c : Sync.championship)
    (embed : Sync.embed) (m' : Z) :
  let k := Sync.championship_id c in
  let s1 := Sync.run_cycle E1 announced f in
  let s2 := Sync.run_cycle E2 (Sync.announced_tournaments s1) (Sync.disk s1) in
  Sync.get_championships E1 = Some {| Sync.items := Some listing |} ->
  c ∈ listing ->
  NoDup (Sync.championship_id <$> listing) ->
  announced !! k = None ->
  Sync.is_live (Sync.status c) = true ->
  Sync.get_channel E1 = true ->
  Sync.create_championship_embed E1 c = Ok embed ->
  Sync.send E1 embed = Ok m' ->
  Sync.ran_through s1 ->
  Sync.get_championships E2 = Sync.get_championships E1 ->
  Sync.get_channel E2 = true ->
  Sync.fetch_message E2 (Some m') = Ok tt ->
  (forall ev, ev ∈ Sync.trace s1 -> Sync.concerns k ev -> ev = Sync.SendMessage c embed) /\
  Sync.announced_tournaments s1 !! k = Some (Some m') /\
  (forall ev, ev ∈ Sync.trace s2 -> Sync.concerns k ev ->
              ev = Sync.FetchMessage c (Some m')) /\
  Sync.announced_tournaments s2 !! k = Some (Some m').
Proof.
  intros k s1 s2 Hl Hin Hnd Hk Hlive Hch Hr Hsend Hrun Hl2 Hch2 Hf2. subst k.
  assert (H1 : (forall ev, ev ∈ Sync.trace s1 -> Sync.concerns (Sync.championship_id c) ev ->
                           ev = Sync.SendMessage c embed) /\
               Sync.announced_tournaments s1 !! Sync.championship_id c = Some (Some m')).
  { destruct (cycle_focus E1 announced f listing c Hl Hin Hnd)
      as (sA & evs1 & HkA & HtA & Hc1 & [(_ & _ & Hcut) | (evs2 & Hk' & Ht' & Hc2 & _ & _)]);
      [done|].
    fold s1 in Hk', Ht'. rewrite Hk in HkA.
    destruct (process_announce E1 c sA embed m' HkA Hlive Hch Hr Hsend)
      as (_ & Hst & _ & line & Htr).
    rewrite Hst in Hk'. rewrite Htr in Ht'. split.
    - intros ev Hev Hcon. rewrite Ht', HtA in Hev. trace_cases Hev Hcon.
    - rewrite Hk'. apply lookup_insert_eq. }
  destruct H1 as [Hev1 Hk1]. split; [exact Hev1|]. split; [exact Hk1|].
  rewrite Hl in Hl2.
  destruct (cycle_focus E2 (Sync.announced_tournaments s1) (Sync.disk s1) listing c
              Hl2 Hin Hnd)
    as (sA & evs1 & HkA & HtA & Hc1 &
        [(Hk' & Hnone & _) | (evs2 & Hk' & Ht' & Hc2 & _ & _)]);
    fold s2 in Hk'.
  - split; [intros ev Hev Hcon; by destruct (Hnone ev Hev) | by rewrite Hk'].
  - fold s2 in Ht'. rewrite Hk1 in HkA.
    rewrite (process_still_running E2 c sA (Some m') HkA (is_live_not_final _ Hlive)
               Hch2 Hf2) in Hk', Ht'.
    cbn in Hk', Ht'. split.
    + intros ev Hev Hcon. rewrite Ht', HtA in Hev. trace_cases Hev Hcon.
    + by rewrite Hk', HkA.
Qed.

Lemma announced_tournament_is_not_announced_again_witness :
  let live := Examples.tournament "t1" "in_progress" in
  let E := Examples.sync_env [live] (Ok tt) (Ok tt) (Ok 200) in
  let s1 := Sync.run_cycle E ∅ Store.Missing in
  Sync.announced_tournaments
    (Sync.run_cycle E (Sync.announced_tournaments s1) (Sync.disk s1)) !! Some "t1" =
  Some (Some 200).
Proof.
  intros live E s1.
  assert (Hin : live ∈ [live]) by (by apply list_elem_of_singleton).
  assert (Hnd : NoDup (Sync.championship_id <$> [live])) by apply NoDup_singleton.
  assert (Hrun : Sync.ran_through s1) by not_in_trace.
  exact (proj2 (proj2 (proj2 (announced_tournament_is_not_announced_again
                  E E ∅ Store.Missing [live] live (Sync.Announcement live) 200
                  eq_refl Hin Hnd eq_refl eq_refl eq_refl eq_refl eq_refl Hrun
                  eq_refl eq_refl eq_refl)))).
Defined.

(** *** Where entries come from *)

Lemma process_growth (E : Sync.env) (c : Sync.championship) (s : Sync.state)
    (k : Store.key) (v : Store.msgid) :
  Sync.announced_tournaments (Sync.process E c s).2 !! k = Some v ->
  Sync.announced_tournaments s !! k = Some v \/
  (k = Sync.championship_id c /\
   Sync.is_live (Sync.status c) = true /\
   exists embed m,
     Sync.create_championship_embed E c = Ok embed /\
     Sync.send E embed = Ok m /\ v = Some m).
Proof.
  sync_unfold. cbn.
  repeat (step; cbn); intros H; try (by left);
    try (apply lookup_delete_Some in H as [_ H]; by left);
    (apply lookup_insert_Some in H as [[<- <-] | [_ H]]; [right | by left]);
    (split; [done|]); (split; [done|]); by eexists _, _.
Qed.

Lemma loop_growth (E : Sync.env) (listing : list Sync.championship) (s : Sync.state)
    (k : Store.key) (v : Store.msgid) :
  Sync.announced_tournaments (Sync.loop E listing s).2 !! k = Some v ->
  Sync.announced_tournaments s !! k = Some v \/
  (exists c, c ∈ listing /\ Sync.championship_id c = k /\
             Sync.is_live (Sync.status c) = true /\
             exists embed m,
               Sync.create_championship_embed E c = Ok embed /\
               Sync.send E embed = Ok m /\ v = Some m).
Proof.
  revert s. induction listing as [| c rest IH]; intros s H; [by left|].
  rewrite loop_cons in H.
  assert (Hc : Sync.announced_tournaments (Sync.process E c s).2 !! k = Some v ->
               Sync.announced_tournaments s !! k = Some v \/
               (exists c0, c0 ∈ c :: rest /\ Sync.championship_id c0 = k /\
                  Sync.is_live (Sync.status c0) = true /\
                  exists embed m,
                    Sync.create_championship_embed E c0 = Ok embed /\
                    Sync.send E embed = Ok m /\ v = Some m)).
  { intros H'. destruct (process_growth E c s k v H') as [Hs | (-> & Hlive & Hm)];
      [by left|]. right. exists c. split; [by left | done]. }
  destruct (Sync.process E c s).1; cbn in H; [|by apply Hc].
  destruct (IH _ H) as [H' | (c' & Hin & Hrest)]; [by apply Hc|].
  right. exists c'. split; [by right | done].
Qed.

(** X9: entries come from nowhere but a publish: an entry found in the
    store after a cycle was there before the cycle with the same
    message, or it belongs to a listed tournament with a live status
    whose announcement was rendered and sent in this cycle, and is
    recorded with the identifier the send returned. *)
Theorem entries_come_from_publishing
    (E : Sync.env) (announced : Store.store) (f : Store.file)
    (k : Store.key) (v : Store.msgid) :
  Sync.announced_tournaments (Sync.run_cycle E announced f) !! k = Some v ->
  announced !! k = Some v \/
  (exists listing c embed m,
     Sync.get_championships E = Some {| Sync.items := Some listing |} /\
     c ∈ listing /\ Sync.championship_id c = k /\
     Sync.is_live (Sync.status c) = true /\
     Sync.create_championship_embed E c = Ok embed /\
     Sync.send E embed = Ok m /\ v = Some m).
Proof.
  destruct (run_cycle_cases E announced f) as [[-> _] | (listing & Hl & ->)];
    [by left|].
  destruct (closing_spec (Sync.loop E listing (Sync.started announced f))) as (-> & _).
  intros H.
  destruct (loop_growth E listing _ k v H)
    as [H' | (c & Hin & Hk & Hlive & embed & m & Hr & Hm & ->)]; [by left|].
  right. by exists listing, c, embed, m.
Qed.

Lemma entries_come_from_publishing_witness :
  let live := Examples.tournament "t1" "upcoming" in
  let E := Examples.sync_env [live] (Ok tt) (Ok tt) (Ok 200) in
  (∅ : Store.store) !! Some "t1" = Some (Some 200) \/
  (exists listing c embed m,
     Sync.get_championships E = Some {| Sync.items := Some listing |} /\
     c ∈ listing /\ Sync.championship_id c = Some "t1" /\
     Sync.is_live (Sync.status c) = true /\
     Sync.create_championship_embed E c = Ok embed /\
     Sync.send E embed = Ok m /\ Some 200 = Some m).
Proof.
  intros live E.
  apply (entries_come_from_publishing E ∅ Store.Missing (Some "t1") (Some 200)).
  reflexivity.
Defined.

(** *** No item is skipped, unless the cycle is cut short *)

Lemma process_known_fetches (E : Sync.env) (c : Sync.championship) (s : Sync.state)
    (m : Store.msgid) :
  Sync.announced_tournaments s !! Sync.championship_id c = Some m ->
  Sync.get_channel E = true ->
  exists evs, Sync.trace (Sync.process E c s).2 = Sync.trace s ++ Sync.FetchMessage c m :: evs.
Proof.
  intros Hk Hch. sync_unfold. cbn. rewrite Hk, Hch. cbn.
  repeat (step; cbn); rewrite <- ?app_assoc; cbn; by eexists.
Qed.

Lemma process_unknown_live_sends (E : Sync.env) (c : Sync.championship) (s : Sync.state) :
  Sync.announced_tournaments s !! Sync.championship_id c = None ->
  Sync.is_live (Sync.status c) = true ->
  Sync.get_channel E = true ->
  (Sync.process E c s).1 = Ok tt ->
  exists embed evs,
    Sync.create_championship_embed E c = Ok embed /\
    Sync.trace (Sync.process E c s).2 = Sync.trace s ++ Sync.SendMessage c embed :: evs.
Proof.
  intros Hk Hlive Hch. sync_unfold. cbn. rewrite Hk, Hlive, Hch. cbn.
  repeat (step; cbn); rewrite <- ?app_assoc; cbn; intros Hok; try discriminate;
    by eexists _, _.
Qed.

(** What can end a cycle before the end of its listing: the renderer of
    an announcement, called before the [try] of the send, or the write
    that follows the removal of an entry whose message is gone. *)
Lemma process_raises (E : Sync.env) (c : Sync.championship) (s : Sync.state) (e : exn) :
  (Sync.process E c s).1 = Raise e ->
  Sync.get_channel E = true /\
  ((Sync.announced_tournaments s !! Sync.championship_id c = None /\
    Sync.is_live (Sync.status c) = true /\
    Sync.create_championship_embed E c = Raise e) \/
   (exists m, Sync.announced_tournaments s !! Sync.championship_id c = Some m /\
      Sync.write E (delete (Sync.championship_id c) (Sync.announced_tournaments s))
        <> Store.Written /\
      e = OSError /\
      Sync.Print (Sync.LogMessageNotFound (Sync.championship_id c)) ∈
        Sync.trace (Sync.process E c s).2)).
Proof.
  sync_unfold. cbn.
  repeat (step; cbn); intros H; try discriminate; injection H as <-;
    (split; [done|]);
    first [ by left
          | right; eexists; split; [reflexivity|]; split; [congruence|]; split; [done|];
            rewrite <- ?app_assoc; cbn;
            rewrite !elem_of_app, !elem_of_cons; tauto ].
Qed.

(** X10: in a cycle that goes through its listing no item is skipped,
    whatever the collaborators answer for the others (refusals, errors,
    missing messages): a tournament the listing names once has its
    stored message fetched if it has an entry, and its announcement
    rendered and sent if it has none and its status is live. *)
Theorem every_listed_tournament_is_handled
    (E : Sync.env) (announced : Store.store) (f : Store.file)
    (listing : list Sync.championship) (c : Sync.championship) :
  let k := Sync.championship_id c in
  let s1 := Sync.run_cycle E announced f in
  Sync.get_championships E = Some {| Sync.items := Some listing |} ->
  c ∈ listing ->
  NoDup (Sync.championship_id <$> listing) ->
  Sync.get_channel E = true ->
  Sync.ran_through s1 ->
  (forall m, announced !! k = Some m -> Sync.FetchMessage c m ∈ Sync.trace s1) /\
  (announced !! k = None -> Sync.is_live (Sync.status c) = true ->
   exists embed,
     Sync.create_championship_embed E c = Ok embed /\
     Sync.SendMessage c embed ∈ Sync.trace s1).
Proof.
  intros k s1 Hl Hin Hnd Hch Hrun. subst k.
  destruct (cycle_focus E announced f listing c Hl Hin Hnd)
    as (sA & evs1 & HkA & HtA & Hc1 & [(_ & _ & Hcut) | (evs2 & Hk' & Ht' & Hc2 & Hok & _)]);
    [done|].
  fold s1 in Ht', Hok. split.
  - intros m Hk. destruct (process_known_fetches E c sA m) as [evs Hevs];
      [by rewrite HkA | done |].
    rewrite Ht', Hevs. rewrite !elem_of_app, elem_of_cons. left. right. by left.
  - intros Hk Hlive.
    destruct (process_unknown_live_sends E c sA) as (embed & evs & Hr & Hevs);
      [by rewrite HkA | done | done | by apply Hok |].
    exists embed. split; [done|].
    rewrite Ht', Hevs. rewrite !elem_of_app, elem_of_cons. left. right. by left.
Qed.

Lemma every_listed_tournament_is_handled_witness :
  let live := Examples.tournament "t1" "upcoming" in
  let other := Examples.tournament "t2" "finished" in
  Sync.FetchMessage live (Some 100) ∈
    Sync.trace (Sync.run_cycle
                  (Examples.sync_env [other; live] (Raise Forbidden) (Ok tt) (Ok 200))
                  Examples.one_announced Store.Missing).
Proof.
  intros live other.
  assert (Hin : live ∈ [other; live]) by (right; by left).
  assert (Hnd : NoDup (Sync.championship_id <$> [other; live])).
  { apply NoDup_cons. split; [|apply NoDup_singleton].
    cbn. rewrite list_elem_of_singleton. discriminate. }
  assert (Hrun : Sync.ran_through
                   (Sync.run_cycle
                      (Examples.sync_env [other; live] (Raise Forbidden) (Ok tt) (Ok 200))
                      Examples.one_announced Store.Missing)) by not_in_trace.
  exact (proj1 (every_listed_tournament_is_handled
                  (Examples.sync_env [other; live] (Raise Forbidden) (Ok tt) (Ok 200))
                  Examples.one_announced Store.Missing [other; live] live
                  eq_refl Hin Hnd eq_refl Hrun) (Some 100) eq_refl).
Defined.

(** X30: what it takes for a cycle to go through its listing: that the
    announcement of every live tournament of the listing can be
    rendered, and that the store file can be written.  Refusals and
    errors of the chat platform or of the standings request do not end
    a cycle. *)
Theorem cycle_runs_through (E : Sync.env) (announced : Store.store) (f : Store.file) :
  (forall listing c,
     Sync.get_championships E = Some {| Sync.items := Some listing |} ->
     c ∈ listing -> Sync.is_live (Sync.status c) = true ->
     exists embed, Sync.create_championship_embed E c = Ok embed) ->
  Sync.writes_succeed E ->
  Sync.ran_through (Sync.run_cycle E announced f).
Proof.
  intros Hrender Hw. unfold Sync.ran_through.
  destruct (run_cycle_cases E announced f) as [[-> _] | (listing & Hl & ->)].
  - cbn. intros H. trace_places H. by decompose [or] H.
  - assert (Hloop : forall l s, (forall c, c ∈ l -> c ∈ listing) ->
                      (Sync.loop E l s).1 = Ok tt).
    { induction l as [| c rest IH]; intros s Hsub; [done|].
      rewrite loop_cons.
      destruct (Sync.process E c s).1 as [[] | e] eqn:Hp.
      - apply IH. intros c' Hc'. apply Hsub. by right.
      - exfalso. destruct (process_raises E c s e Hp) as (_ & [(_ & Hlive & Hr) | Hwr]).
        + destruct (Hrender listing c Hl (Hsub c ltac:(by left)) Hlive) as [embed He].
          congruence.
        + destruct Hwr as (m & _ & Hne & _). by apply Hne. }
    specialize (Hloop listing (Sync.started announced f) (fun _ H => H)).
    destruct (loop_trace E listing (Sync.started announced f)) as (evs & Ht & Hc).
    unfold Sync.closing. rewrite Hloop, Ht. cbn. intros H.
    apply elem_of_cons in H as [H | H]; [discriminate|].
    rewrite Forall_forall in Hc. by destruct (Hc _ H) as [_ Hne].
Qed.

Lemma cycle_runs_through_witness :
  Sync.ran_through
    (Sync.run_cycle (Examples.sync_env [Examples.tournament "t1" "upcoming"] (Ok tt) (Ok tt)
                       (Raise Forbidden))
       ∅ Store.Missing).
Proof.
  apply cycle_runs_through.
  - intros listing c [= <-] Hin _. apply list_elem_of_singleton in Hin as ->.
    by eexists.
  - intros s. reflexivity.
Defined.

(** ** The request primitive: pacing, success, one request per call *)

(** X11: two consecutive requests are stamped at least the rate-limit
    delay apart, provided the loop clock does not run backwards and the
    sleep lasts as long as asked. *)
Theorem consecutive_calls_are_spaced {request : Type}
    (E : Api.env request) (c : Api.client) (req : request) :
  Api.time_before E <= Api.time_after E ->
  (forall d, Api.Sleep d ∈ (Api._rate_limited_request E c req).2 ->
             Api.time_before E + d <= Api.time_after E) ->
  Api.last_api_call c + Api.rate_limit_delay <=
    Api.last_api_call (Api._rate_limited_request E c req).1.2.
Proof.
  unfold Api._rate_limited_request.
  destruct (Api.guarded E req) as [r ev3].
  destruct (Api.client_session c); cbn;
    destruct (Api.time_before E - Api.last_api_call c <? Api.rate_limit_delay) eqn:Hlt;
    intros Hmono Hsleep;
    first [ apply Z.ltb_ge in Hlt; lia
          | specialize (Hsleep (Api.rate_limit_delay - (Api.time_before E - Api.last_api_call c)));
            cbn in Hsleep;
            assert (Api.time_before E +
                    (Api.rate_limit_delay - (Api.time_before E - Api.last_api_call c))
                    <= Api.time_after E) by (apply Hsleep; set_solver);
            lia ].
Qed.

Lemma consecutive_calls_are_spaced_witness :
  Api.last_api_call Examples.recent_client + Api.rate_limit_delay <=
    Api.last_api_call (Api._rate_limited_request Examples.answering_env Examples.recent_client tt).1.2.
Proof.
  apply (consecutive_calls_are_spaced Examples.answering_env Examples.recent_client tt).
  - vm_compute. discriminate.
  - intros d Hd. vm_compute in Hd.
    apply elem_of_cons in Hd as [[= ->] | Hd]; [vm_compute; discriminate|].
    apply elem_of_cons in Hd as [Hd | Hd]; [discriminate|].
    by apply elem_of_nil in Hd.
Defined.

(** X12: a call answered with a status below 400 and a body that
    decodes returns that body, and prints no failure line. *)
Theorem answered_call_returns_body {request : Type}
    (E : Api.env request) (c : Api.client) (req : request)
    (r : Api.response) (v : json) :
  Api.http E req = Ok r ->
  Api.status r < 400 ->
  Api.json_body r = Ok v ->
  (Api._rate_limited_request E c req).1.1 = Ok v /\
  forall l, Api.Print l ∈ (Api._rate_limited_request E c req).2 -> l = Api.LogSessionCreated.
Proof.
  intros Hr Hs Hb.
  unfold Api._rate_limited_request, Api.guarded, Api.attempt, Api.raise_for_status.
  rewrite Hr.
  assert ((Api.status r =? 429) = false) as -> by (apply Z.eqb_neq; lia).
  assert ((400 <=? Api.status r) = false) as -> by (apply Z.leb_gt; lia).
  cbn. rewrite Hb. cbn.
  destruct (Api.client_session c); cbn; (split; [reflexivity|]); intros l Hl;
    destruct (Api.time_before E - Api.last_api_call c <? Api.rate_limit_delay);
    cbn in Hl; rewrite ?elem_of_cons, ?elem_of_nil in Hl; naive_solver.
Qed.

Lemma answered_call_returns_body_witness :
  (Api._rate_limited_request Examples.answering_env Examples.recent_client tt).1.1 = Ok (JObj []).
Proof.
  apply (answered_call_returns_body Examples.answering_env Examples.recent_client tt
           {| Api.status := 200; Api.json_body := Ok (JObj []) |} (JObj []));
    [reflexivity | vm_compute; reflexivity | reflexivity].
Defined.

(** X13: whatever the outcome, a call makes its request once (a
    throttled or failed request is not retried), leaves the session
    open and stamps the client with the clock reading taken after the
    sleep. *)
Theorem call_makes_one_request {request : Type}
    (E : Api.env request) (c : Api.client) (req : request) :
  (exists before after,
     (Api._rate_limited_request E c req).2 = before ++ Api.Http req :: after /\
     (forall r, Api.Http r ∉ before) /\ (forall r, Api.Http r ∉ after)) /\
  Api.client_session (Api._rate_limited_request E c req).1.2 = Api.OpenSession /\
  Api.last_api_call (Api._rate_limited_request E c req).1.2 = Api.time_after E.
Proof.
  assert (Hg : forall r, Api.Http r ∉ (Api.guarded E req).2).
  { intros r. unfold Api.guarded, Api.attempt.
    destruct (Api.http E req) as [resp | e]; cbn.
    - destruct (Api.status resp =? 429); cbn; [set_solver|].
      destruct (Api.raise_for_status resp) as [[] | e]; cbn.
      + destruct (Api.json_body resp) as [v | e]; [set_solver|]. destruct e; set_solver.
      + destruct e; set_solver.
    - destruct e; set_solver. }
  unfold Api._rate_limited_request.
  destruct (Api.guarded E req) as [r ev3]. cbn in Hg.
  split; [|by destruct (Api.client_session c)].
  destruct (Api.client_session c); cbn;
    destruct (Api.time_before E - Api.last_api_call c <? Api.rate_limit_delay); cbn;
    eexists _, ev3;
    (split; [ first [ reflexivity
                    | instantiate (1 := [_]); reflexivity
                    | instantiate (1 := [_; _]); reflexivity
                    | instantiate (1 := []); reflexivity ] |]);
    (split; [|exact Hg]); intros r0 Hin;
    rewrite ?elem_of_cons, ?elem_of_nil in Hin; naive_solver.
Qed.

(** ** The win rate *)

(** X14: a match count that reads as zero, in whatever spelling [int]
    accepts ([0], ["0"], ["00"], [False]), gives the rate "0": the
    quotient is never taken with a zero divisor. *)
Theorem win_rate_of_no_matches (wins total_matches : json) :
  int total_matches = Ok 0 ->
  Helpers.calculate_win_rate wins total_matches = Ok "0".
Proof.
  intros Hm. unfold Helpers.calculate_win_rate.
  destruct (negb (truthy total_matches) || negb (truthy wins)); [done|].
  rewrite Hm. reflexivity.
Qed.

Lemma win_rate_of_no_matches_witness :
  Helpers.calculate_win_rate (JStr "3") (JStr "00") = Ok "0".
Proof. apply win_rate_of_no_matches. reflexivity. Defined.

(** A count spelled with more digits than the interpreter converts is
    not read at all: [int] raises, and so does the helper. *)
Lemma overlong_count_raises :
  int (JStr (Float.zeros 4300)) = Ok 0 /\
  int (JStr (Float.zeros 4301)) = Raise ValueError /\
  Helpers.calculate_win_rate (JStr "3") (JStr (Float.zeros 4301)) = Raise ValueError.
Proof. repeat split; vm_compute; reflexivity. Qed.

(** The quotient of a number by itself is the double 1.0. *)
Lemma truediv_self (m : Z) :
  m <> 0 -> Float.truediv m m = Ok (S754_finite false 4503599627370496 (-52)).
Proof.
  intros Hm. unfold Float.truediv.
  assert ((m =? 0) = false) as -> by (by apply Z.eqb_neq).
  assert (Hq : forall (s : bool) (p : positive),
            SFdiv Float.prec Float.emax (S754_finite s p 0) (S754_finite s p 0) =
              S754_finite false 4503599627370496 (-52)).
  { intros s p. unfold SFdiv, SFdiv_core_binary. cbn [Zdigits2].
    replace (Z.sub (Z.add (Zpos (digits2_pos p)) 0) (Z.add (Zpos (digits2_pos p)) 0))
      with 0 by lia.
    change (Z.min (fexp Float.prec Float.emax 0) (Z.sub 0 0)) with (-53).
    change (Z.sub (Z.sub 0 0) (-53)) with 53.
    cbv iota beta.
    destruct (Z.div_eucl (Z.shiftl (Z.pos p) 53) (Z.pos p)) as [q r] eqn:Hd.
    assert (Hqr : q = 2 ^ 53 /\ r = 0).
    { pose proof (f_equal fst Hd) as H1. pose proof (f_equal snd Hd) as H2.
      change (fst (Z.div_eucl (Z.shiftl (Z.pos p) 53) (Z.pos p)))
        with (Z.shiftl (Z.pos p) 53 / Z.pos p) in H1.
      change (snd (Z.div_eucl (Z.shiftl (Z.pos p) 53) (Z.pos p)))
        with (Z.shiftl (Z.pos p) 53 mod Z.pos p) in H2.
      cbn [fst snd] in H1, H2. rewrite Z.shiftl_mul_pow2 in H1, H2 by lia.
      rewrite Z.mul_comm in H1, H2.
      rewrite Z.div_mul in H1 by lia. rewrite Z.mod_mul in H2 by lia. by subst. }
    destruct Hqr as [-> ->].
    replace (xorb s s) with false by (by destruct s).
    unfold new_location. destruct (Z.even (Z.pos p)); reflexivity. }
  unfold Float.nearest. destruct m as [| p | p]; [done | |]; cbn [Float.exact];
    by rewrite Hq.
Qed.

(** X15: a player who won every match is shown the rate "100.0",
    whatever the count: the quotient of the count by itself is exactly
    one, and the double 100.0 is a whole number of tenths. *)
Theorem win_rate_of_all_wins (wins total_matches : json) (m : Z) :
  truthy wins = true -> truthy total_matches = true ->
  int wins = Ok m -> int total_matches = Ok m -> m <> 0 ->
  Helpers.calculate_win_rate wins total_matches = Ok "100.0".
Proof.
  intros Htw Htm Hw Hm Hne. unfold Helpers.calculate_win_rate.
  rewrite Htw, Htm, Hm. cbn.
  assert ((m =? 0) = false) as -> by (by apply Z.eqb_neq).
  rewrite Hw. cbn. rewrite truediv_self by done. vm_compute. reflexivity.
Qed.

Lemma win_rate_of_all_wins_witness :
  Helpers.calculate_win_rate (JStr "7") (JNum 7) = Ok "100.0".
Proof.
  apply (win_rate_of_all_wins (JStr "7") (JNum 7) 7); try reflexivity. discriminate.
Defined.

(** X16: no wins reads differently by spelling: the number [0] gives
    "0", while the text ["0"] (the form the lifetime statistics come
    in) passes the emptiness test and gives "0.0". *)
Theorem win_rate_of_no_wins (total_matches : json) (m : Z) :
  truthy total_matches = true -> int total_matches = Ok m -> 0 < m ->
  Helpers.calculate_win_rate (JNum 0) total_matches = Ok "0" /\
  Helpers.calculate_win_rate (JStr "0") total_matches = Ok "0.0".
Proof.
  intros Htm Hm Hpos. unfold Helpers.calculate_win_rate. rewrite Htm, Hm. cbn.
  split; [reflexivity|].
  assert ((m =? 0) = false) as -> by (apply Z.eqb_neq; lia).
  change (truthy (JStr "0")) with true. change (int (JStr "0")) with (@Ok Z 0).
  cbn [negb mbind res_bind bind]. unfold Float.truediv.
  assert ((m =? 0) = false) as -> by (apply Z.eqb_neq; lia).
  destruct m as [| p | p]; [lia | | lia]. reflexivity.
Qed.

Lemma win_rate_of_no_wins_witness :
  Helpers.calculate_win_rate (JStr "0") (JStr "20") = Ok "0.0".
Proof. apply (win_rate_of_no_wins (JStr "20") 20); [reflexivity | reflexivity | lia]. Defined.

(** ** Links to a championship page *)

Lemma has_char_app (c : ascii) (s t : string) :
  Urls.has_char c (String.append s t) = Urls.has_char c s || Urls.has_char c t.
Proof.
  induction s as [| c' s IH]; simpl; [done|]. by rewrite IH, orb_assoc.
Qed.

Lemma replace_spaces_no_space (s : string) :
  Urls.has_char " " (Urls.replace_spaces s) = false.
Proof.
  induction s as [| c s IH]; [done|]. cbn [Urls.replace_spaces].
  destruct (Ascii.eqb c " ") eqn:Hc; cbn [Urls.has_char]; rewrite IH.
  - reflexivity.
  - rewrite orb_false_r, Ascii.eqb_sym. exact Hc.
Qed.

(** X17: the link has no blank in it whenever the identifier has none:
    every blank of the name is written [%20], and the length grows by
    two for each. *)
Theorem championship_url_has_no_blank (championship_id championship_name : string) :
  Urls.has_char " " championship_id = false ->
  Urls.has_char " " (Urls.format_championship_url championship_id championship_name) = false /\
  String.length (Urls.replace_spaces championship_name) =
    (String.length championship_name + 2 * Urls.count_spaces championship_name)%nat.
Proof.
  intros Hid. split.
  - unfold Urls.format_championship_url.
    rewrite !has_char_app, Hid, replace_spaces_no_space. reflexivity.
  - induction championship_name as [| c s IH]; [done|].
    cbn [Urls.replace_spaces Urls.count_spaces String.length].
    destruct (Ascii.eqb c " "); cbn [String.length]; rewrite IH; lia.
Qed.

Lemma championship_url_has_no_blank_witness :
  Urls.format_championship_url "abc-1" "Weekly Cup 5" =
    "https://www.faceit.com/en/championship/abc-1/Weekly%20Cup%205" /\
  Urls.has_char " " (Urls.format_championship_url "abc-1" "Weekly Cup 5") = false.
Proof.
  split; [reflexivity|].
  apply (championship_url_has_no_blank "abc-1" "Weekly Cup 5"). reflexivity.
Defined.

(** ** The legacy file format *)

(** X18: a file in the legacy format, a set of identifiers, loads as a
    store with exactly those identifiers, none of them with a message. *)
Theorem legacy_set_is_upgraded (ks : list Store.key) :
  exists m, Store.load_announced_tournaments (Store.Holds (Store.PKeys ks)) = Ok m /\
            forall k, m !! k = if decide (k ∈ ks) then Some None else None.
Proof.
  eexists. split; [reflexivity|]. intros k.
  destruct (decide (k ∈ ks)) as [Hin | Hout].
  - apply elem_of_list_to_map_1'.
    + intros y Hy. apply list_elem_of_fmap in Hy as (k' & Heq & _). congruence.
    + apply list_elem_of_fmap. by exists k.
  - apply not_elem_of_list_to_map_1. rewrite <- list_fmap_compose.
    intros Hk. apply list_elem_of_fmap in Hk as (k' & -> & Hk'). done.
Qed.

(** ** Updating the linked Discord user *)

Ltac linking_unfold :=
  unfold Linking.run, Linking.update_discord_user, Linking.emit in *; eff_unfold.

(** The loop adds at most one rename, in the first guild that has the
    member; it raises only what that rename raised, if not a refusal. *)
Lemma rename_in_guilds_spec (nick : json) (gs : list Linking.guild)
    (trace : list Linking.event) :
  match Linking.first_membership gs with
  | None => Linking.rename_in_guilds nick gs trace = (Ok tt, trace)
  | Some g =>
      exists edited, Linking.get_member g = Some edited /\
        Linking.rename_in_guilds nick gs trace =
          match edited with
          | Ok _ => (Ok tt, trace ++ [Linking.EditNick g nick; Linking.Print (Linking.LogUpdated g)])
          | Raise Forbidden =>
              (Ok tt, trace ++ [Linking.EditNick g nick;
                                Linking.Print (Linking.LogCannotUpdate g)])
          | Raise e => (Raise e, trace ++ [Linking.EditNick g nick])
          end
  end.
Proof.
  induction gs as [| g rest IH]; [reflexivity|]. cbn [Linking.first_membership].
  destruct (Linking.get_member g) as [edited |] eqn:Hg.
  - exists edited. split; [done|]. cbn [Linking.rename_in_guilds]. rewrite Hg.
    unfold Linking.emit. eff_unfold. cbn.
    destruct edited as [[] | e]; cbn; [by rewrite <- app_assoc|].
    destruct e; cbn; by rewrite <- ?app_assoc.
  - cbn [Linking.rename_in_guilds]. rewrite Hg. exact IH.
Qed.

(** X19: the nickname is changed in one guild at most: the first guild
    of [bot.guilds] in which the user is a member; guilds after it are
    not tried, also when that change is refused; and the coroutine
    never raises. *)
Theorem nickname_is_set_in_first_guild_only (E : Linking.env) (discord_id : positive)
    (nick skill : json) :
  (Linking.run E discord_id nick skill).1 = Ok tt /\
  (Linking.renames (Linking.run E discord_id nick skill).2 = [] \/
   exists g, Linking.first_membership (Linking.guilds E) = Some g /\
             Linking.renames (Linking.run E discord_id nick skill).2 = [g]).
Proof.
  linking_unfold. cbn.
  destruct (Linking.fetch_user E discord_id) as [[] | e]; cbn; [|by split; [|left]].
  pose proof (rename_in_guilds_spec nick (Linking.guilds E) [Linking.FetchUser discord_id])
    as Hspec.
  destruct (Linking.first_membership (Linking.guilds E)) as [g |].
  - destruct Hspec as (edited & Hg & ->).
    destruct edited as [[] | e]; cbn.
    + destruct (Linking.user_send E) as [[] | e]; cbn; (split; [done|]); right; by exists g.
    + destruct e; cbn;
        try (destruct (Linking.user_send E) as [[] | e']; cbn);
        (split; [done|]); right; by exists g.
  - rewrite Hspec. cbn.
    destruct (Linking.user_send E) as [[] | e]; cbn; (split; [done|]); by left.
Qed.

(** X20: a refused rename is not told from a successful one: when the
    user is found and the rename in their first guild is refused
    ([Forbidden]), the confirmation is sent all the same; only another
    failure of the rename suppresses it, and is logged. *)
Theorem refused_rename_is_still_confirmed (E : Linking.env) (discord_id : positive)
    (nick skill : json) (g : Linking.guild) (e : exn) :
  Linking.fetch_user E discord_id = Ok tt ->
  Linking.first_membership (Linking.guilds E) = Some g ->
  Linking.get_member g = Some (Raise e) ->
  (Linking.run E discord_id nick skill).2 =
    if decide (e = Forbidden)
    then [Linking.FetchUser discord_id; Linking.EditNick g nick;
          Linking.Print (Linking.LogCannotUpdate g); Linking.SendDM nick] ++
         match Linking.user_send E with
         | Ok _ => []
         | Raise _ => [Linking.Print Linking.LogError]
         end
    else [Linking.FetchUser discord_id; Linking.EditNick g nick;
          Linking.Print Linking.LogError].
Proof.
  intros Hu Hfirst Hg. linking_unfold. cbn. rewrite Hu. cbn.
  pose proof (rename_in_guilds_spec nick (Linking.guilds E) [Linking.FetchUser discord_id])
    as Hspec.
  rewrite Hfirst in Hspec. destruct Hspec as (edited & Hg' & ->).
  rewrite Hg in Hg'. injection Hg' as <-.
  destruct e; cbn; try reflexivity.
  by destruct (Linking.user_send E) as [[] | e'].
Qed.

Lemma refused_rename_is_still_confirmed_witness :
  (Linking.run Examples.three_guilds 42 (JStr "ace") (JNum 7)).2 =
    [Linking.FetchUser 42; Linking.EditNick Examples.strict_guild (JStr "ace");
     Linking.Print (Linking.LogCannotUpdate Examples.strict_guild); Linking.SendDM (JStr "ace")].
Proof.
  exact (refused_rename_is_still_confirmed Examples.three_guilds 42 (JStr "ace") (JNum 7)
           Examples.strict_guild Forbidden eq_refl eq_refl eq_refl).
Defined.

(** ** Linking: from [/login] to the callback *)

Lemma lookup_set_state (uid : positive) (v : OAuth.entry) (d : OAuth.states) :
  OAuth.lookup_state uid (OAuth.set_state uid v d) = Some v.
Proof.
  induction d as [| [k w] d IH]; cbn.
  - by rewrite Pos.eqb_refl.
  - destruct (Pos.eqb k uid) eqn:Hk; cbn; by rewrite Hk.
Qed.

Lemma lookup_set_state_ne (uid k : positive) (v : OAuth.entry) (d : OAuth.states) :
  k <> uid -> OAuth.lookup_state k (OAuth.set_state uid v d) = OAuth.lookup_state k d.
Proof.
  intros Hk. induction d as [| [k' w] d IH]; cbn.
  - assert (Pos.eqb uid k = false) as -> by (apply Pos.eqb_neq; congruence). done.
  - destruct (Pos.eqb k' uid) eqn:Hk'; cbn.
    + apply Pos.eqb_eq in Hk'. subst k'.
      by assert (Pos.eqb uid k = false) as -> by (apply Pos.eqb_neq; congruence).
    + by rewrite IH.
Qed.

Lemma keys_set_state (uid : positive) (v : OAuth.entry) (d : OAuth.states) :
  OAuth.keys (OAuth.set_state uid v d) =
    if decide (uid ∈ OAuth.keys d) then OAuth.keys d else OAuth.keys d ++ [uid].
Proof.
  unfold OAuth.keys. induction d as [| [k w] d IH]; [done|]. cbn [OAuth.set_state].
  destruct (Pos.eqb k uid) eqn:Hk.
  - apply Pos.eqb_eq in Hk. subst k. rewrite !fmap_cons. cbn [fst].
    rewrite decide_True; [done | by left].
  - apply Pos.eqb_neq in Hk. rewrite !fmap_cons. cbn [fst]. rewrite IH.
    destruct (decide (uid ∈ fst <$> d)) as [Hin | Hout].
    + rewrite decide_True; [done | by right].
    + rewrite decide_False; [done|]. rewrite elem_of_cons. naive_solver.
Qed.

(** X21: [/login] keeps one entry per user: the user's entry now holds
    the new token, in the place the old one had or else at the end;
    the entries of other users are as before; and keys stay distinct. *)
Theorem login_keeps_one_entry_per_user (uid : positive) (token : string) (issued : time)
    (d : OAuth.states) :
  OAuth.lookup_state uid (OAuth.login uid token issued d) =
    Some {| OAuth.entry_state := token; OAuth.entry_timestamp := issued |} /\
  (forall k, k <> uid ->
     OAuth.lookup_state k (OAuth.login uid token issued d) = OAuth.lookup_state k d) /\
  OAuth.keys (OAuth.login uid token issued d) =
    (if decide (uid ∈ OAuth.keys d) then OAuth.keys d else OAuth.keys d ++ [uid]) /\
  (NoDup (OAuth.keys d) -> NoDup (OAuth.keys (OAuth.login uid token issued d))).
Proof.
  unfold OAuth.login. split; [apply lookup_set_state|].
  split; [intros k Hk; by apply lookup_set_state_ne|].
  split; [apply keys_set_state|].
  intros Hnd. rewrite keys_set_state.
  destruct (decide (uid ∈ OAuth.keys d)); [done|].
  apply NoDup_app. split; [done|]. split; [|apply NoDup_singleton].
  intros k Hk Hk'. apply list_elem_of_singleton in Hk'. by subst.
Qed.

Lemma login_keeps_one_entry_per_user_witness :
  NoDup (OAuth.keys (OAuth.login 43 "new" 5 Examples.one_pending)).
Proof.
  apply (login_keeps_one_entry_per_user 43 "new" 5 Examples.one_pending).
  vm_compute. apply NoDup_singleton.
Defined.

Lemma find_set_state_fresh (uid : positive) (v : OAuth.entry) (d : OAuth.states) :
  (forall k w, (k, w) ∈ d -> k <> uid -> OAuth.entry_state w <> OAuth.entry_state v) ->
  OAuth.find_state (OAuth.set_state uid v d) (Some (OAuth.entry_state v)) = Some uid.
Proof.
  induction d as [| [k w] d IH]; intros Hfresh; cbn.
  - by rewrite decide_True.
  - destruct (Pos.eqb k uid) eqn:Hk; cbn.
    + apply Pos.eqb_eq in Hk. subst k. by rewrite decide_True.
    + apply Pos.eqb_neq in Hk. rewrite decide_False.
      * apply IH. intros k' w' Hin. apply Hfresh. by right.
      * intros [= Heq]. eapply Hfresh; [by left | done | done].
Qed.

Lemma pop_set_state (uid : positive) (v : OAuth.entry) (d : OAuth.states) :
  OAuth.pop_state uid (OAuth.set_state uid v d) = OAuth.pop_state uid d.
Proof.
  unfold OAuth.pop_state. induction d as [| [k w] d IH]; cbn [OAuth.set_state].
  - rewrite filter_cons. cbn [fst]. by rewrite decide_False by (intros H; by apply H).
  - destruct (Pos.eqb k uid) eqn:Hk.
    + apply Pos.eqb_eq in Hk. subst k. rewrite !filter_cons. cbn [fst].
      by rewrite !decide_False by (intros H; by apply H).
    + apply Pos.eqb_neq in Hk. rewrite !filter_cons. cbn [fst].
      rewrite !decide_True by done. by rewrite IH.
Qed.

(** X22: a link that was started can be completed: after [/login]
    stored a token no other user holds, the callback that presents it
    with an authorization code is matched to that user, and what
    remains is the map as it was before the login, without that user,
    whether the exchange with the provider succeeds or not. *)
Theorem login_then_callback (E : OAuth.env) (uid : positive) (token : string)
    (issued : time) (d : OAuth.states) (req : OAuth.request) :
  (forall k w, (k, w) ∈ d -> k <> uid -> OAuth.entry_state w <> token) ->
  OAuth.state req = Some token ->
  OAuth.not_code (OAuth.code req) = false ->
  OAuth.find_state (OAuth.login uid token issued d) (OAuth.state req) = Some uid /\
  OAuth.verification_states (OAuth.run E (OAuth.login uid token issued d) req).2 =
    OAuth.pop_state uid d.
Proof.
  intros Hfresh Hst Hcode.
  assert (Hfind : OAuth.find_state (OAuth.login uid token issued d) (OAuth.state req) = Some uid).
  { rewrite Hst. unfold OAuth.login.
    apply (find_set_state_fresh uid
             {| OAuth.entry_state := token; OAuth.entry_timestamp := issued |}).
    exact Hfresh. }
  split; [exact Hfind|].
  rewrite (oauth_callback_pops E _ req uid Hfind Hcode). apply pop_set_state.
Qed.

Lemma login_then_callback_witness :
  OAuth.verification_states
    (OAuth.run Examples.provider_down (OAuth.login 43 "new" 5 Examples.one_pending)
       {| OAuth.code := Some "c0de"; OAuth.state := Some "new" |}).2 =
  Examples.one_pending.
Proof.
  apply (login_then_callback Examples.provider_down 43 "new" 5 Examples.one_pending
           {| OAuth.code := Some "c0de"; OAuth.state := Some "new" |}).
  - intros k w Hin _. apply list_elem_of_singleton in Hin. injection Hin as -> ->.
    discriminate.
  - reflexivity.
  - reflexivity.
Defined.

Lemma elem_of_set_state (uid k : positive) (v w : OAuth.entry) (d : OAuth.states) :
  NoDup (OAuth.keys d) ->
  (k, w) ∈ OAuth.set_state uid v d ->
  (k = uid /\ w = v) \/ ((k, w) ∈ d /\ k <> uid).
Proof.
  unfold OAuth.keys. induction d as [| [k' w'] d IH]; cbn [OAuth.set_state].
  - intros _ Hin. apply list_elem_of_singleton in Hin. left. by injection Hin.
  - rewrite fmap_cons. cbn [fst]. intros [Hk' Hnd]%NoDup_cons.
    destruct (Pos.eqb k' uid) eqn:Heq.
    + apply Pos.eqb_eq in Heq. subst k'. intros [Hin | Hin]%elem_of_cons.
      * left. by injection Hin.
      * right. split; [by right|]. intros ->. apply Hk'.
        apply list_elem_of_fmap. by exists (uid, w).
    + apply Pos.eqb_neq in Heq. intros [Hin | Hin]%elem_of_cons.
      * injection Hin as -> ->. right. split; [by left | done].
      * destruct (IH Hnd Hin) as [? | [? ?]]; [by left|]. right. split; [by right | done].
Qed.

(** X23: logging in again makes the earlier token worthless: once the
    user's entry holds a new token, a callback presenting the old one
    (held by nobody else) is turned away with 400 and changes nothing. *)
Theorem relogin_invalidates_old_token (E : OAuth.env) (uid : positive)
    (old_token new_token : string) (issued : time) (d : OAuth.states)
    (req : OAuth.request) :
  NoDup (OAuth.keys d) ->
  (forall k w, (k, w) ∈ d -> OAuth.entry_state w = old_token -> k = uid) ->
  new_token <> old_token ->
  OAuth.state req = Some old_token ->
  OAuth.run E (OAuth.login uid new_token issued d) req =
    (Ok rejected, {| OAuth.verification_states := OAuth.login uid new_token issued d;
                     OAuth.trace := [] |}).
Proof.
  intros Hnd Hown Hne Hst. apply oauth_callback_guard.
  rewrite Hst, find_state_None; [done|].
  intros k w Hin [= Heq]. unfold OAuth.login in Hin.
  destruct (elem_of_set_state uid k _ w d Hnd Hin) as [[-> ->] | [Hin' Hk]].
  - cbn in Heq. congruence.
  - apply Hk. by eapply Hown.
Qed.

Lemma relogin_invalidates_old_token_witness :
  (OAuth.run Examples.provider_down (OAuth.login 42 "new" 5 Examples.one_pending)
     Examples.good_callback).1 = Ok rejected.
Proof.
  rewrite (relogin_invalidates_old_token Examples.provider_down 42 "tok" "new" 5
             Examples.one_pending Examples.good_callback).
  - reflexivity.
  - apply NoDup_singleton.
  - intros k w Hin _. apply list_elem_of_singleton in Hin. by injection Hin.
  - discriminate.
  - reflexivity.
Defined.

(** X24: when the provider answers both requests, the nickname update is
    handed over for the user who holds the presented token, with the
    nickname of the fetched profile, and the answer is 200; the
    provider is asked exactly twice, for the token and then for the
    profile. *)
Theorem successful_callback_updates_token_owner (E : OAuth.env) (d : OAuth.states)
    (req : OAuth.request) (uid : positive) (c : string)
    (tokens access_token player_data nickname games cs2 level : json) :
  OAuth.find_state d (OAuth.state req) = Some uid ->
  OAuth.code req = Some c -> c <> "" ->
  OAuth.post_token E c = Ok tokens ->
  item tokens "access_token" = Ok access_token ->
  OAuth.get_profile E access_token = Ok player_data ->
  get player_data "nickname" JNull = Ok nickname ->
  get player_data "games" (JObj []) = Ok games ->
  get games "cs2" (JObj []) = Ok cs2 ->
  get cs2 "skill_level" (JNum 0) = Ok level ->
  OAuth.run E d req =
    (Ok {| OAuth.response_body := OAuth.VerificationSuccessful nickname;
           OAuth.response_status := 200 |},
     {| OAuth.verification_states := OAuth.pop_state uid d;
        OAuth.trace := [OAuth.PostToken c; OAuth.GetProfile access_token;
                        OAuth.UpdateDiscordUser uid nickname level] |}).
Proof.
  intros Hfind Hc Hne Hpost Htok Hprof Hnick Hgames Hcs2 Hlvl.
  unfold OAuth.run, OAuth.oauth_callback, OAuth.pop, OAuth.emit. eff_unfold. cbn.
  rewrite Hfind, Hc. cbn.
  assert (String.eqb c "" = false) as -> by (by apply String.eqb_neq). cbn.
  rewrite Hpost. cbn. rewrite Htok. cbn. rewrite Hprof. cbn. rewrite Hnick. cbn.
  unfold bind. rewrite Hgames, Hcs2, Hlvl. reflexivity.
Qed.

Lemma successful_callback_updates_token_owner_witness :
  OAuth.trace (OAuth.run Examples.provider_up Examples.one_pending Examples.good_callback).2 =
    [OAuth.PostToken "c0de"; OAuth.GetProfile (JStr "at-1");
     OAuth.UpdateDiscordUser 42 (JStr "ace") (JNum 7)].
Proof.
  rewrite (successful_callback_updates_token_owner Examples.provider_up Examples.one_pending
             Examples.good_callback 42 "c0de"
             (JObj [("access_token", JStr "at-1")]) (JStr "at-1")
             (JObj [("nickname", JStr "ace");
                    ("games", JObj [("cs2", JObj [("skill_level", JNum 7)])])])
             (JStr "ace") (JObj [("cs2", JObj [("skill_level", JNum 7)])])
             (JObj [("skill_level", JNum 7)]) (JNum 7));
    try reflexivity.
  discriminate.
Defined.

#[local] Arguments item : simpl never.

(** X25: the handler always answers, with 200, 400 or 500; it hands
    over a nickname update only with a 200; and it never adds an entry
    to the map: what remains was there before. *)
Theorem callback_always_answers (E : OAuth.env) (d : OAuth.states) (req : OAuth.request) :
  exists resp,
    (OAuth.run E d req).1 = Ok resp /\
    OAuth.response_status resp ∈ [200; 400; 500] /\
    ((exists uid nick lvl,
        OAuth.UpdateDiscordUser uid nick lvl ∈ OAuth.trace (OAuth.run E d req).2) ->
     OAuth.response_status resp = 200) /\
    (forall kv, kv ∈ OAuth.verification_states (OAuth.run E d req).2 -> kv ∈ d).
Proof.
  assert (Hsub : forall uid kv, kv ∈ OAuth.pop_state uid d -> kv ∈ d).
  { intros uid kv Hin. by apply list_elem_of_filter in Hin as [_ Hin]. }
  unfold OAuth.run, OAuth.oauth_callback, OAuth.pop, OAuth.emit. eff_unfold. unfold bind. cbn.
  repeat (step; cbn); eexists; (split; [reflexivity|]); cbn;
    (split; [set_solver|]); (split; [|by eauto]);
    intros (uid & nick & lvl & Hin);
    rewrite ?elem_of_app, ?elem_of_cons, ?elem_of_nil in Hin; naive_solver.
Qed.

Lemma callback_always_answers_witness :
  exists resp,
    (OAuth.run Examples.provider_down Examples.one_pending Examples.good_callback).1 = Ok resp /\
    OAuth.response_status resp ∈ [200; 400; 500].
Proof.
  destruct (callback_always_answers Examples.provider_down Examples.one_pending
              Examples.good_callback) as (resp & Hresp & Hstatus & _).
  by exists resp.
Defined.

(** ** The [/stats] command: the ways it ends *)

(** X26: when the player lookup gives nothing (an empty username is not
    even looked up), the command answers "not found" after at most that
    one API call, asks for neither statistics nor history, and starts
    no cooldown. *)
Theorem unknown_player_is_reported (E : Stats.env) (cooldowns : gmap positive time)
    (author : positive) (username : string) :
  Stats.RATE_LIMIT_COOLDOWN <= Stats.now E - Stats.cooldown_of cooldowns author ->
  Stats.defer E = Ok tt ->
  username = "" \/ truthy (Stats.api E (Stats.PlayerByNickname username)) = false ->
  Stats.trace (Stats.run E cooldowns author username).2 =
    Stats.Defer ::
    (if truthy (JStr username) then [Stats.ApiCall (Stats.PlayerByNickname username)] else []) ++
    [Stats.FollowupSend Stats.PlayerNotFound true] /\
  (forall u, Stats.cooldown_of (Stats.user_cooldowns (Stats.run E cooldowns author username).2) u =
             Stats.cooldown_of cooldowns u).
Proof.
  intros Hcool Hdefer Hnone.
  assert (Hlt : (Stats.now E - Stats.cooldown_of cooldowns author <? Stats.RATE_LIMIT_COOLDOWN)
                = false) by (apply Z.ltb_ge; lia).
  split.
  - revert Hlt. unfold Stats.cooldown_of. stats_unfold. cbn.
    destruct (cooldowns !! author) as [t |]; cbn; intros ->; rewrite Hdefer; cbn;
      (destruct Hnone as [-> | Hnone];
       [ change (truthy (JStr "")) with false; reflexivity
       | destruct (truthy (JStr username)); cbn;
         [ by rewrite Hnone | reflexivity ] ]).
  - destruct (stats_cooldowns_change E cooldowns author username)
      as [Hsame | (_ & e & _ & Hlast & _)]; [exact Hsame|].
    exfalso. revert Hlt Hlast. unfold Stats.cooldown_of. stats_unfold. cbn.
    destruct (cooldowns !! author) as [t |]; cbn; intros ->; rewrite Hdefer; cbn;
      (destruct Hnone as [-> | Hnone];
       [ change (truthy (JStr "")) with false; cbn; discriminate
       | destruct (truthy (JStr username)); cbn;
         [ rewrite Hnone; cbn; discriminate | discriminate ] ]).
Qed.

Lemma unknown_player_is_reported_witness :
  Stats.trace (Stats.run (Examples.nobody_env 100000000) ∅ 7 "ghost").2 =
    [Stats.Defer; Stats.ApiCall (Stats.PlayerByNickname "ghost");
     Stats.FollowupSend Stats.PlayerNotFound true].
Proof.
  apply (unknown_player_is_reported (Examples.nobody_env 100000000) ∅ 7 "ghost").
  - vm_compute. discriminate.
  - reflexivity.
  - right. reflexivity.
Defined.

(** X27: when the history request fails (the primitive gives [None])
    for a player whose profile and statistics were found, the command
    does not degrade to an answer without recent matches: reading the
    items of [None] raises [AttributeError], nothing is sent after the
    deferral, and no cooldown starts. *)
Theorem failed_history_request_raises (E : Stats.env) (cooldowns : gmap positive time)
    (author : positive) (username : string)
    (profile stats lifetime : list (string * json)) (rate : string) :
  let player_id := default JNull (assoc "player_id" profile) in
  Stats.RATE_LIMIT_COOLDOWN <= Stats.now E - Stats.cooldown_of cooldowns author ->
  Stats.defer E = Ok tt ->
  username <> "" ->
  profile <> [] ->
  Stats.api E (Stats.PlayerByNickname username) = JObj profile ->
  Stats.api E (Stats.PlayerStats player_id) = JObj stats ->
  assoc "lifetime" stats = Some (JObj lifetime) ->
  Helpers.calculate_win_rate (default (JStr "0") (assoc "Wins" lifetime))
                             (default (JStr "0") (assoc "Matches" lifetime)) = Ok rate ->
  Stats.api E (Stats.MatchHistory player_id 5) = JNull ->
  Stats.run E cooldowns author username =
    (Raise AttributeError,
     {| Stats.user_cooldowns :=
          match cooldowns !! author with
          | Some _ => cooldowns
          | None => <[author := 0]> cooldowns
          end;
        Stats.trace := [Stats.Defer;
                        Stats.ApiCall (Stats.PlayerByNickname username);
                        Stats.ApiCall (Stats.PlayerStats player_id);
                        Stats.ApiCall (Stats.MatchHistory player_id 5)] |}).
Proof.
  intros player_id Hcool Hdefer Hname Hprofile Hp Hs Hl Hrate Hh. subst player_id.
  assert (Hlt : (Stats.now E - Stats.cooldown_of cooldowns author <? Stats.RATE_LIMIT_COOLDOWN)
                = false) by (apply Z.ltb_ge; lia).
  assert (Htn : truthy (JStr username) = true).
  { unfold truthy. by apply negb_true_iff, String.eqb_neq. }
  assert (Htp : truthy (JObj profile) = true) by (by destruct profile).
  revert Hlt. unfold Stats.cooldown_of. stats_unfold. cbn.
  destruct (cooldowns !! author) as [t |]; cbn; intros ->; rewrite Hdefer; cbn;
    rewrite Htn; cbn; rewrite Hp, Htp; cbn;
    unfold get at 1; cbn; rewrite Hs, Hh;
    unfold Stats.lacks_lifetime, contains; cbn; rewrite Hl; cbn;
    unfold get at 1 2 3 4 5; cbn; rewrite Hl; cbn; rewrite Hrate; cbn;
    reflexivity.
Qed.

Lemma failed_history_request_raises_witness :
  (Stats.run (Examples.no_history_env 100000000) ∅ 7 "me").1 = Raise AttributeError.
Proof.
  rewrite (failed_history_request_raises (Examples.no_history_env 100000000) ∅ 7 "me"
             [("player_id", JStr "me");
              ("faceit_url", JStr "https://www.faceit.com/{lang}/players/me");
              ("games", JObj [("cs2", JObj [("skill_level", JNum 5)])])]
             [("lifetime", JObj [("Wins", JStr "5"); ("Matches", JStr "20")])]
             [("Wins", JStr "5"); ("Matches", JStr "20")] "25.0");
    try reflexivity; try discriminate.
Defined.

(** X28: every match contributes one glyph at most, and the glyphs come
    in the order of the matches: the list the loop returns extends the
    one it started from by no more than the number of matches. *)
Theorem at_most_one_glyph_per_match (recent_results : list json)
    (acc icons : list Stats.icon) :
  Stats.recent_result_icons recent_results acc = Ok icons ->
  exists added, icons = acc ++ added /\ (length added <= length recent_results)%nat.
Proof.
  revert acc. induction recent_results as [| m rest IH]; intros acc.
  - intros [= <-]. exists []. by rewrite app_nil_r.
  - unfold Stats.recent_result_icons. fold Stats.recent_result_icons.
    eff_unfold. unfold bind.
    destruct (Stats.match_icon m) as [glyph | e]; [|discriminate].
    intros H. destruct (IH _ H) as (added & -> & Hlen).
    exists (option_list glyph ++ added). split; [by rewrite app_assoc|].
    rewrite length_app. destruct glyph; cbn; lia.
Qed.

Lemma at_most_one_glyph_per_match_witness :
  exists added,
    [Stats.Green] = [] ++ added /\
    (length added <= length [Examples.no_winner_data; Examples.won_as_faction1])%nat.
Proof.
  apply (at_most_one_glyph_per_match [Examples.no_winner_data; Examples.won_as_faction1]
           [] [Stats.Green]).
  reflexivity.
Defined.

Lemma stats_success_sets_cooldown (E : Stats.env) (cooldowns : gmap positive time)
    (author : positive) (username : string) (e : Stats.stats_embed) :
  (Stats.run E cooldowns author username).1 = Ok tt ->
  last (Stats.trace (Stats.run E cooldowns author username).2) =
    Some (Stats.FollowupSend (Stats.StatsEmbed e) false) ->
  Stats.cooldown_of (Stats.user_cooldowns (Stats.run E cooldowns author username).2) author =
    Stats.now E.
Proof.
  unfold Stats.cooldown_of. stats_unfold. cbn.
  repeat (step; cbn); intros Hok Hlast; try discriminate;
    by rewrite lookup_insert_eq.
Qed.

(** X29: an answered query starts the cooldown from the moment it
    began: after a run that sent the statistics, a second query by the
    same user that begins less than five seconds after the first one
    began is met with the cooldown notice alone, for whatever
    username. *)
Theorem answered_query_starts_cooldown (E1 E2 : Stats.env) (cooldowns : gmap positive time)
    (author : positive) (username1 username2 : string) (e : Stats.stats_embed) :
  let r1 := Stats.run E1 cooldowns author username1 in
  r1.1 = Ok tt ->
  last (Stats.trace r1.2) = Some (Stats.FollowupSend (Stats.StatsEmbed e) false) ->
  Stats.now E2 - Stats.now E1 < Stats.RATE_LIMIT_COOLDOWN ->
  Stats.trace (Stats.run E2 (Stats.user_cooldowns r1.2) author username2).2 =
    [Stats.Respond
       (Stats.CooldownNotice (Stats.RATE_LIMIT_COOLDOWN - (Stats.now E2 - Stats.now E1)))
       true].
Proof.
  intros r1 Hok Hlast Hsoon.
  pose proof (stats_success_sets_cooldown E1 cooldowns author username1 e Hok Hlast) as Hset.
  fold r1 in Hset.
  destruct (stats_within_cooldown E2 (Stats.user_cooldowns r1.2) author username2)
    as [Htrace _]; [by rewrite Hset|].
  by rewrite Htrace, Hset.
Qed.

Lemma answered_query_starts_cooldown_witness :
  let E1 := Examples.stats_env 100000000 [Examples.won_as_faction1] in
  let E2 := Examples.stats_env 102000000 [Examples.won_as_faction1] in
  Stats.trace (Stats.run E2 (Stats.user_cooldowns (Stats.run E1 ∅ 7 "me").2) 7 "other").2 =
    [Stats.Respond (Stats.CooldownNotice 3000000) true].
Proof.
  intros E1 E2.
  destruct (Stats.run E1 ∅ 7 "me") as [r1 s1] eqn:Hrun.
  assert (Hok : (Stats.run E1 ∅ 7 "me").1 = Ok tt) by reflexivity.
  pose proof (answered_query_starts_cooldown E1 E2 ∅ 7 "me" "other") as H.
  cbn zeta in H. rewrite Hrun in H. cbn [fst snd] in H.
  rewrite Hrun in Hok. cbn [fst] in Hok.
  eapply H; [exact Hok | | vm_compute; reflexivity].
  vm_compute in Hrun. injection Hrun as <- <-. reflexivity.
Defined.
